(** * QZH TEI-XML preview: the TEI-to-HTML transform of [src/js/parser.js]

    A shallow embedding of the newer parser variant (the first
    [QZHParser] closure of [src/js/parser.js]) and the properties of its
    text escaping, date formatting, rendition mapping, register
    deduplication, footnote numbering and element handlers.

    Conventions of the embedding.
    - A JavaScript string is a Rocq [string] holding its UTF-8 encoding;
      every character the code inspects is ASCII, except the white space
      characters of [trim] and [\s] and the no-break space of the DOM
      serialiser, which are matched as their UTF-8 byte sequences.
    - The module-level [let] variables of the closure are the fields of
      a [state] record that every effectful function threads.
    - A DOM node carries no parent pointer in the embedding; the chain of
      ancestors that [parentElement] walks is passed along as a [ctx].
    - After the parser come the functions of its callers that compute
      text: the tooltip contents of [src/js/tooltips.js], the rendering
      of the page of [src/js/app.js] and the document id of
      [src/unnamed/part_000]. *)

From Stdlib Require Import String Ascii List ZArith Lia Bool Arith.
From Stdlib Require Import Sorted Permutation.
From Stdlib Require Import DecimalString DecimalZ.
Import ListNotations.

Open Scope string_scope.

(** ** JavaScript string primitives *)

Module JS.

(** The double quote, which a Rocq literal here never contains. *)
Definition dquote : ascii := ascii_of_nat 34.
Definition apostrophe : ascii := ascii_of_nat 39.

(** Template literals of the source are written with an apostrophe where
    the JavaScript text has a double quote; [tpl] puts the double quotes
    back.  It is applied to the fixed pieces of a template only, never to
    an interpolated value. *)
Fixpoint tpl (s : string) : string :=
  match s with
  | EmptyString => EmptyString
  | String c r => String (if Ascii.eqb c apostrophe then dquote else c) (tpl r)
  end.

Definition truthy (s : string) : bool :=
  match s with EmptyString => false | _ => true end.

(** [a || b] on strings. *)
Definition orElse (a b : string) : string := if truthy a then a else b.

(** [s.replace(/c/g, by)] for a single character [c]. *)
Fixpoint replaceAll (c : ascii) (by_ : string) (s : string) : string :=
  match s with
  | EmptyString => EmptyString
  | String x r =>
      if Ascii.eqb x c then by_ ++ replaceAll c by_ r
      else String x (replaceAll c by_ r)
  end.

(** [s.split(c)] for a one-character separator: never an empty array. *)
Fixpoint split (c : ascii) (s : string) : list string :=
  match s with
  | EmptyString => [EmptyString]
  | String x r =>
      if Ascii.eqb x c then EmptyString :: split c r
      else match split c r with
           | p :: ps => String x p :: ps
           | [] => [String x EmptyString]
           end
  end.

(** [parts.join(sep)]. *)
Fixpoint join (sep : string) (l : list string) : string :=
  match l with
  | [] => EmptyString
  | [x] => x
  | x :: r => x ++ sep ++ join sep r
  end.

Fixpoint startsWith (p s : string) : bool :=
  match p, s with
  | EmptyString, _ => true
  | String a p', String b s' => Ascii.eqb a b && startsWith p' s'
  | String _ _, EmptyString => false
  end.

(** [s.substring(n)]. *)
Fixpoint substring_from (n : nat) (s : string) : string :=
  match n, s with
  | O, _ => s
  | S n', String _ r => substring_from n' r
  | S _, EmptyString => EmptyString
  end.

Fixpoint rev_string (acc s : string) : string :=
  match s with
  | EmptyString => acc
  | String c r => rev_string (String c acc) r
  end.

Definition byte (c : ascii) : nat := nat_of_ascii c.

(** White space of [trim] and of the regular expression class [\s]
    (WhiteSpace and LineTerminator of ECMAScript), by UTF-8 length. *)
Definition isWS1 (a : ascii) : bool :=
  let n := byte a in (((9 <=? n) && (n <=? 13)) || (n =? 32))%nat.

(** U+00A0, the no-break space: the one white space character of two
    bytes. *)
Definition isNBSP (a b : ascii) : bool :=
  ((byte a =? 194) && (byte b =? 160))%nat.

(** U+1680, U+2000..U+200A, U+2028, U+2029, U+202F, U+205F, U+3000,
    U+FEFF. *)
Definition isWS3 (a b c : ascii) : bool :=
  let x := byte a in let y := byte b in let z := byte c in
  (((x =? 225) && (y =? 154) && (z =? 128))
   || ((x =? 226) && (y =? 128)
       && (((128 <=? z) && (z <=? 138)) || (z =? 168) || (z =? 169) || (z =? 175)))
   || ((x =? 226) && (y =? 129) && (z =? 159))
   || ((x =? 227) && (y =? 128) && (z =? 128))
   || ((x =? 239) && (y =? 187) && (z =? 191)))%nat.

(** The rest of [s] after one leading white space character, if any. *)
Definition wsPrefix (s : string) : option string :=
  match s with
  | String a r1 =>
      if isWS1 a then Some r1 else
      match r1 with
      | String b r2 =>
          if isNBSP a b then Some r2 else
          match r2 with
          | String c r3 => if isWS3 a b c then Some r3 else None
          | EmptyString => None
          end
      | EmptyString => None
      end
  | EmptyString => None
  end.

Fixpoint trimStart (s : string) : string :=
  match s with
  | String a r1 =>
      if isWS1 a then trimStart r1 else
      match r1 with
      | String b r2 =>
          if isNBSP a b then trimStart r2 else
          match r2 with
          | String c r3 => if isWS3 a b c then trimStart r3 else s
          | EmptyString => s
          end
      | EmptyString => s
      end
  | EmptyString => s
  end.

(** [trimStart] on the reversed string, the bytes of a character coming
    last byte first. *)
Fixpoint trimStartRev (s : string) : string :=
  match s with
  | String a r1 =>
      if isWS1 a then trimStartRev r1 else
      match r1 with
      | String b r2 =>
          if isNBSP b a then trimStartRev r2 else
          match r2 with
          | String c r3 => if isWS3 c b a then trimStartRev r3 else s
          | EmptyString => s
          end
      | EmptyString => s
      end
  | EmptyString => s
  end.

Definition trimEnd (s : string) : string :=
  rev_string "" (trimStartRev (rev_string "" s)).

Definition trim (s : string) : string := trimEnd (trimStart s).

(** [s.split(/\s+/)]: the pieces between maximal runs of white space,
    with an empty piece before a leading and after a trailing run. *)
Fixpoint splitWS (s : string) : list string :=
  match s with
  | EmptyString => [EmptyString]
  | String a r1 =>
      let keep := match splitWS r1 with
                  | p :: ps => String a p :: ps
                  | [] => [String a EmptyString]
                  end in
      let cut (r : string) (rec : list string) :=
        match wsPrefix r with Some _ => rec | None => EmptyString :: rec end in
      if isWS1 a then cut r1 (splitWS r1) else
      match r1 with
      | String b r2 =>
          if isNBSP a b then cut r2 (splitWS r2) else
          match r2 with
          | String c r3 => if isWS3 a b c then cut r3 (splitWS r3) else keep
          | EmptyString => keep
          end
      | EmptyString => keep
      end
  end.

(** [s.toLowerCase()].  The case mapping of ASCII letters; characters
    outside ASCII are left as they are (their Unicode case mapping is not
    part of the embedding). *)
Definition lowerChar (c : ascii) : ascii :=
  let n := byte c in
  if ((65 <=? n) && (n <=? 90))%nat then ascii_of_nat (n + 32) else c.

Fixpoint toLowerCase (s : string) : string :=
  match s with
  | EmptyString => EmptyString
  | String c r => String (lowerChar c) (toLowerCase r)
  end.

(** The characters of [keep] only: [s.replace(/[^...]/g, '')]. *)
Fixpoint filterChars (keep : ascii -> bool) (s : string) : string :=
  match s with
  | EmptyString => EmptyString
  | String c r => if keep c then String c (filterChars keep r) else filterChars keep r
  end.

Definition isDigit (c : ascii) : bool :=
  let n := byte c in ((48 <=? n) && (n <=? 57))%nat.

Definition isLowerAlpha (c : ascii) : bool :=
  let n := byte c in ((97 <=? n) && (n <=? 122))%nat.

(** A JavaScript number as the code meets it: an integer or [NaN].  The
    integers are exact below 2^53, the range of every count and date
    component the code handles. *)
Inductive jsnum := NaN | Num (z : Z).

(** Value of the longest prefix of decimal digits. *)
Fixpoint digitsValue (acc : Z) (s : string) : Z :=
  match s with
  | String c r =>
      if isDigit c then digitsValue (10 * acc + Z.of_nat (byte c - 48)) r else acc
  | EmptyString => acc
  end.

(** [parseInt(s, 10)]: leading white space, an optional sign, then the
    longest run of digits; [NaN] when there is no digit. *)
Definition parseInt (s : string) : jsnum :=
  let t := trimStart s in
  let '(neg, u) :=
    match t with
    | String c r =>
        if Ascii.eqb c "-" then (true, r)
        else if Ascii.eqb c "+" then (false, r) else (false, t)
    | EmptyString => (false, t)
    end in
  match u with
  | String c _ =>
      if isDigit c then
        let v := digitsValue 0 u in Num (if neg then Z.opp v else v)
      else NaN
  | EmptyString => NaN
  end.

Definition Z_to_string (z : Z) : string :=
  NilEmpty.string_of_int (Z.to_int z).

(** A number inside a template literal. *)
Definition numberToString (n : jsnum) : string :=
  match n with
  | NaN => "NaN"
  | Num z => Z_to_string z
  end.

Definition nat_to_string (n : nat) : string := Z_to_string (Z.of_nat n).

(** [n - 1] *)
Definition pred_number (n : jsnum) : jsnum :=
  match n with NaN => NaN | Num z => Num (z - 1) end.

(** [arr[i]] inside a template literal: the element, or [undefined]. *)
Definition indexToString (arr : list string) (i : jsnum) : string :=
  match i with
  | NaN => "undefined"
  | Num z =>
      if (z <? 0)%Z then "undefined"
      else match nth_error arr (Z.to_nat z) with
           | Some x => x
           | None => "undefined"
           end
  end.

(** The properties every object literal inherits from
    [Object.prototype], with the text each has inside a template literal
    or [join].  A lookup [obj[key]] on an object literal finds these when
    [key] is not an own property; all of them are truthy.  The exact
    source text of a built-in function is the host's. *)
Definition nativeFunction (nm : string) : string :=
  "function " ++ nm ++ "() { [native code] }".

Definition Object_prototype : list (string * string) :=
  [ ("constructor", nativeFunction "Object");
    ("hasOwnProperty", nativeFunction "hasOwnProperty");
    ("isPrototypeOf", nativeFunction "isPrototypeOf");
    ("propertyIsEnumerable", nativeFunction "propertyIsEnumerable");
    ("toLocaleString", nativeFunction "toLocaleString");
    ("toString", nativeFunction "toString");
    ("valueOf", nativeFunction "valueOf");
    ("__defineGetter__", nativeFunction "__defineGetter__");
    ("__defineSetter__", nativeFunction "__defineSetter__");
    ("__lookupGetter__", nativeFunction "__lookupGetter__");
    ("__lookupSetter__", nativeFunction "__lookupSetter__");
    ("__proto__", "[object Object]") ].

Fixpoint assoc (k : string) (l : list (string * string)) : option string :=
  match l with
  | [] => None
  | (k', v) :: r => if String.eqb k k' then Some v else assoc k r
  end.

(** [obj[key]] for an object literal [obj] with the own properties
    [own], as the text of the value found; [None] is [undefined]. *)
Definition objectLookup (own : list (string * string)) (key : string)
  : option string :=
  match assoc key own with
  | Some v => Some v
  | None => assoc key Object_prototype
  end.

(** [Array.from(new Set(xs))]: first occurrences, in order. *)
Fixpoint dedupStrings (seen : list string) (xs : list string) : list string :=
  match xs with
  | [] => []
  | x :: r =>
      if existsb (String.eqb x) seen then dedupStrings seen r
      else x :: dedupStrings (x :: seen) r
  end.

End JS.
Import JS.

(** ** Escaping *)

(** [escapeHTML]: the text is stored as the only child of a fresh [div]
    and read back through [innerHTML].  The HTML fragment serialiser
    escapes the data of a text node by replacing [&], the no-break space
    U+00A0, [<] and [>]; the two quote characters are escaped in
    attribute values only and so are left as they are here. *)
Fixpoint escapeHTML (text : string) : string :=
  match text with
  | EmptyString => EmptyString
  | String a r =>
      if Ascii.eqb a "&" then "&amp;" ++ escapeHTML r
      else if Ascii.eqb a "<" then "&lt;" ++ escapeHTML r
      else if Ascii.eqb a ">" then "&gt;" ++ escapeHTML r
      else match r with
           | String b r2 =>
               if isNBSP a b then "&nbsp;" ++ escapeHTML r2
               else String a (escapeHTML r)
           | EmptyString => String a EmptyString
           end
  end.

(** [escapeAttr]: five global replacements, the ampersand first. *)
Definition escapeAttr (text : string) : string :=
  replaceAll ">" "&gt;"
    (replaceAll "<" "&lt;"
       (replaceAll apostrophe "&#39;"
          (replaceAll dquote "&quot;"
             (replaceAll "&" "&amp;" text)))).

(** Decoding of the character references an escaper can emit, the
    inverse the round-trip property speaks of.  The code has no such
    function; it is what a browser does with the text it is given.
    [skip] counts the characters of a reference still to be dropped. *)
Fixpoint unescapeFrom (skip : nat) (s : string) : string :=
  match s with
  | EmptyString => EmptyString
  | String c r =>
      match skip with
      | S k => unescapeFrom k r
      | O =>
          if Ascii.eqb c "&" then
            if startsWith "amp;" r then String "&" (unescapeFrom 4 r)
            else if startsWith "lt;" r then String "<" (unescapeFrom 3 r)
            else if startsWith "gt;" r then String ">" (unescapeFrom 3 r)
            else if startsWith "quot;" r then String dquote (unescapeFrom 5 r)
            else if startsWith "#39;" r then String apostrophe (unescapeFrom 4 r)
            else if startsWith "nbsp;" r
                 then String (ascii_of_nat 194)
                        (String (ascii_of_nat 160) (unescapeFrom 5 r))
            else String c (unescapeFrom 0 r)
          else String c (unescapeFrom 0 r)
      end
  end.

Definition unescapeHTML (s : string) : string := unescapeFrom 0 s.

(** ** Dates *)

Definition months : list string :=
  ["Januar"; "Februar"; "März"; "April"; "Mai"; "Juni";
   "Juli"; "August"; "September"; "Oktober"; "November"; "Dezember"].

(** [months[parseInt(part, 10) - 1]] inside a template literal. *)
Definition monthName (part : string) : string :=
  indexToString months (pred_number (parseInt part)).

Definition formatDate (isoDate : string) : string :=
  if negb (truthy isoDate) then "" else
  let parts := split "-" isoDate in
  match parts with
  | [year; m; d] =>
      let day := parseInt d in
      numberToString day ++ ". " ++ monthName m ++ " " ++ year
  | [year; m] => monthName m ++ " " ++ year
  | _ => isoDate
  end.

(** ** Rendition classes *)

Definition rendMap : list (string * string) :=
  [ ("sup", "simple_superscript");
    ("super", "simple_superscript");
    ("superscript", "simple_superscript");
    ("sub", "simple_subscript");
    ("subscript", "simple_subscript");
    ("italic", "simple_italic");
    ("italics", "simple_italic");
    ("bold", "simple_bold");
    ("underline", "simple_underline");
    ("strikethrough", "simple_strikethrough");
    ("smallcaps", "simple_smallcaps");
    ("small-caps", "simple_smallcaps");
    ("allcaps", "simple_allcaps");
    ("uppercase", "simple_allcaps");
    ("larger", "simple_larger");
    ("smaller", "simple_smaller");
    ("letter-space", "simple_letterspace");
    ("letterspace", "simple_letterspace");
    ("letterspacing", "simple_letterspace");
    ("spaced", "simple_letterspace");
    ("gesperrt", "simple_letterspace");
    ("sperrung", "simple_letterspace");
    ("center", "simple_centre");
    ("centre", "simple_centre");
    ("right", "simple_right");
    ("left", "simple_left") ].

(** [[a-z0-9_-]]. *)
Definition isClassChar (c : ascii) : bool :=
  isLowerAlpha c || isDigit c || Ascii.eqb c "_" || Ascii.eqb c "-".

(** The tokens of a [rend] value:
    [rend.toLowerCase().split(/\s+/).map(t => t.trim()).filter(Boolean)]. *)
Definition rendTokens (rend : string) : list string :=
  filter truthy (map trim (splitWS (toLowerCase rend))).

(** One round of the loop over the tokens: the class pushed for a token,
    if any.  The last case is the lookup [rendMap[normalized] ||
    rendMap[compact]] on the object literal. *)
Definition tokenClass (token : string) : option string :=
  if startsWith "simple:" token then
    Some ("simple_" ++ filterChars isClassChar (substring_from 7 token))
  else if startsWith "simple_" token then Some token
  else if startsWith "simple-" token then
    Some ("simple_" ++ substring_from 7 token)
  else
    let normalized := replaceAll "_" "-" token in
    let compact := replaceAll "-" "" normalized in
    match objectLookup rendMap normalized with
    | Some mapped => Some mapped
    | None => objectLookup rendMap compact
    end.

Fixpoint rendClasses (tokens : list string) : list string :=
  match tokens with
  | [] => []
  | token :: r =>
      match tokenClass token with
      | Some cls => cls :: rendClasses r
      | None => rendClasses r
      end
  end.

Definition getRenditionClass (rend : string) : string :=
  if negb (truthy rend) then "tei-hi" else
  let classes := rendClasses (rendTokens rend) in
  match classes with
  | [] => "tei-hi"
  | _ => join " " (dedupStrings [] classes)
  end.

(** ** Durations *)

Fixpoint spanDigits (s : string) : string * string :=
  match s with
  | String c r =>
      if isDigit c then let '(ds, rest) := spanDigits r in (String c ds, rest)
      else (EmptyString, s)
  | EmptyString => (EmptyString, EmptyString)
  end.

(** An optional group of the duration pattern, digits and a unit letter, the letter
    compared without regard to case: the digits captured (empty when the
    group does not take part) and the rest of the input. *)
Definition unitGroup (letter : ascii) (s : string) : string * string :=
  let '(ds, rest) := spanDigits s in
  match ds, rest with
  | String _ _, String c rest' =>
      if Ascii.eqb (lowerChar c) letter then (ds, rest') else (EmptyString, s)
  | _, _ => (EmptyString, s)
  end.

(** [parseInt(group || '0', 10)] for a captured run of digits. *)
Definition groupValue (ds : string) : Z :=
  digitsValue 0 (orElse ds "0").

(** One entry of [parts]: the count, the unit and its plural ending. *)
Definition unitPart (v : Z) (unit_ plural : string) : list string :=
  if (v =? 0)%Z then []
  else [Z_to_string v ++ " " ++ unit_ ++ (if (v =? 1)%Z then "" else plural)].

(** The second pattern of [formatIsoDuration] and the text built from its
    groups; the input itself when it does not match or names no unit. *)
Definition formatPlainDuration (duration : string) : string :=
  match duration with
  | String p s0 =>
      if Ascii.eqb (lowerChar p) "p" then
        let '(y, s1) := unitGroup "y" s0 in
        let '(mo, s2) := unitGroup "m" s1 in
        let '(w, s3) := unitGroup "w" s2 in
        let '(d, s4) := unitGroup "d" s3 in
        let '(h, mi, sec, s8) :=
          match s4 with
          | String t s5 =>
              if Ascii.eqb (lowerChar t) "t" then
                let '(h, s6) := unitGroup "h" s5 in
                let '(mi, s7) := unitGroup "m" s6 in
                let '(sec, s8) := unitGroup "s" s7 in
                (h, mi, sec, s8)
              else (EmptyString, EmptyString, EmptyString, s4)
          | EmptyString => (EmptyString, EmptyString, EmptyString, s4)
          end in
        match s8 with
        | EmptyString =>
            let parts :=
              (unitPart (groupValue y) "Jahr" "e"
               ++ unitPart (groupValue mo) "Monat" "e"
               ++ unitPart (groupValue w) "Woche" "n"
               ++ unitPart (groupValue d) "Tag" "e"
               ++ unitPart (groupValue h) "Stunde" "n"
               ++ unitPart (groupValue mi) "Minute" "n"
               ++ unitPart (groupValue sec) "Sekunde" "n")%list in
            match parts with
            | [] => duration
            | _ => join " " parts
            end
        | String _ _ => duration
        end
      else duration
  | EmptyString => duration
  end.

(** A line terminator, which the [.] of a pattern does not match. *)
Fixpoint hasLineTerminator (s : string) : bool :=
  match s with
  | EmptyString => false
  | String a r =>
      ((byte a =? 10) || (byte a =? 13))%nat
      || match r with
         | String b (String c _) =>
             ((byte a =? 226) && (byte b =? 128)
              && ((byte c =? 168) || (byte c =? 169)))%nat
         | _ => false
         end
      || hasLineTerminator r
  end.

(** [formatIsoDuration].  The first pattern (an [R], any number of
    digits, a slash, then one or more characters up to the end) is read
    by the inner loop: the digits of the repeat count, the slash, and a
    rest that is not empty and holds no line terminator. *)
Fixpoint formatIsoDuration (duration : string) : string :=
  match duration with
  | EmptyString => EmptyString
  | String c r =>
      let repeatMatch :=
        if Ascii.eqb c "R" then
          (fix afterCount (repeatCount : string) (t : string) {struct t}
             : option string :=
             match t with
             | String x t' =>
                 if isDigit x
                 then afterCount (repeatCount ++ String x EmptyString) t'
                 else if Ascii.eqb x "/" then
                   if truthy t' && negb (hasLineTerminator t') then
                     let repeated := formatIsoDuration t' in
                     if truthy repeatCount
                     then Some (repeatCount ++ "× wiederholt (" ++ repeated ++ ")")
                     else Some ("wiederholt (" ++ repeated ++ ")")
                   else None
                 else None
             | EmptyString => None
             end) EmptyString r
        else None in
      match repeatMatch with
      | Some out => out
      | None => formatPlainDuration duration
      end
  end.

(** ** The document tree *)

(** A DOM node: a text node, a CDATA section, a node of any other kind
    (comment, processing instruction), or an element with its namespace,
    local name, attributes in document order and child nodes. *)
#[warnings="-register-all"]
Inductive node :=
| Text (data : string)
| CData (data : string)
| Misc
| Elem (ns : string) (localName : string)
       (attributes : list (string * string)) (childNodes : list node).

Definition TEI_NS : string := "http://www.tei-c.org/ns/1.0".

(** [node.getAttribute(name)]; [None] is [null]. *)
Definition getAttribute (attrs : list (string * string)) (nm : string)
  : option string := assoc nm attrs.

(** [node.getAttribute(name) || dflt]. *)
Definition attrOr (attrs : list (string * string)) (nm dflt : string) : string :=
  match getAttribute attrs nm with
  | Some v => orElse v dflt
  | None => dflt
  end.

(** [node.textContent]: the data of the text and CDATA descendants. *)
Fixpoint textContent (n : node) : string :=
  match n with
  | Text d => d
  | CData d => d
  | Misc => EmptyString
  | Elem _ _ _ kids =>
      (fix go (ks : list node) : string :=
         match ks with
         | [] => EmptyString
         | k :: r =>
             match k with
             | Misc => go r
             | _ => textContent k ++ go r
             end
         end) kids
  end.

(** One step of the [parentElement] chain: the parent element and the
    index of the node among the parent's child nodes. *)
Record frame := mkFrame {
  f_ns : string;
  f_name : string;
  f_attrs : list (string * string);
  f_kids : list node;
  f_idx : nat
}.

(** The ancestors of a node, the parent first. *)
Definition ctx := list frame.

(** A node together with the chain of its ancestors. *)
Definition located : Type := ctx * node.

Definition isElem (n : node) : bool :=
  match n with Elem _ _ _ _ => true | _ => false end.

Definition nameOf (n : node) : string :=
  match n with Elem _ nm _ _ => nm | _ => EmptyString end.

Definition attrsOf (n : node) : list (string * string) :=
  match n with Elem _ _ a _ => a | _ => [] end.

Definition nsOf (n : node) : string :=
  match n with Elem ns _ _ _ => ns | _ => EmptyString end.

Definition kidsOf (n : node) : list node :=
  match n with Elem _ _ _ k => k | _ => [] end.

(** The element descendants below a list of child nodes, in document
    order; [frameAt i] is the step of the ancestor chain for the child at
    index [i]. *)
Section Below.

Variable frameAt : nat -> frame.
Variable c : ctx.
Variable below : ctx -> node -> list located.

Fixpoint belowLoop (i : nat) (ks : list node) {struct ks} : list located :=
  match ks with
  | [] => []
  | k :: r =>
      let c' := frameAt i :: c in
      ((if isElem k then (c', k) :: below c' k else [])
       ++ belowLoop (S i) r)%list
  end.

End Below.

(** The element descendants of a node in document order. *)
Fixpoint descendants (c : ctx) (n : node) {struct n} : list located :=
  match n with
  | Elem ns nm a kids => belowLoop (mkFrame ns nm a kids) c descendants 0 kids
  | _ => []
  end.

(** The selectors the code passes to [querySelector]: a type selector, a
    descendant combinator of two type selectors, and a type selector
    with an attribute value. *)
Inductive selector :=
| ByTag (nm : string)
| Within (anc nm : string)
| ByTagAttr (nm attr val : string).

Definition selects (sel : selector) (x : located) : bool :=
  let '(c, n) := x in
  match sel with
  | ByTag nm => String.eqb (nameOf n) nm
  | Within anc nm =>
      String.eqb (nameOf n) nm
      && existsb (fun f => String.eqb (f_name f) anc) c
  | ByTagAttr nm attr val =>
      String.eqb (nameOf n) nm
      && match getAttribute (attrsOf n) attr with
         | Some v => String.eqb v val
         | None => false
         end
  end.

Definition querySelectorAll (sel : selector) (c : ctx) (n : node)
  : list located := filter (selects sel) (descendants c n).

Definition querySelector (sel : selector) (c : ctx) (n : node)
  : option located := hd_error (querySelectorAll sel c n).

Definition getElementsByTagNameNS (ns nm : string) (c : ctx) (n : node)
  : list located :=
  filter (fun x => String.eqb (nsOf (snd x)) ns && String.eqb (nameOf (snd x)) nm)
         (descendants c n).

(** [a || b] on possibly missing nodes. *)
Definition orNode (a b : option located) : option located :=
  match a with Some _ => a | None => b end.

(** [node.querySelector(name) || node.getElementsByTagNameNS(TEI_NS,
    name)[0]], the code's way to find an element by name. *)
Definition findByName (sel : selector) (nm : string) (c : ctx) (n : node)
  : option located :=
  orNode (querySelector sel c n) (hd_error (getElementsByTagNameNS TEI_NS nm c n)).

(** A document is its document element; the queries on the document
    consider that element as well as its descendants. *)
Definition docElements (d : node) : list located :=
  if isElem d then ([], d) :: descendants [] d else [].

Definition docFindByName (nm : string) (d : node) : option located :=
  orNode (hd_error (filter (selects (ByTag nm)) (docElements d)))
         (hd_error (filter (fun x => String.eqb (nsOf (snd x)) TEI_NS
                                     && String.eqb (nameOf (snd x)) nm)
                           (docElements d))).

(** [getHeadingLevel]: 2 plus the number of [div] ancestors, at most 6. *)
Definition getHeadingLevel (c : ctx) : nat :=
  Nat.min (2 + List.length (filter (fun f => String.eqb (f_name f) "div") c)) 6.

(** [isInsideHeader]: some ancestor is a [teiHeader]. *)
Definition isInsideHeader (c : ctx) : bool :=
  existsb (fun f => String.eqb (f_name f) "teiHeader") c.

(** [findSibling(node, name)]: the first element child of the parent
    with that name that is not the node itself. *)
Definition findSibling (c : ctx) (nm : string) : option node :=
  match c with
  | [] => None
  | f :: _ =>
      (fix go (i : nat) (ks : list node) : option node :=
         match ks with
         | [] => None
         | k :: r =>
             if isElem k && String.eqb (nameOf k) nm && negb (Nat.eqb i (f_idx f))
             then Some k else go (S i) r
         end) 0 (f_kids f)
  end.

(** ** Tooltip texts *)

(** [buildAttributeTooltip]: one [label: value] entry per attribute with
    a value, the label looked up in the object literal [labelMap]. *)
Definition buildAttributeTooltip (attrs labelMap : list (string * string))
  : string :=
  let parts :=
    flat_map (fun a : string * string =>
                let '(nm, v) := a in
                if truthy v then
                  let label := match objectLookup labelMap nm with
                               | Some l => l
                               | None => nm
                               end in
                  [label ++ ": " ++ v]
                else []) attrs in
  join " | " parts.

Definition buildDateTooltip (attrs : list (string * string)) : string :=
  let when := attrOr attrs "when" "" in
  let from := attrOr attrs "from" "" in
  let to := attrOr attrs "to" "" in
  let notBefore := attrOr attrs "notBefore" "" in
  let notAfter := attrOr attrs "notAfter" "" in
  let calendar := attrOr attrs "calendar" "" in
  let type := attrOr attrs "type" "" in
  let period := attrOr attrs "period" "" in
  let durIso := orElse (attrOr attrs "dur-iso" "") (attrOr attrs "dur" "") in
  let datePart :=
    if truthy when then [formatDate when]
    else if truthy from && truthy to
         then [formatDate from ++ " - " ++ formatDate to]
    else if truthy from then ["ab " ++ formatDate from]
    else if truthy to then ["bis " ++ formatDate to]
    else if truthy notBefore && truthy notAfter
         then ["zwischen " ++ formatDate notBefore ++ " und " ++ formatDate notAfter]
    else if truthy notBefore then ["nicht vor " ++ formatDate notBefore]
    else if truthy notAfter then ["nicht nach " ++ formatDate notAfter]
    else [] in
  let calendarPart := if truthy calendar then ["Kalender: " ++ calendar] else [] in
  let typePart := if truthy type then ["Typ: " ++ type] else [] in
  let periodPart := if truthy period then ["Periode: " ++ period] else [] in
  let durPart :=
    if truthy durIso then ["Dauer: " ++ formatIsoDuration durIso] else [] in
  let parts :=
    (datePart ++ calendarPart ++ typePart ++ periodPart ++ durPart)%list in
  join " | " parts.

(** ** The transform context *)

Record entity := mkEntity { name : string; ref : string; role : string }.

Record footnote := mkFootnote { number : nat; content : string }.

(** The module-level variables of the parser closure. *)
Record state := mkState {
  footnoteCounter : nat;
  footnotes : list footnote;
  persons : list entity;
  places : list entity;
  organizations : list entity;
  terms : list entity;
  normalizedMode : bool
}.

(** A computation that reads and updates the module-level variables. *)
Definition M (A : Type) : Type := state -> A * state.

Definition ret {A : Type} (a : A) : M A := fun st => (a, st).

Definition bind {A B : Type} (m : M A) (k : A -> M B) : M B :=
  fun st => let '(a, st') := m st in k a st'.

Notation "x <- m ;; k" := (bind m (fun x => k))
  (at level 61, m at next level, right associativity).
Notation "m ;;; k" := (bind m (fun _ => k))
  (at level 61, right associativity).

Definition gets {A : Type} (f : state -> A) : M A := fun st => (f st, st).

(** [addFootnote]. *)
Definition addFootnote (content : string) : M unit :=
  fun st =>
    let counter := S (footnoteCounter st) in
    (tt, mkState counter
            (footnotes st ++ [mkFootnote counter content])
            (persons st) (places st) (organizations st) (terms st)
            (normalizedMode st)).

(** The four kinds of semantic element, the [type] strings of the code. *)
Inductive kind := person | place | organization | term.

Definition kindName (k : kind) : string :=
  match k with
  | person => "person"
  | place => "place"
  | organization => "organization"
  | term => "term"
  end.

(** [typeLabels[type] || type]. *)
Definition typeLabel (k : kind) : string :=
  match k with
  | person => "Person"
  | place => "Ort"
  | organization => "Organisation"
  | term => "Begriff"
  end.

(** The accumulator of a kind. *)
Definition register (k : kind) (st : state) : list entity :=
  match k with
  | person => persons st
  | place => places st
  | organization => organizations st
  | term => terms st
  end.

(** Assignments to the module-level variables. *)
Definition setNormalizedMode (b : bool) : M unit :=
  fun st =>
    (tt, mkState (footnoteCounter st) (footnotes st) (persons st) (places st)
                 (organizations st) (terms st) b).

Definition setFootnoteCounter (n : nat) : M unit :=
  fun st =>
    (tt, mkState n (footnotes st) (persons st) (places st)
                 (organizations st) (terms st) (normalizedMode st)).

Definition setFootnotes (l : list footnote) : M unit :=
  fun st =>
    (tt, mkState (footnoteCounter st) l (persons st) (places st)
                 (organizations st) (terms st) (normalizedMode st)).

Definition setRegister (k : kind) (l : list entity) : M unit :=
  fun st =>
    (tt,
     match k with
     | person =>
         mkState (footnoteCounter st) (footnotes st) l
                 (places st) (organizations st) (terms st) (normalizedMode st)
     | place =>
         mkState (footnoteCounter st) (footnotes st) (persons st)
                 l (organizations st) (terms st) (normalizedMode st)
     | organization =>
         mkState (footnoteCounter st) (footnotes st) (persons st)
                 (places st) l (terms st) (normalizedMode st)
     | term =>
         mkState (footnoteCounter st) (footnotes st) (persons st)
                 (places st) (organizations st) l (normalizedMode st)
     end).

(** [persons.push(entity)] and its three siblings. *)
Definition pushEntity (k : kind) (e : entity) : M unit :=
  fun st => setRegister k (register k st ++ [e]) st.

(** The register entry of a semantic element. *)
Definition entityOf (n : node) : entity :=
  mkEntity (trim (textContent n))
           (attrOr (attrsOf n) "ref" "")
           (attrOr (attrsOf n) "role" "").

(** ** Element handlers *)

(** [transformSemanticElement]. *)
Definition transformSemanticElement (n : node) (type : kind) (children : string)
  : M string :=
  let ref := attrOr (attrsOf n) "ref" "" in
  let role := attrOr (attrsOf n) "role" "" in
  let name := trim (textContent n) in
  let entity := mkEntity name ref role in
  pushEntity type entity ;;;
  let tooltipParts :=
    ([typeLabel type]
       ++ (if truthy ref then [("Ref: " ++ ref)%string] else [])
       ++ (if truthy role then [("Rolle: " ++ role)%string] else []))%list in
  let tooltip := join " | " tooltipParts in
  ret (tpl "<span class='semantic " ++ kindName type
       ++ tpl "' data-tooltip='" ++ escapeAttr tooltip
       ++ tpl "' data-tooltip-type='" ++ kindName type
       ++ tpl "' data-ref='" ++ escapeAttr ref ++ tpl "'>"
       ++ children ++ "</span>").

Definition isMarginPlace (notePlace : string) : bool :=
  String.eqb notePlace "margin" || String.eqb notePlace "left"
  || String.eqb notePlace "right".

(** [transformNote]. *)
Definition transformNote (n : node) (children : string) : M string :=
  let notePlace := attrOr (attrsOf n) "place" "" in
  if isMarginPlace notePlace then
    ret (tpl "<span class='tei-note-margin text-critical' data-tooltip='"
         ++ escapeAttr children ++ tpl "' data-tooltip-type='note'>[*]</span>")
  else
    addFootnote children ;;;
    counter <- gets footnoteCounter ;;
    ret (tpl "<span class='footnote-ref' data-footnote='"
         ++ nat_to_string counter ++ tpl "'>" ++ nat_to_string counter ++ "</span>").

(** The element names the [switch] of [transformNode] has a case for. *)
Inductive tag :=
| T_body | T_div | T_p | T_ab | T_head | T_lb | T_pb | T_cb
| T_persName | T_placeName | T_origPlace | T_orgName | T_term
| T_choice | T_sic | T_corr | T_abbr | T_expan | T_orig | T_reg
| T_add | T_del | T_subst | T_supplied | T_unclear | T_gap | T_damage
| T_space | T_app | T_lem | T_rdg | T_q | T_quote | T_hi | T_foreign
| T_note | T_ref | T_bibl | T_figure | T_figDesc | T_date | T_origDate
| T_time | T_measure | T_num | T_signed | T_table | T_row | T_cell
| T_list | T_item | T_label | T_seg | T_handShift | T_default.

Definition tagTable : list (string * tag) :=
  [ ("body", T_body); ("div", T_div); ("p", T_p); ("ab", T_ab);
    ("head", T_head); ("lb", T_lb); ("pb", T_pb); ("cb", T_cb);
    ("persName", T_persName); ("placeName", T_placeName);
    ("origPlace", T_origPlace); ("orgName", T_orgName); ("term", T_term);
    ("choice", T_choice); ("sic", T_sic); ("corr", T_corr);
    ("abbr", T_abbr); ("expan", T_expan); ("orig", T_orig); ("reg", T_reg);
    ("add", T_add); ("del", T_del); ("subst", T_subst);
    ("supplied", T_supplied); ("unclear", T_unclear); ("gap", T_gap);
    ("damage", T_damage); ("space", T_space); ("app", T_app);
    ("lem", T_lem); ("rdg", T_rdg); ("q", T_q); ("quote", T_quote);
    ("hi", T_hi); ("foreign", T_foreign); ("note", T_note); ("ref", T_ref);
    ("bibl", T_bibl); ("figure", T_figure); ("figDesc", T_figDesc);
    ("date", T_date); ("origDate", T_origDate); ("time", T_time);
    ("measure", T_measure); ("num", T_num); ("signed", T_signed);
    ("table", T_table); ("row", T_row); ("cell", T_cell); ("list", T_list);
    ("item", T_item); ("label", T_label); ("seg", T_seg);
    ("handShift", T_handShift) ].

(** The case of the [switch] a local name selects. *)
Fixpoint tagLookup (nm : string) (l : list (string * tag)) : tag :=
  match l with
  | [] => T_default
  | (k, t) :: r => if String.eqb nm k then t else tagLookup nm r
  end.

Definition tagOf (localName : string) : tag := tagLookup localName tagTable.

(** The result of a repeated traversal the handler asked for. *)
Definition force (o : option (M string)) : M string :=
  match o with Some m => m | None => ret EmptyString end.

Definition isSome {A : Type} (o : option A) : bool :=
  match o with Some _ => true | None => false end.

Definition textOf (o : option located) : string :=
  match o with Some (_, n) => textContent n | None => EmptyString end.

(** [transformChoice], over [childrenOf], which stands for
    [transformChildren] applied to the element [querySelector] finds
    under the node for a name. *)
Definition transformChoiceWith (childrenOf : string -> option (M string))
    (c : ctx) (n : node) (fallback : M string) : M string :=
  let sic := findByName (ByTag "sic") "sic" c n in
  let corr := findByName (ByTag "corr") "corr" c n in
  let abbr := findByName (ByTag "abbr") "abbr" c n in
  let expan := findByName (ByTag "expan") "expan" c n in
  let orig := findByName (ByTag "orig") "orig" c n in
  let reg := findByName (ByTag "reg") "reg" c n in
  if isSome sic && isSome corr then
    sicText <- force (childrenOf "sic") ;;
    let corrText := trim (textOf corr) in
    ret (tpl "<span class='text-critical' data-tooltip='Korrektur: "
         ++ escapeAttr corrText ++ tpl "' data-tooltip-type='textcritical'>"
         ++ sicText ++ "</span>")
  else if isSome abbr && isSome expan then
    abbrText <- force (childrenOf "abbr") ;;
    let expanText := trim (textOf expan) in
    ret (tpl "<span class='tei-abbr text-critical' data-tooltip='"
         ++ escapeAttr expanText ++ tpl "' data-tooltip-type='abbr'>"
         ++ abbrText ++ "</span>")
  else if isSome orig && isSome reg then
    origText <- force (childrenOf "orig") ;;
    let regText := trim (textOf reg) in
    ret (tpl "<span class='text-critical' data-tooltip='Normalisiert: "
         ++ escapeAttr regText ++ tpl "' data-tooltip-type='textcritical'>"
         ++ origText ++ "</span>")
  else fallback.

(** [transformApp], over [childrenOf] as above. *)
Definition transformAppWith (childrenOf : string -> option (M string))
    (c : ctx) (n : node) (children : string) : M string :=
  let lem := findByName (ByTag "lem") "lem" c n in
  let rdgs := querySelectorAll (ByTag "rdg") c n in
  let rdgTexts :=
    map (fun rdg : located =>
           let wit := attrOr (attrsOf (snd rdg)) "wit" "" in
           let text := trim (textContent (snd rdg)) in
           if truthy wit then wit ++ ": " ++ text else text) rdgs in
  let tooltip :=
    match rdgTexts with
    | [] => EmptyString
    | _ => "Varianten: " ++ join "; " rdgTexts
    end in
  lemText <- (if isSome lem then force (childrenOf "lem") else ret children) ;;
  if truthy tooltip then
    ret (tpl "<span class='text-critical' data-tooltip='" ++ escapeAttr tooltip
         ++ tpl "' data-tooltip-type='apparatus'>" ++ lemText ++ "</span>")
  else
    ret (tpl "<span class='tei-app'>" ++ lemText ++ "</span>").

(** The loops over the child nodes of an element.  [frameAt i] is the
    step of the ancestor chain for the child at index [i]. *)
Section ChildLoops.

Variable frameAt : nat -> frame.
Variable c : ctx.

(** The loop of [transformChildren], [visit] being [transformNode]. *)
Section Each.
Variable visit : ctx -> node -> M string.

Fixpoint childLoop (result : string) (i : nat) (ks : list node)
  {struct ks} : M string :=
  match ks with
  | [] => ret result
  | child :: r =>
      h <- visit (frameAt i :: c) child ;;
      childLoop (result ++ h) (S i) r
  end.
End Each.

(** The first result among the child nodes, in order. *)
Section First.
Variable search : ctx -> node -> option (M string).

Fixpoint firstLoop (i : nat) (ks : list node) {struct ks}
  : option (M string) :=
  match ks with
  | [] => None
  | child :: r =>
      match search (frameAt i :: c) child with
      | Some m => Some m
      | None => firstLoop (S i) r
      end
  end.
End First.

End ChildLoops.

Definition eachChild (visit : ctx -> node -> M string) (c : ctx)
    (ns nm : string) (a : list (string * string)) (kids : list node)
  : M string :=
  childLoop (mkFrame ns nm a kids) c visit EmptyString 0 kids.

Definition firstChild (search : ctx -> node -> option (M string)) (c : ctx)
    (ns nm : string) (a : list (string * string)) (kids : list node)
  : option (M string) :=
  firstLoop (mkFrame ns nm a kids) c search 0 kids.

(** The [switch] of [transformNode] on an element [n] whose children
    have been transformed to [children].  [again] runs the loop over the
    child nodes of [n] once more, and [childrenOf] that of the first
    descendant of a name. *)
Definition dispatch (again : M string)
    (childrenOf : string -> option (M string))
    (c : ctx) (n : node) (children : string) : M string :=
  let a := attrsOf n in
  match tagOf (nameOf n) with
  | T_body => ret (tpl "<div class='body'>" ++ children ++ "</div>")
  | T_div => ret (tpl "<div class='tei-div'>" ++ children ++ "</div>")
  | T_p => ret (tpl "<p class='tei-p'>" ++ children ++ "</p>")
  | T_ab =>
      let place := attrOr a "place" "" in
      let abType := toLowerCase (attrOr a "type" "") in
      let abClass := if truthy place then "tei-ab tei-ab1" else "tei-ab" in
      let abPrefix :=
        if String.eqb abType "dorsal" then
          let dorsalN := attrOr a "n" "" in
          let dorsalLabel := if truthy dorsalN then "S. " ++ dorsalN else "verso" in
          tpl "<span class='pb-marker tei-ab-dorsal-marker' data-tooltip='Verso-Angabe' data-tooltip-type='page'>["
          ++ escapeHTML dorsalLabel ++ "]</span> "
        else EmptyString in
      ret (tpl "<div class='" ++ abClass ++ tpl "'>" ++ abPrefix ++ children
           ++ "</div>")
  | T_head =>
      let headType := attrOr a "type" "" in
      if String.eqb headType "subtitle" then
        ret (tpl "<h2 class='tei-head-subtitle'>" ++ children ++ "</h2>")
      else
        let level := nat_to_string (getHeadingLevel c) in
        ret ("<h" ++ level ++ tpl " class='tei-head" ++ level ++ tpl "'>"
             ++ children ++ "</h" ++ level ++ ">")
  | T_lb =>
      normalized <- gets normalizedMode ;;
      if normalized then ret EmptyString
      else
        match getAttribute a "break" with
        | Some breakAttr =>
            if String.eqb breakAttr "no" then ret "-<br>" else ret "<br>"
        | None => ret "<br>"
        end
  | T_pb =>
      let n_ := attrOr a "n" "" in
      let facs := attrOr a "facs" "" in
      let pageLabel := if truthy n_ then "S. " ++ n_ else EmptyString in
      let tooltip :=
        if truthy facs
        then tpl "data-tooltip='Faksimile: " ++ facs
             ++ tpl "' data-tooltip-type='page'"
        else EmptyString in
      ret (tpl "<span class='pb-marker' " ++ tooltip ++ ">[" ++ pageLabel
           ++ "]</span>")
  | T_cb => ret (tpl "<span class='column-break'> | </span>")
  | T_persName => transformSemanticElement n person children
  | T_placeName | T_origPlace => transformSemanticElement n place children
  | T_orgName => transformSemanticElement n organization children
  | T_term =>
      if isInsideHeader c then ret children
      else transformSemanticElement n term children
  | T_choice => transformChoiceWith childrenOf c n again
  | T_sic =>
      ret (tpl "<span class='tei-sic text-critical' data-tooltip='So im Original' data-tooltip-type='textcritical'>"
           ++ children ++ "</span>")
  | T_corr => ret (tpl "<span class='tei-corr'>" ++ children ++ "</span>")
  | T_abbr =>
      let expansion := findSibling c "expan" in
      let expanText :=
        match expansion with
        | Some e => textContent e
        | None => EmptyString
        end in
      let abbrTooltip :=
        if truthy expanText
        then tpl "data-tooltip='" ++ escapeAttr expanText
             ++ tpl "' data-tooltip-type='abbr'"
        else EmptyString in
      ret (tpl "<span class='tei-abbr text-critical' " ++ abbrTooltip ++ ">"
           ++ children ++ "</span>")
  | T_expan => ret EmptyString
  | T_orig => ret (tpl "<span class='tei-orig'>" ++ children ++ "</span>")
  | T_reg => ret EmptyString
  | T_add =>
      let addPlace := attrOr a "place" "unbekannt" in
      let addHand := attrOr a "hand" "" in
      let addInfo :=
        "Hinzufügung (" ++ addPlace ++ ")"
        ++ (if truthy addHand then " von " ++ addHand else EmptyString) in
      ret (tpl "<span class='tei-add text-critical' data-tooltip='"
           ++ escapeAttr addInfo ++ tpl "' data-tooltip-type='textcritical'>"
           ++ children ++ "</span>")
  | T_del =>
      let delRend := attrOr a "rend" "durchgestrichen" in
      ret (tpl "<span class='tei-del text-critical' data-tooltip='Gestrichen: "
           ++ delRend ++ tpl "' data-tooltip-type='textcritical'>"
           ++ children ++ "</span>")
  | T_subst =>
      ret (tpl "<span class='tei-subst text-critical' data-tooltip='Ersetzung' data-tooltip-type='textcritical'>"
           ++ children ++ "</span>")
  | T_supplied =>
      let suppliedSource := orElse (attrOr a "source" "") (attrOr a "resp" "") in
      let suppliedReason := attrOr a "reason" "" in
      let suppliedInfo :=
        "Ergänzung"
        ++ (if truthy suppliedReason then ": " ++ suppliedReason else EmptyString)
        ++ (if truthy suppliedSource then " (" ++ suppliedSource ++ ")"
            else EmptyString) in
      ret (tpl "<span class='tei-supplied text-critical' data-tooltip='"
           ++ escapeAttr suppliedInfo
           ++ tpl "' data-tooltip-type='textcritical'>" ++ children ++ "</span>")
  | T_unclear =>
      let unclearReason := attrOr a "reason" "unsichere Lesung" in
      ret (tpl "<span class='tei-unclear text-critical' data-tooltip='"
           ++ escapeAttr unclearReason
           ++ tpl "' data-tooltip-type='textcritical'>" ++ children ++ "</span>")
  | T_gap =>
      let gapReason := attrOr a "reason" "" in
      let gapUnit := attrOr a "unit" "" in
      let gapQuantity := attrOr a "quantity" "" in
      let gapInfo :=
        "Lücke"
        ++ (if truthy gapReason then ": " ++ gapReason else EmptyString)
        ++ (if truthy gapQuantity && truthy gapUnit
            then " (" ++ gapQuantity ++ " " ++ gapUnit ++ ")" else EmptyString) in
      ret (tpl "<span class='tei-gap text-critical' data-tooltip='"
           ++ escapeAttr gapInfo
           ++ tpl "' data-tooltip-type='textcritical'></span>")
  | T_damage =>
      let damageAgent := attrOr a "agent" "Beschädigung" in
      ret (tpl "<span class='tei-damage text-critical' data-tooltip='"
           ++ escapeAttr damageAgent
           ++ tpl "' data-tooltip-type='textcritical'>" ++ children ++ "</span>")
  | T_space =>
      let spaceUnit := attrOr a "unit" "" in
      let spaceQuantity := attrOr a "quantity" "" in
      let spaceInfo :=
        if truthy spaceQuantity && truthy spaceUnit
        then "Leerraum: " ++ spaceQuantity ++ " " ++ spaceUnit
        else "Leerraum" in
      ret (tpl "<span class='tei-space text-critical' data-tooltip='"
           ++ escapeAttr spaceInfo
           ++ tpl "' data-tooltip-type='textcritical'></span>")
  | T_app => transformAppWith childrenOf c n children
  | T_lem => ret (tpl "<span class='tei-lem'>" ++ children ++ "</span>")
  | T_rdg => ret EmptyString
  | T_q | T_quote => ret (tpl "<span class='tei-q'>" ++ children ++ "</span>")
  | T_hi =>
      let rend := attrOr a "rend" "" in
      let hiClass := getRenditionClass rend in
      let hiTooltip :=
        buildAttributeTooltip a
          [("rend", "Darstellung"); ("hand", "Hand"); ("type", "Typ")] in
      let hiClasses :=
        if truthy hiTooltip then hiClass ++ " tei-hi-annotated" else hiClass in
      let hiTooltipAttr :=
        if truthy hiTooltip
        then tpl " data-tooltip='" ++ escapeAttr hiTooltip
             ++ tpl "' data-tooltip-type='textcritical'"
        else EmptyString in
      ret (tpl "<span class='" ++ hiClasses ++ tpl "'" ++ hiTooltipAttr ++ ">"
           ++ children ++ "</span>")
  | T_foreign =>
      let lang := orElse (attrOr a "xml:lang" "") (attrOr a "lang" "") in
      ret (tpl "<span class='tei-foreign' data-lang='" ++ lang ++ tpl "'>"
           ++ children ++ "</span>")
  | T_note => transformNote n children
  | T_ref =>
      let target := attrOr a "target" "" in
      if startsWith "http" target then
        ret (tpl "<a href='" ++ escapeAttr target
             ++ tpl "' target='_blank' rel='noopener' class='ref-link'>"
             ++ children ++ "</a>")
      else ret (tpl "<span class='tei-ref'>" ++ children ++ "</span>")
  | T_bibl =>
      let biblType := attrOr a "type" "" in
      if String.eqb biblType "url" then
        let url := trim (textContent n) in
        ret (tpl "<a href='" ++ escapeAttr url
             ++ tpl "' target='_blank' rel='noopener' class='bibl-link'>"
             ++ children ++ "</a>")
      else ret (tpl "<span class='tei-bibl'>" ++ children ++ "</span>")
  | T_figure =>
      let figType := attrOr a "type" "Abbildung" in
      ret (tpl "<span class='tei-figure' data-tooltip='Abbildung: "
           ++ escapeAttr figType ++ tpl "' data-tooltip-type='figure'>["
           ++ figType ++ "]</span>")
  | T_figDesc => ret (tpl "<span class='tei-figDesc'>" ++ children ++ "</span>")
  | T_date =>
      let dateInfo := buildDateTooltip a in
      if truthy dateInfo then
        ret (tpl "<span class='tei-date text-critical' data-tooltip='"
             ++ escapeAttr dateInfo ++ tpl "' data-tooltip-type='date'>"
             ++ children ++ "</span>")
      else ret (tpl "<span class='tei-date'>" ++ children ++ "</span>")
  | T_origDate =>
      ret (tpl "<span class='tei-origDate'>" ++ children ++ "</span>")
  | T_time =>
      let timeWhen := attrOr a "when" "" in
      if truthy timeWhen then
        ret (tpl "<span class='tei-time text-critical' data-tooltip='"
             ++ escapeAttr timeWhen ++ tpl "' data-tooltip-type='time'>"
             ++ children ++ "</span>")
      else ret (tpl "<span class='tei-time'>" ++ children ++ "</span>")
  | T_measure =>
      let measType := attrOr a "type" "" in
      let measUnit := attrOr a "unit" "" in
      let measQuantity := attrOr a "quantity" "" in
      let measCommodity := attrOr a "commodity" "" in
      let measInfo :=
        ((if truthy measQuantity then [measQuantity] else [])
           ++ (if truthy measUnit then [measUnit] else [])
           ++ (if truthy measCommodity then [measCommodity] else [])
           ++ (if truthy measType then [("(" ++ measType ++ ")")%string] else []))%list in
      let measTooltip := join " " measInfo in
      if truthy measTooltip then
        ret (tpl "<span class='tei-measure text-critical' data-tooltip='"
             ++ escapeAttr measTooltip ++ tpl "' data-tooltip-type='measure'>"
             ++ children ++ "</span>")
      else ret (tpl "<span class='tei-measure'>" ++ children ++ "</span>")
  | T_num =>
      let numValue := attrOr a "value" "" in
      if truthy numValue then
        ret (tpl "<span class='tei-num text-critical' data-tooltip='Wert: "
             ++ escapeAttr numValue ++ tpl "' data-tooltip-type='num'>"
             ++ children ++ "</span>")
      else ret (tpl "<span class='tei-num'>" ++ children ++ "</span>")
  | T_signed =>
      ret (tpl "<div class='tei-signed'>[Unterzeichnet:] " ++ children ++ "</div>")
  | T_table => ret (tpl "<table class='tei-table'>" ++ children ++ "</table>")
  | T_row =>
      let rowRole := attrOr a "role" "" in
      let rowClass :=
        if String.eqb rowRole "label" then "tei-row tei-row1" else "tei-row" in
      ret (tpl "<tr class='" ++ rowClass ++ tpl "'>" ++ children ++ "</tr>")
  | T_cell =>
      let cellRole :=
        match c with
        | f :: _ => attrOr (f_attrs f) "role" ""
        | [] => EmptyString
        end in
      let cellTag := if String.eqb cellRole "label" then "th" else "td" in
      ret ("<" ++ cellTag ++ tpl " class='tei-cell'>" ++ children
           ++ "</" ++ cellTag ++ ">")
  | T_list =>
      let listType := attrOr a "type" "" in
      let listTag := if String.eqb listType "ordered" then "ol" else "ul" in
      ret ("<" ++ listTag ++ tpl " class='tei-list'>" ++ children
           ++ "</" ++ listTag ++ ">")
  | T_item => ret (tpl "<li class='tei-item'>" ++ children ++ "</li>")
  | T_label =>
      let labelType := attrOr a "type" "" in
      let labelClass :=
        if String.eqb labelType "keyword" then "tei-label tei-label1"
        else "tei-label" in
      ret (tpl "<span class='" ++ labelClass ++ tpl "'>" ++ children ++ "</span>")
  | T_seg =>
      normalized <- gets normalizedMode ;;
      if normalized then
        let segN := attrOr a "n" "" in
        let segLabel :=
          if truthy segN
          then tpl "<span class='tei-seg-label'>[" ++ escapeHTML segN
               ++ "]</span> "
          else EmptyString in
        ret (tpl "<span class='tei-seg tei-seg-normalized'>" ++ segLabel
             ++ children ++ "</span>")
      else ret (tpl "<span class='tei-seg'>" ++ children ++ "</span>")
  | T_handShift =>
      let newHand := attrOr a "new" "" in
      addFootnote ("Handwechsel"
                   ++ (if truthy newHand then ": " ++ newHand else EmptyString)) ;;;
      counter <- gets footnoteCounter ;;
      ret (tpl "<span class='footnote-ref'>" ++ nat_to_string counter ++ "</span>")
  | T_default => ret children
  end.

(** [transformNode], together with the search that [transformChoice] and
    [transformApp] make for the first element of a name before they run
    [transformChildren] on it: [childrenOfFirst target c n] is that
    traversal when [n] or one of its descendants is named [target]. *)
Fixpoint transformNode (c : ctx) (n : node) {struct n} : M string :=
  match n with
  | Text d => ret (escapeHTML d)
  | CData _ => ret EmptyString
  | Misc => ret EmptyString
  | Elem ns nm a kids =>
      children <- eachChild transformNode c ns nm a kids ;;
      dispatch (eachChild transformNode c ns nm a kids)
               (fun target =>
                  firstChild (childrenOfFirst target) c ns nm a kids)
               c (Elem ns nm a kids) children
  end
with childrenOfFirst (target : string) (c : ctx) (n : node) {struct n}
  : option (M string) :=
  match n with
  | Elem ns nm a kids =>
      if String.eqb nm target
      then Some (eachChild transformNode c ns nm a kids)
      else firstChild (childrenOfFirst target) c ns nm a kids
  | _ => None
  end.

(** [transformChildren]. *)
Definition transformChildren (c : ctx) (n : node) : M string :=
  match n with
  | Elem ns nm a kids => eachChild transformNode c ns nm a kids
  | _ => ret EmptyString
  end.

(** [transformChildren] on a node that may be missing. *)
Definition transformChildrenOf (o : option located) : M string :=
  match o with
  | Some (c, n) => transformChildren c n
  | None => ret EmptyString
  end.

(** [transformChoice] and [transformApp] as the source has them: the
    repeated traversal is [transformChildren] on the element found. *)
Definition childrenOfFound (c : ctx) (n : node) (target : string)
  : option (M string) :=
  match findByName (ByTag target) target c n with
  | Some x => Some (transformChildren (fst x) (snd x))
  | None => None
  end.

Definition transformChoice (c : ctx) (n : node) : M string :=
  transformChoiceWith (childrenOfFound c n) c n (transformChildren c n).

Definition transformApp (c : ctx) (n : node) (children : string) : M string :=
  transformAppWith (childrenOfFound c n) c n children.

(** [items.push(transformChildren(p))] for every [p] of a list. *)
Fixpoint transformEach (ps : list located) : M (list string) :=
  match ps with
  | [] => ret []
  | p :: r =>
      item <- transformChildren (fst p) (snd p) ;;
      items <- transformEach r ;;
      ret (item :: items)
  end.

(** [transformBackMatter]. *)
Definition transformBackMatter (c : ctx) (backNode : node) : M string :=
  let divs := querySelectorAll (ByTag "div") c backNode in
  let ps :=
    flat_map (fun d : located => querySelectorAll (ByTag "p") (fst d) (snd d))
             divs in
  items <- transformEach ps ;;
  let html := "<h3>Kommentar</h3>" in
  match items with
  | [] =>
      rest <- transformChildren c backNode ;;
      ret (html ++ rest)
  | _ =>
      ret (fold_left (fun acc item => acc ++ "<p>" ++ item ++ "</p>") items html)
  end.

(** ** Header extraction *)

Module Metadata.

Record keyword := mkKeyword { text : string; ref : string }.

Record editor := mkEditor { name : string; role : string }.

Record t := mk {
  title : string;
  idno : string;
  idnoSource : option string;
  date : string;
  dateText : string;
  keywords : list keyword;
  textLang : string;
  filiation : string;
  filiationOriginal : string;
  edition : string;
  material : string;
  dimensions : string;
  condition : string;
  seals : list string;
  editors : list editor
}.

End Metadata.

Module Heading.

Record t := mk { title : string; date : string; idno : string }.

End Heading.

Definition trimmedText (o : option located) : string := trim (textOf o).

Definition attrsOfFound (o : option located) : list (string * string) :=
  match o with Some (_, n) => attrsOf n | None => [] end.

(** A query on a node that may be missing. *)
Definition within {A : Type} (o : option located) (dflt : A)
    (f : ctx -> node -> A) : A :=
  match o with Some (c, n) => f c n | None => dflt end.

(** [extractMetadata]; [None] is [null]. *)
Definition extractMetadata (xmlDoc : node) : option Metadata.t :=
  match docFindByName "teiHeader" xmlDoc with
  | None => None
  | Some (hc, header) =>
      let head := findByName (Within "msDesc" "head") "head" hc header in
      let title := if isSome head then trimmedText head else EmptyString in
      let idno := findByName (Within "msIdentifier" "idno") "idno" hc header in
      let idnoText := if isSome idno then trimmedText idno else EmptyString in
      let idnoSource :=
        if isSome idno then Some (attrOr (attrsOfFound idno) "source" "")
        else None in
      let origDate := findByName (ByTag "origDate") "origDate" hc header in
      let date :=
        if isSome origDate
        then orElse (attrOr (attrsOfFound origDate) "when" "")
                    (attrOr (attrsOfFound origDate) "from" "")
        else EmptyString in
      let dateText :=
        if isSome origDate
        then orElse (trimmedText origDate) (formatDate date)
        else EmptyString in
      let keywords :=
        map (fun term : located =>
               Metadata.mkKeyword (trim (textContent (snd term)))
                                  (attrOr (attrsOf (snd term)) "ref" ""))
            (querySelectorAll (Within "keywords" "term") hc header) in
      let textLang := findByName (ByTag "textLang") "textLang" hc header in
      let filiation :=
        findByName (ByTagAttr "filiation" "type" "current") "filiation"
                   hc header in
      let filiationOriginal :=
        match querySelector (ByTagAttr "filiation" "type" "original") hc header with
        | None => EmptyString
        | Some (fc, fo) =>
            let origDateInFiliation :=
              findByName (ByTag "origDate") "origDate" fc fo in
            match origDateInFiliation with
            | Some (_, od) =>
                let dateFrom := attrOr (attrsOf od) "from" "" in
                let dateTo := attrOr (attrsOf od) "to" "" in
                let dateWhen := attrOr (attrsOf od) "when" "" in
                let dateText := trim (textContent od) in
                if truthy dateText then dateText
                else if truthy dateWhen then formatDate dateWhen
                else if truthy dateFrom && truthy dateTo
                     then formatDate dateFrom ++ " - " ++ formatDate dateTo
                else if truthy dateFrom then "ab " ++ formatDate dateFrom
                else EmptyString
            | None => trim (textContent fo)
            end
        end in
      let edition :=
        within (querySelector (Within "additional" "listBibl") hc header)
          EmptyString
          (fun lc listBibl =>
             within (querySelector (ByTag "bibl") lc listBibl) EmptyString
               (fun _ bibl => trim (textContent bibl))) in
      let material := findByName (ByTag "material") "material" hc header in
      let dimensions :=
        within (findByName (ByTag "dimensions") "dimensions" hc header)
          EmptyString
          (fun dc dims =>
             let width := findByName (ByTag "width") "width" dc dims in
             let height := findByName (ByTag "height") "height" dc dims in
             if isSome width && isSome height then
               let widthValue :=
                 orElse (attrOr (attrsOfFound width) "quantity" "")
                        (trimmedText width) in
               let heightValue :=
                 orElse (attrOr (attrsOfFound height) "quantity" "")
                        (trimmedText height) in
               if truthy widthValue && truthy heightValue
               then widthValue ++ " × " ++ heightValue ++ " cm"
               else EmptyString
             else EmptyString) in
      let condition := findByName (ByTag "condition") "condition" hc header in
      let seals :=
        map (fun seal : located => trim (textContent (snd seal)))
            (querySelectorAll (ByTag "seal") hc header) in
      let editors :=
        flat_map
          (fun resp : located =>
             let persName := querySelector (ByTag "persName") (fst resp) (snd resp) in
             let role := querySelector (ByTag "resp") (fst resp) (snd resp) in
             if isSome persName then
               [Metadata.mkEditor
                  (trimmedText persName)
                  (if isSome role
                   then orElse (attrOr (attrsOfFound role) "key" "")
                               (trimmedText role)
                   else EmptyString)]
             else [])
          (querySelectorAll (ByTag "respStmt") hc header) in
      Some (Metadata.mk title idnoText idnoSource date dateText keywords
              (trimmedText textLang) (trimmedText filiation) filiationOriginal
              edition (trimmedText material) dimensions (trimmedText condition)
              seals editors)
  end.

(** [extractSummary]. *)
Definition extractSummary (xmlDoc : node) : M string :=
  match docFindByName "teiHeader" xmlDoc with
  | None => ret EmptyString
  | Some (hc, header) =>
      match findByName (ByTag "summary") "summary" hc header with
      | None => ret EmptyString
      | Some (sc, summary) =>
          html <- transformChildren sc summary ;;
          let summaryHtml := trim html in
          if truthy summaryHtml then ret summaryHtml
          else
            let summaryText := trim (textContent summary) in
            ret (if truthy summaryText then escapeHTML summaryText
                 else EmptyString)
      end
  end.

(** [extractHeading]; [None] is [null]. *)
Definition extractHeading (xmlDoc : node) : option Heading.t :=
  match docFindByName "teiHeader" xmlDoc with
  | None => None
  | Some (hc, header) =>
      let head := findByName (Within "msDesc" "head") "head" hc header in
      let origDate := findByName (ByTag "origDate") "origDate" hc header in
      let date :=
        if isSome origDate then
          let when := orElse (attrOr (attrsOfFound origDate) "when" "")
                             (attrOr (attrsOfFound origDate) "from" "") in
          orElse (trimmedText origDate) (formatDate when)
        else EmptyString in
      let seriesId :=
        orNode (querySelector (Within "seriesStmt" "idno") hc header)
               (nth_error (querySelectorAll (ByTag "idno") hc header) 1) in
      Some (Heading.mk (trimmedText head) date (trimmedText seriesId))
  end.

(** ** The entity register *)

(** A [Map] with string keys: the entries in insertion order. *)
Definition mapHas {V : Type} (seen : list (string * V)) (key : string) : bool :=
  existsb (fun p => String.eqb (fst p) key) seen.

Fixpoint mapSet {V : Type} (seen : list (string * V)) (key : string) (v : V)
  : list (string * V) :=
  match seen with
  | [] => [(key, v)]
  | (k, w) :: r =>
      if String.eqb k key then (k, v) :: r else (k, w) :: mapSet r key v
  end.

Definition mapValues {V : Type} (seen : list (string * V)) : list V :=
  map snd seen.

(** [entity.ref || entity.name]. *)
Definition entityKey (e : entity) : string := orElse (ref e) (name e).

(** The loop of [deduplicateEntities] over the entities. *)
Definition collect (entities : list entity) : list (string * entity) :=
  fold_left (fun seen e =>
               let key := entityKey e in
               if negb (mapHas seen key) then mapSet seen key e else seen)
            entities [].

(** [Array.prototype.sort] with a comparator.  The sort is stable: of
    two elements the comparator does not tell apart, the one that came
    first stays first.  With a comparator that orders its arguments
    consistently there is one such result, the one insertion from the
    right computes. *)
Section Sort.

Context {A : Type} (compareFn : A -> A -> Z).

Fixpoint insertSorted (x : A) (l : list A) : list A :=
  match l with
  | [] => [x]
  | y :: r =>
      if (compareFn x y <=? 0)%Z then x :: y :: r
      else y :: insertSorted x r
  end.

Definition sort (l : list A) : list A := fold_right insertSorted [] l.

End Sort.

Module Registers.

Record t := mk {
  persons : list entity;
  places : list entity;
  organizations : list entity;
  terms : list entity
}.

End Registers.

Module Result.

Record t := mk {
  metadata : option Metadata.t;
  summary : string;
  heading : option Heading.t;
  body : option string;
  back : option string;
  footnotes : list footnote;
  registers : Registers.t
}.

End Result.

(** The collation of the host, [a.localeCompare(b, 'de')], is not part of
    the program: a negative number, zero or a positive number. *)
Section Collation.

Variable localeCompare : string -> string -> Z.

Definition compareNames (a b : entity) : Z :=
  localeCompare (name a) (name b).

(** [deduplicateEntities]. *)
Definition deduplicateEntities (entities : list entity) : list entity :=
  sort compareNames (mapValues (collect entities)).

(** [transform]: the module-level variables are assigned first, then
    the header, the body and the back matter are read in that order. *)
Definition transform (xmlDoc : node) (normalized : bool) : M Result.t :=
  setNormalizedMode normalized ;;;
  setFootnoteCounter 0 ;;;
  setFootnotes [] ;;;
  setRegister person [] ;;;
  setRegister place [] ;;;
  setRegister organization [] ;;;
  setRegister term [] ;;;
  let metadata := extractMetadata xmlDoc in
  summary <- extractSummary xmlDoc ;;
  let heading := extractHeading xmlDoc in
  body <- match docFindByName "body" xmlDoc with
          | Some (c, n) => h <- transformNode c n ;; ret (Some h)
          | None => ret None
          end ;;
  back <- match docFindByName "back" xmlDoc with
          | Some (c, n) => h <- transformBackMatter c n ;; ret (Some h)
          | None => ret None
          end ;;
  notes <- gets footnotes ;;
  ps <- gets persons ;;
  pl <- gets places ;;
  os <- gets organizations ;;
  ts <- gets terms ;;
  ret (Result.mk metadata summary heading body back notes
         (Registers.mk (deduplicateEntities ps) (deduplicateEntities pl)
                       (deduplicateEntities os) (deduplicateEntities ts))).

End Collation.

(** A fresh engine instance: the initial values of the module-level
    variables. *)
Definition freshState : state := mkState 0 [] [] [] [] [] false.

(** ** The tooltip texts of [src/js/tooltips.js] *)

(** [s.split(sep)] for a separator of one character or more: the pieces
    between the occurrences of [sep], found from the left and not
    overlapping.  [skip] counts the characters of an occurrence still to
    be passed over. *)
Fixpoint splitOn (sep : string) (skip : nat) (s : string) : list string :=
  match s with
  | EmptyString => [EmptyString]
  | String x r =>
      match skip with
      | S k => splitOn sep k r
      | O =>
          if startsWith sep s
          then EmptyString :: splitOn sep (String.length sep - 1) r
          else match splitOn sep 0 r with
               | p :: ps => String x p :: ps
               | [] => [String x EmptyString]
               end
      end
  end.

Module Tooltips.

(** [escapeHTML] of the tooltip system: the same round trip through a
    [div] as in the parser. *)
Definition escapeHTML (text : string) : string := escapeHTML text.

Definition typeLabels : list (string * string) :=
  [ ("person", "Person");
    ("place", "Ort");
    ("organization", "Organisation");
    ("term", "Begriff");
    ("textcritical", "Textkritisch");
    ("abbr", "Abkürzung");
    ("date", "Datum");
    ("time", "Zeit");
    ("duration", "Dauer");
    ("highlight", "Hervorgehoben");
    ("measure", "Maßangabe");
    ("num", "Zahl");
    ("note", "Anmerkung");
    ("apparatus", "Lesarten");
    ("figure", "Abbildung");
    ("page", "Seite") ].

(** [formatTooltipContent]. *)
Definition formatTooltipContent (text type : string) : string :=
  let label :=
    match objectLookup typeLabels type with
    | Some l => l
    | None => EmptyString
    end in
  let parts := splitOn " | " 0 text in
  let html := EmptyString in
  let html :=
    if truthy label
    then html ++ tpl "<div class='tooltip-type'>" ++ escapeHTML label ++ "</div>"
    else html in
  if (1 <? List.length parts)%nat then
    let html :=
      html ++ tpl "<div class='tooltip-title'>"
      ++ escapeHTML (nth 0 parts EmptyString) ++ "</div>" in
    let html := html ++ tpl "<div class='tooltip-content'>" in
    let html :=
      fold_left (fun html part => html ++ "<div>" ++ escapeHTML part ++ "</div>")
                (tl parts) html in
    html ++ "</div>"
  else
    html ++ tpl "<div class='tooltip-content'>" ++ escapeHTML text ++ "</div>".

End Tooltips.

(** ** The page of [src/js/app.js] *)

Module App.

(** [escapeHTML] and [escapeAttr] of the application: the same round
    trip through a [div], and the same five replacements, as in the
    parser. *)
Definition escapeHTML (text : string) : string := escapeHTML text.

Definition escapeAttr (text : string) : string :=
  replaceAll ">" "&gt;"
    (replaceAll "<" "&lt;"
       (replaceAll apostrophe "&#39;"
          (replaceAll dquote "&quot;"
             (replaceAll "&" "&amp;" text)))).

Definition roleLabels : list (string * string) :=
  [ ("transcript", "Transkription");
    ("tagging", "Auszeichnung");
    ("edit", "Bearbeitung") ].

(** A value that may be [undefined] or [null], as a condition. *)
Definition given (o : option string) : bool :=
  match o with Some v => truthy v | None => false end.

(** [renderMetadata].  The template literals are copied with their line
    breaks and indentation. *)
Definition renderMetadata (meta : Metadata.t) : string :=
  let html := EmptyString in
  let html :=
    if truthy (Metadata.idno meta) then
      html ++ tpl "
                <div class='metadata-section'>
                    <h4>Signatur</h4>
                    <div class='metadata-content'>
                        "
      ++ (match Metadata.idnoSource meta with
          | Some idnoSource =>
              if truthy idnoSource
              then tpl "<a href='" ++ escapeAttr idnoSource
                   ++ tpl "' target='_blank' rel='noopener'>"
                   ++ escapeHTML (Metadata.idno meta) ++ "</a>"
              else escapeHTML (Metadata.idno meta)
          | None => escapeHTML (Metadata.idno meta)
          end)
      ++ "
                    </div>
                </div>
            "
    else html in
  let html :=
    if truthy (Metadata.date meta) || truthy (Metadata.dateText meta) then
      html ++ tpl "
                <div class='metadata-section'>
                    <h4>Datierung</h4>
                    <div class='metadata-content'>
                        "
      ++ escapeHTML (orElse (Metadata.dateText meta) (Metadata.date meta))
      ++ "
                    </div>
                </div>
            "
    else html in
  let html :=
    if truthy (Metadata.filiation meta) || truthy (Metadata.material meta) then
      html ++ tpl "
                <div class='metadata-section'>
                    <h4>Überlieferung</h4>
                    <div class='metadata-content'>
                        <ul>
                            "
      ++ (if truthy (Metadata.filiation meta)
          then "<li>" ++ escapeHTML (Metadata.filiation meta) ++ "</li>"
          else EmptyString)
      ++ "
                            "
      ++ (if truthy (Metadata.material meta)
          then tpl "<li><span class='metadata-label'>Material:</span> "
               ++ escapeHTML (Metadata.material meta) ++ "</li>"
          else EmptyString)
      ++ "
                            "
      ++ (if truthy (Metadata.dimensions meta)
          then tpl "<li><span class='metadata-label'>Format:</span> "
               ++ escapeHTML (Metadata.dimensions meta) ++ "</li>"
          else EmptyString)
      ++ "
                            "
      ++ (if truthy (Metadata.condition meta)
          then tpl "<li><span class='metadata-label'>Zustand:</span> "
               ++ escapeHTML (Metadata.condition meta) ++ "</li>"
          else EmptyString)
      ++ "
                        </ul>
                    </div>
                </div>
            "
    else html in
  let html :=
    match Metadata.seals meta with
    | [] => html
    | _ =>
        html ++ tpl "
                <div class='metadata-section'>
                    <h4>Siegel</h4>
                    <div class='metadata-content'>
                        <ul>
                            "
        ++ join EmptyString
             (map (fun s => "<li>" ++ escapeHTML s ++ "</li>")
                  (Metadata.seals meta))
        ++ "
                        </ul>
                    </div>
                </div>
            "
    end in
  let html :=
    if truthy (Metadata.textLang meta) then
      html ++ tpl "
                <div class='metadata-section'>
                    <h4>Sprache</h4>
                    <div class='metadata-content'>
                        "
      ++ escapeHTML (Metadata.textLang meta)
      ++ "
                    </div>
                </div>
            "
    else html in
  let html :=
    match Metadata.keywords meta with
    | [] => html
    | _ =>
        html ++ tpl "
                <div class='metadata-section'>
                    <h4>Schlagworte</h4>
                    <div class='metadata-content'>
                        <ul>
                            "
        ++ join EmptyString
             (map (fun k => tpl "<li class='term'>" ++ escapeHTML (Metadata.text k)
                            ++ "</li>")
                  (Metadata.keywords meta))
        ++ "
                        </ul>
                    </div>
                </div>
            "
    end in
  let html :=
    match Metadata.editors meta with
    | [] => html
    | _ =>
        html ++ tpl "
                <div class='metadata-section'>
                    <h4>Bearbeitung</h4>
                    <div class='metadata-content'>
                        <ul>
                            "
        ++ join EmptyString
             (map (fun e =>
                     let role :=
                       match objectLookup roleLabels (Metadata.role e) with
                       | Some l => orElse l (Metadata.role e)
                       | None => Metadata.role e
                       end in
                     "<li>" ++ escapeHTML (Metadata.name e)
                     ++ (if truthy role
                         then " (" ++ escapeHTML role ++ ")"
                         else EmptyString)
                     ++ "</li>")
                  (Metadata.editors meta))
        ++ "
                        </ul>
                    </div>
                </div>
            "
    end in
  html.

(** [renderHeading]. *)
Definition renderHeading (heading : Heading.t) : string :=
  let html := EmptyString in
  let html :=
    if truthy (Heading.title heading)
    then html ++ "<h2>" ++ escapeHTML (Heading.title heading) ++ "</h2>"
    else html in
  if truthy (Heading.date heading) || truthy (Heading.idno heading) then
    let html := html ++ tpl "<div class='doc-date'>" in
    let html :=
      if truthy (Heading.date heading)
      then html ++ escapeHTML (Heading.date heading)
      else html in
    let html :=
      if truthy (Heading.idno heading) then
        html ++ (if truthy (Heading.date heading)
                 then " (" ++ escapeHTML (Heading.idno heading) ++ ")"
                 else escapeHTML (Heading.idno heading))
      else html in
    html ++ "</div>"
  else html.

(** [renderFootnotes]: the HTML appended to the body pane, [None] when
    there is no footnote and nothing is appended.  The click handlers the
    function installs afterwards are not part of the embedding. *)
Definition renderFootnotes (footnotes : list footnote) : option string :=
  match footnotes with
  | [] => None
  | _ =>
      let html := tpl "<div class='footnotes'><h4>Anmerkungen</h4>" in
      let html :=
        fold_left
          (fun html fn =>
             html ++ tpl "
                <div class='footnote' id='fn-" ++ nat_to_string (number fn)
             ++ tpl "'>
                    <span class='footnote-number'>" ++ nat_to_string (number fn)
             ++ tpl "</span>
                    <span class='fn-content'>" ++ content fn
             ++ "</span>
                </div>
            ")
          footnotes html in
      Some (html ++ "</div>")
  end.

(** What [renderDocument] leaves on the page: the text of the file name
    element, the [innerHTML] given to the metadata, heading, body and
    back panes, the HTML appended to the body pane after that, and
    whether the back pane carries the class [hidden]. *)
Record page := mkPage {
  filenameText : string;
  metadataHTML : string;
  headingHTML : string;
  bodyHTML : string;
  bodyAppended : option string;
  backHTML : string;
  backHidden : bool
}.

(** [renderDocument].  The click handlers it installs on the metadata
    sections are not part of the embedding. *)
Definition renderDocument (result : Result.t) (filename : string) : page :=
  let metadataHTML :=
    match Result.metadata result with
    | Some m => renderMetadata m
    | None => tpl "<p class='no-metadata'>Keine Metadaten vorhanden</p>"
    end in
  let headingHTML :=
    match Result.heading result with
    | Some h => renderHeading h
    | None => EmptyString
    end in
  let bodyHTML :=
    match Result.body result with
    | Some body =>
        if truthy body then body
        else tpl "<p class='no-content'>Kein Inhalt vorhanden</p>"
    | None => tpl "<p class='no-content'>Kein Inhalt vorhanden</p>"
    end in
  let backHTML :=
    match Result.back result with
    | Some back => if truthy back then back else EmptyString
    | None => EmptyString
    end in
  let backHidden := negb (given (Result.back result)) in
  let bodyAppended :=
    match Result.footnotes result with
    | [] => None
    | _ => renderFootnotes (Result.footnotes result)
    end in
  mkPage filename metadataHTML headingHTML bodyHTML bodyAppended
         backHTML backHidden.

(** [processXML], for the document [QZHParser.parse] returned: it is
    transformed with the mode flag left out, that is in diplomatic
    mode, and the result is rendered.  The parse of the text and the
    error modal are not part of the embedding. *)
Definition processXML (localeCompare : string -> string -> Z)
    (xmlDoc : node) (filename : string) : M page :=
  result <- transform localeCompare xmlDoc false ;;
  ret (renderDocument result filename).

End App.

(** ** The document id of [src/unnamed/part_000] *)

Module AppTabs.

(** [s.replace(pattern, by)] for a pattern that is a string: the first
    occurrence only. *)
Fixpoint replaceFirst (pattern by_ : string) (s : string) : string :=
  if startsWith pattern s
  then by_ ++ substring_from (String.length pattern) s
  else match s with
       | EmptyString => EmptyString
       | String x r => String x (replaceFirst pattern by_ r)
       end.

(** [digits.replace(/^0+/, '')]: the leading zeros are dropped. *)
Fixpoint dropZeros (digits : string) : string :=
  match digits with
  | String c r => if Ascii.eqb c "0" then dropZeros r else digits
  | EmptyString => EmptyString
  end.

(** The pattern of [extractIdFromFilename] tried at the start of [s]:
    the letters QZH in either case, an underscore or a hyphen or
    neither, and one digit or more, which are captured.  When nothing
    follows the separator the pattern is tried again without it. *)
Definition idAtStart (s : string) : option string :=
  match s with
  | String q (String z (String h r)) =>
      if Ascii.eqb (lowerChar q) "q" && Ascii.eqb (lowerChar z) "z"
         && Ascii.eqb (lowerChar h) "h"
      then
        let afterSeparator :=
          match r with
          | String c t => if Ascii.eqb c "_" || Ascii.eqb c "-" then t else r
          | EmptyString => r
          end in
        match fst (spanDigits afterSeparator) with
        | String _ _ as digits => Some digits
        | EmptyString =>
            match fst (spanDigits r) with
            | String _ _ as digits => Some digits
            | EmptyString => None
            end
        end
      else None
  | _ => None
  end.

(** [filename.match(...)]: the first place the pattern matches at. *)
Fixpoint findId (filename : string) : option string :=
  match idAtStart filename with
  | Some digits => Some digits
  | None =>
      match filename with
      | String _ r => findId r
      | EmptyString => None
      end
  end.

(** [extractIdFromFilename]. *)
Definition extractIdFromFilename (filename : string) : string :=
  match findId filename with
  | Some digits => "QZH " ++ dropZeros digits
  | None => replaceFirst ".xml" EmptyString filename
  end.

End AppTabs.

(** * Properties *)

(** ** Vocabulary of the properties *)

(** The escaping of the five characters [&], [<], [>], the double quote
    and the apostrophe, one character at a time: what the description of
    the text-node rule names.  [escapeAttr] computes the same (see
    [escapeAttr_escapeFive]). *)
Fixpoint escapeFive (s : string) : string :=
  match s with
  | EmptyString => EmptyString
  | String c r =>
      (if Ascii.eqb c "&" then "&amp;"
       else if Ascii.eqb c "<" then "&lt;"
       else if Ascii.eqb c ">" then "&gt;"
       else if Ascii.eqb c dquote then "&quot;"
       else if Ascii.eqb c apostrophe then "&#39;"
       else String c EmptyString) ++ escapeFive r
  end.

(** The value an HTML tokenizer reads for a double-quoted attribute: the
    text after the first occurrence of the name, an equals sign and a
    double quote, up to the next double quote. *)
Fixpoint upToQuote (s : string) : string :=
  match s with
  | EmptyString => EmptyString
  | String c r => if Ascii.eqb c dquote then EmptyString else String c (upToQuote r)
  end.

Fixpoint attrValue (nm : string) (html : string) : option string :=
  let opening := nm ++ String "=" (String dquote EmptyString) in
  if startsWith opening html
  then Some (upToQuote (substring_from (String.length opening) html))
  else match html with
       | EmptyString => None
       | String _ r => attrValue nm r
       end.

(** What a traversal may do to the module-level variables: the mode flag
    stays, the registers and the footnote list grow at the end, and the
    new footnotes carry the numbers that follow the counter. *)
Definition grows (s s' : state) : Prop :=
  normalizedMode s' = normalizedMode s
  /\ (forall k, exists d, register k s' = (register k s ++ d)%list)
  /\ exists F,
       footnotes s' = (footnotes s ++ F)%list
       /\ footnoteCounter s' = footnoteCounter s + List.length F
       /\ map number F = seq (S (footnoteCounter s)) (List.length F).

Definition Grows {A : Type} (m : M A) : Prop :=
  forall st, grows st (snd (m st)).

(** [m] always brings about [Q] between the state it starts from and the
    state it leaves. *)
Definition Achieves {A : Type} (Q : state -> state -> Prop) (m : M A) : Prop :=
  forall st, Q st (snd (m st)).

(** The register a semantic element is appended to, if it is one: the
    cases of the [switch] that call [transformSemanticElement]. *)
Definition semanticKind (c : ctx) (x : node) : option kind :=
  if isElem x then
    match tagOf (nameOf x) with
    | T_persName => Some person
    | T_placeName | T_origPlace => Some place
    | T_orgName => Some organization
    | T_term => if isInsideHeader c then None else Some term
    | _ => None
    end
  else None.

(** A [note] element that is registered as a footnote. *)
Definition footnoteNote (x : node) : bool :=
  isElem x
  && match tagOf (nameOf x) with T_note => true | _ => false end
  && negb (isMarginPlace (attrOr (attrsOf x) "place" "")).

(** The entity of [x] has been appended to the register of kind [k]
    between two states. *)
Definition entityRecorded (k : kind) (x : node) (s s' : state) : Prop :=
  exists d, register k s' = (register k s ++ d)%list /\ In (entityOf x) d.

(** A footnote whose content is a rendering of the children of the note
    [x] has been appended between two states, with a number above the
    counter of the first. *)
Definition noteRecorded (c : ctx) (x : node) (s s' : state) : Prop :=
  exists F f,
    footnotes s' = (footnotes s ++ F)%list /\ In f F
    /\ footnoteCounter s < number f
    /\ exists s0, content f = fst (transformChildren c x s0).

(** The element whose children the handler of [n] transforms a second
    time: the first half of the pair a [choice] recognises, the [lem] of
    an [app]. *)
Definition retraversed (c : ctx) (n : node) : option located :=
  let found nm := findByName (ByTag nm) nm c n in
  match tagOf (nameOf n) with
  | T_choice =>
      if isSome (found "sic") && isSome (found "corr") then found "sic"
      else if isSome (found "abbr") && isSome (found "expan") then found "abbr"
      else if isSome (found "orig") && isSome (found "reg") then found "orig"
      else None
  | T_app => found "lem"
  | _ => None
  end.

(** The order a comparator puts its arguments in. *)
Definition leBy {A : Type} (compareFn : A -> A -> Z) (a b : A) : Prop :=
  (compareFn a b <= 0)%Z.

(** The order the sort of the registers establishes. *)
Definition nameLe (localeCompare : string -> string -> Z) (a b : entity) : Prop :=
  (localeCompare (name a) (name b) <= 0)%Z.

(** The first entry of a list with the key of [e]. *)
Definition firstWithKey (e : entity) (l : list entity) : option entity :=
  find (fun x => String.eqb (entityKey x) (entityKey e)) l.

(** The two bytes of a no-break space are the first of [s]. *)
Definition nbspAhead (s : string) : bool :=
  match s with
  | String a (String b _) => isNBSP a b
  | _ => false
  end.

(** What the amended text-node rule asks of an escaper [f]: the
    ampersand, the angle brackets and the no-break space become their
    character references and every other character is copied. *)
Definition escapesText (f : string -> string) : Prop :=
  f "" = ""
  /\ (forall r, f (String "&" r) = "&amp;" ++ f r)
  /\ (forall r, f (String "<" r) = "&lt;" ++ f r)
  /\ (forall r, f (String ">" r) = "&gt;" ++ f r)
  /\ (forall r,
        f (String (ascii_of_nat 194) (String (ascii_of_nat 160) r))
        = "&nbsp;" ++ f r)
  /\ (forall ch r,
        ch <> "&"%char -> ch <> "<"%char -> ch <> ">"%char ->
        nbspAhead (String ch r) = false ->
        f (String ch r) = String ch (f r)).





(** Induction on the document tree, the children of an element first. *)
Section NodeInduction.

Variable P : node -> Prop.
Hypothesis P_Text : forall d, P (Text d).
Hypothesis P_CData : forall d, P (CData d).
Hypothesis P_Misc : P Misc.
Hypothesis P_Elem :
  forall ns nm a kids, Forall P kids -> P (Elem ns nm a kids).

Fixpoint node_tree_ind (n : node) : P n :=
  match n with
  | Text d => P_Text d
  | CData d => P_CData d
  | Misc => P_Misc
  | Elem ns nm a kids =>
      P_Elem ns nm a kids
        ((fix all (ks : list node) : Forall P ks :=
            match ks with
            | [] => Forall_nil P
            | k :: r => Forall_cons k (node_tree_ind k) (all r)
            end) kids)
  end.

End NodeInduction.

Definition runChildren (y : located) : M string :=
  transformChildren (fst y) (snd y).

(** The [switch] as the source reads, with [transformChoice] and
    [transformApp] calling [transformChildren] on the elements they
    find. *)
Definition handle (c : ctx) (n : node) (children : string) : M string :=
  dispatch (transformChildren c n) (childrenOfFound c n) c n children.

(** ** Sample documents and values *)

Definition sampleBert : node :=
  Elem TEI_NS "persName" [] [Text "Bert"].

Definition sampleAnna : node :=
  Elem TEI_NS "persName" [] [Text " Anna "].

Definition sampleNote : node :=
  Elem TEI_NS "note" [] [Text "n1"].

Definition sampleSic : node :=
  Elem TEI_NS "sic" [] [Text "x"; sampleNote; sampleAnna].

Definition sampleCorr : node :=
  Elem TEI_NS "corr" [] [Text "y"; sampleBert].

(** A [choice] with the pair [sic]/[corr], a person in each half and a
    note in the first. *)
Definition sampleChoice : node :=
  Elem TEI_NS "choice" [] [sampleSic; sampleCorr].

(** A [choice] whose [sic] holds another [choice] with a person in its
    [sic]. *)
Definition nestedChoice : node :=
  Elem TEI_NS "choice" []
    [ Elem TEI_NS "sic" []
        [ Elem TEI_NS "choice" []
            [ Elem TEI_NS "sic" [] [sampleBert]; Elem TEI_NS "corr" [] [] ] ];
      Elem TEI_NS "corr" [] [] ].

Definition inChoice (i : nat) : ctx :=
  [mkFrame TEI_NS "choice" [] [sampleSic; sampleCorr] i].

Definition inSic (i : nat) : ctx :=
  mkFrame TEI_NS "sic" [] [Text "x"; sampleNote; sampleAnna] i :: inChoice 0.

Definition inCorr (i : nat) : ctx :=
  mkFrame TEI_NS "corr" [] [Text "y"; sampleBert] i :: inChoice 1.

(** The state [transform] works from, whatever state it is called in. *)
Definition resetState (normalized : bool) : state :=
  mkState 0 [] [] [] [] [] normalized.

(** What [transform] does after its assignments. *)
Definition walkDocument (xmlDoc : node)
  : M (string * option string * option string) :=
  summary <- extractSummary xmlDoc ;;
  body <- match docFindByName "body" xmlDoc with
          | Some (c, n) => h <- transformNode c n ;; ret (Some h)
          | None => ret None
          end ;;
  back <- match docFindByName "back" xmlDoc with
          | Some (c, n) => h <- transformBackMatter c n ;; ret (Some h)
          | None => ret None
          end ;;
  ret (summary, body, back).


(** An attribute value with a double quote in it: [a], a double quote,
    [b]. *)
Definition quotedValue : string := String "a" (String dquote "b").

Definition samplePb : node := Elem TEI_NS "pb" [("facs", quotedValue)] [].

Definition sampleDel : node := Elem TEI_NS "del" [("rend", quotedValue)] [].

Definition sampleUnclear : node :=
  Elem TEI_NS "unclear" [("reason", quotedValue)] [].

(** The entries of a list whose key is not among [seenKeys] and has not
    occurred earlier in the list. *)
Fixpoint keepFirsts (seenKeys : list string) (l : list entity) : list entity :=
  match l with
  | [] => []
  | e :: r =>
      if existsb (String.eqb (entityKey e)) seenKeys
      then keepFirsts seenKeys r
      else e :: keepFirsts (seenKeys ++ [entityKey e]) r
  end.

(** A comparator that orders any two strings and is transitive, for the
    examples: by length. *)
Definition byLength (a b : string) : Z :=
  (Z.of_nat (String.length a) - Z.of_nat (String.length b))%Z.

Definition sampleEntities : list entity :=
  [ mkEntity "Zürich" "loc1" "";
    mkEntity "Bern" "" "";
    mkEntity "Turicum" "loc1" "";
    mkEntity "Bern" "" "seat" ].






(** ** Vocabulary of the further properties *)

(** The character [c] occurs in [s]. *)
Fixpoint occurs (c : ascii) (s : string) : bool :=
  match s with
  | EmptyString => false
  | String x r => Ascii.eqb x c || occurs c r
  end.

(** Every character of [s] satisfies [p]. *)
Fixpoint allChars (p : ascii -> bool) (s : string) : bool :=
  match s with
  | EmptyString => true
  | String x r => p x && allChars p r
  end.

(** Every character of [s] is an ASCII character. *)
Definition asciiText (s : string) : bool :=
  allChars (fun a => byte a <? 128)%nat s.

(** The letters A to Z and a to z. *)
Definition isLetter (a : ascii) : bool :=
  let n := byte a in
  (((65 <=? n) && (n <=? 90)) || ((97 <=? n) && (n <=? 122)))%nat.

(** The same character, or the two cases of one letter, whose codes are
    32 apart. *)
Definition sameLetter (a b : ascii) : bool :=
  Ascii.eqb a b
  || (isLetter a && isLetter b
      && ((byte a + 32 =? byte b) || (byte b + 32 =? byte a))%nat).

(** Two texts that differ in the case of letters only. *)
Fixpoint sameButCase (s t : string) : bool :=
  match s, t with
  | EmptyString, EmptyString => true
  | String a r, String b u => sameLetter a b && sameButCase r u
  | _, _ => false
  end.

(** Every element of [n] has a name without a case in the [switch] of
    [transformNode]. *)
Fixpoint unhandled (n : node) : bool :=
  match n with
  | Elem _ nm _ kids =>
      match tagOf nm with T_default => true | _ => false end
      && (fix all (ks : list node) : bool :=
            match ks with
            | [] => true
            | k :: r => unhandled k && all r
            end) kids
  | _ => true
  end.

(** The escaped data of the text nodes of [n], in document order. *)
Fixpoint escapedText (n : node) : string :=
  match n with
  | Text d => escapeHTML d
  | Elem _ _ _ kids =>
      (fix go (ks : list node) : string :=
         match ks with
         | [] => EmptyString
         | k :: r => escapedText k ++ go r
         end) kids
  | _ => EmptyString
  end.

(** The cases of the [switch] that write a module-level variable,
    themselves or through [transformChildren] called once more. *)
Definition writesState (t : tag) : bool :=
  match t with
  | T_persName | T_placeName | T_origPlace | T_orgName | T_term
  | T_choice | T_app | T_note | T_handShift => true
  | _ => false
  end.

(** What the registers and the numbering of the footnotes show of a
    state: everything but the mode flag and the footnote texts. *)
Definition ledger (st : state)
  : list entity * list entity * list entity * list entity * nat * list nat :=
  (persons st, places st, organizations st, terms st,
   footnoteCounter st, map number (footnotes st)).

(** Two computations that keep the ledgers of their states equal. *)
Definition Alike {A B : Type} (m1 : M A) (m2 : M B) : Prop :=
  forall s1 s2, ledger s1 = ledger s2 ->
    ledger (snd (m1 s1)) = ledger (snd (m2 s2)).

(** The paragraphs [transformBackMatter] collects: for every [div]
    below the back matter, every [p] below that [div]. *)
Definition backParagraphs (c : ctx) (backNode : node) : list located :=
  flat_map (fun d : located => querySelectorAll (ByTag "p") (fst d) (snd d))
           (querySelectorAll (ByTag "div") c backNode).

(** The paragraphs of the commentary, one [p] element for each item. *)
Fixpoint commentaryItems (items : list string) : string :=
  match items with
  | [] => EmptyString
  | item :: r => "<p>" ++ item ++ "</p>" ++ commentaryItems r
  end.

(** A component of an ISO date as it is written, with two digits at
    least. *)
Definition twoDigits (n : nat) : string :=
  if (n <? 10)%nat then "0" ++ nat_to_string n else nat_to_string n.

(** The text [formatDate] has for month number [m]: its German name, or
    the text of [undefined] when there is no such month. *)
Definition monthText (m : nat) : string :=
  if ((1 <=? m) && (m <=? 12))%nat then nth (m - 1) months EmptyString
  else "undefined".

(** [s] is empty or starts with a character that is no digit. *)
Definition noDigitAhead (s : string) : bool :=
  match s with
  | EmptyString => true
  | String c _ => negb (isDigit c)
  end.

(** The attributes a [date] element is read for. *)
Definition dateAttributes : list string :=
  ["when"; "from"; "to"; "notBefore"; "notAfter"; "calendar"; "type";
   "period"; "dur-iso"; "dur"].

(** Some attribute has a value that is not empty. *)
Definition hasValue (attrs : list (string * string)) : bool :=
  existsb (fun a => truthy (snd a)) attrs.

(** One group of an ISO 8601 duration as it is written: the count and
    the unit letter, or nothing when the unit is left out. *)
Definition isoGroup (count : option nat) (letter : ascii) : string :=
  match count with
  | Some n => nat_to_string n ++ String letter EmptyString
  | None => EmptyString
  end.

(** A duration written out: [P], the groups of the date units, and, when
    a time unit is given, [T] and the groups of the time units. *)
Definition isoDuration (y mo w d h mi s : option nat) : string :=
  "P" ++ isoGroup y "Y" ++ isoGroup mo "M" ++ isoGroup w "W" ++ isoGroup d "D"
  ++ match h, mi, s with
     | None, None, None => EmptyString
     | _, _, _ => "T" ++ isoGroup h "H" ++ isoGroup mi "M" ++ isoGroup s "S"
     end.

(** A count that a JavaScript number holds exactly. *)
Definition exactCount (count : option nat) : bool :=
  match count with
  | Some n => (Z.of_nat n <? 2 ^ 53)%Z
  | None => true
  end.

(** The digits written for a count. *)
Definition digitsOf (count : option nat) : string :=
  match count with Some n => nat_to_string n | None => EmptyString end.

(** The German text for a count of a unit: nothing for a unit left out
    or counted zero, the singular for one, the plural otherwise. *)
Definition unitText (count : option nat) (unit_ plural : string) : list string :=
  match count with
  | Some (S k) =>
      [nat_to_string (S k) ++ " " ++ unit_
       ++ match k with O => EmptyString | S _ => plural end]
  | _ => []
  end.

Definition durationTexts (y mo w d h mi s : option nat) : list string :=
  (unitText y "Jahr" "e" ++ unitText mo "Monat" "e" ++ unitText w "Woche" "n"
   ++ unitText d "Tag" "e" ++ unitText h "Stunde" "n"
   ++ unitText mi "Minute" "n" ++ unitText s "Sekunde" "n")%list.

(** A printable ASCII character other than the space and the upper-case
    letters. *)
Definition plainLower (a : ascii) : bool :=
  ((33 <=? byte a) && (byte a <=? 126)
   && negb ((65 <=? byte a) && (byte a <=? 90)))%nat.

(** The tooltip text [transformSemanticElement] builds for an element
    of a kind with the attributes [ref] and [role], before it is escaped
    for the [data-tooltip] attribute. *)
Definition semanticTooltip (type : kind) (ref role : string) : string :=
  join " | "
    ([typeLabel type]
       ++ (if truthy ref then [("Ref: " ++ ref)%string] else [])
       ++ (if truthy role then [("Rolle: " ++ role)%string] else []))%list.

(** A [choice] holds one of the pairs its handler recognises. *)
Definition hasChoicePair (c : ctx) (n : node) : bool :=
  let found nm := isSome (findByName (ByTag nm) nm c n) in
  (found "sic" && found "corr")
  || (found "abbr" && found "expan")
  || (found "orig" && found "reg").

(** A back matter with a [div] inside a [div], and the elements of it. *)
Definition sampleBack : node :=
  Elem TEI_NS "back" []
    [ Elem TEI_NS "div" []
        [ Elem TEI_NS "div" [] [ Elem TEI_NS "p" [] [Text "x"] ] ] ].

Definition outerDiv : located :=
  nth 0 (querySelectorAll (ByTag "div") [] sampleBack) ([], Misc).

Definition innerDiv : located :=
  nth 1 (querySelectorAll (ByTag "div") [] sampleBack) ([], Misc).

Definition nestedParagraph : located :=
  nth 0 (querySelectorAll (ByTag "p") [] sampleBack) ([], Misc).

(** A [choice] with a [sic] and nothing to pair it with. *)
Definition loneSic : node :=
  Elem TEI_NS "choice" [] [ Elem TEI_NS "sic" [] [sampleNote] ].

(** The register of a kind in a result. *)
Definition registerOf (k : kind) (r : Registers.t) : list entity :=
  match k with
  | person => Registers.persons r
  | place => Registers.places r
  | organization => Registers.organizations r
  | term => Registers.terms r
  end.

(** The entity [e] is the register entry of a semantic element of kind
    [k] among [els]. *)
Definition stemsFrom (els : list located) (k : kind) (e : entity) : Prop :=
  exists cx x, In (cx, x) els /\ semanticKind cx x = Some k /\ e = entityOf x.

(** Whatever [m] appends to a register is the entry of a semantic
    element among [els]. *)
Definition Sourced {A : Type} (els : list located) (m : M A) : Prop :=
  forall st k,
    exists d,
      register k (snd (m st)) = (register k st ++ d)%list
      /\ forall e, In e d -> stemsFrom els k e.

(** ** Strings *)

Lemma string_app_assoc (a b c : string) : (a ++ b) ++ c = a ++ (b ++ c).
Proof. induction a as [|x a IH]; simpl; [reflexivity | now rewrite IH]. Qed.

Lemma existsb_key (k : string) (ks : list string) :
  existsb (String.eqb k) ks = true <-> In k ks.
Proof.
  rewrite existsb_exists. split.
  - intros (x & Hin & E). apply String.eqb_eq in E. now subst.
  - intros H. exists k. split; [exact H | apply String.eqb_refl].
Qed.

Lemma ascii_eqb_eq (a b : ascii) : Ascii.eqb a b = true -> a = b.
Proof. apply Ascii.eqb_eq. Qed.

Lemma byte_inj (a : ascii) (n : nat) : n < 256 -> byte a = n -> a = ascii_of_nat n.
Proof.
  intros _ H. unfold byte in H. rewrite <- H. symmetry. apply ascii_nat_embedding.
Qed.

Lemma isNBSP_eq (a b : ascii) :
  isNBSP a b = true -> a = ascii_of_nat 194 /\ b = ascii_of_nat 160.
Proof.
  unfold isNBSP. intros H. apply andb_prop in H. destruct H as [Ha Hb].
  apply Nat.eqb_eq in Ha, Hb.
  split; apply byte_inj; auto; lia.
Qed.

Lemma unescapeFrom_skip (p t : string) :
  unescapeFrom (String.length p) (p ++ t) = unescapeFrom 0 t.
Proof.
  induction p as [|c p IH]; simpl.
  - destruct t; reflexivity.
  - exact IH.
Qed.

Lemma unescapeFrom_plain (c : ascii) (t : string) :
  Ascii.eqb c "&" = false ->
  unescapeFrom 0 (String c t) = String c (unescapeFrom 0 t).
Proof. intros H. simpl. rewrite H. reflexivity. Qed.

Lemma unescape_amp (t : string) :
  unescapeFrom 0 ("&amp;" ++ t) = String "&" (unescapeFrom 0 t).
Proof. exact (f_equal (String "&") (unescapeFrom_skip "amp;" t)). Qed.

Lemma unescape_lt (t : string) :
  unescapeFrom 0 ("&lt;" ++ t) = String "<" (unescapeFrom 0 t).
Proof. exact (f_equal (String "<") (unescapeFrom_skip "lt;" t)). Qed.

Lemma unescape_gt (t : string) :
  unescapeFrom 0 ("&gt;" ++ t) = String ">" (unescapeFrom 0 t).
Proof. exact (f_equal (String ">") (unescapeFrom_skip "gt;" t)). Qed.

Lemma unescape_nbsp (t : string) :
  unescapeFrom 0 ("&nbsp;" ++ t)
  = String (ascii_of_nat 194) (String (ascii_of_nat 160) (unescapeFrom 0 t)).
Proof.
  exact (f_equal (fun x => String (ascii_of_nat 194) (String (ascii_of_nat 160) x))
                 (unescapeFrom_skip "nbsp;" t)).
Qed.

Lemma unescape_escapeHTML_bounded (n : nat) :
  forall s, String.length s <= n -> unescapeFrom 0 (escapeHTML s) = s.
Proof.
  induction n as [|n IH]; intros s Hlen.
  - destruct s; [reflexivity | simpl in Hlen; lia].
  - destruct s as [|a r]; [reflexivity|].
    simpl in Hlen. cbn [escapeHTML].
    destruct (Ascii.eqb a "&") eqn:Eamp.
    { apply ascii_eqb_eq in Eamp. subst a. rewrite unescape_amp, IH by lia. reflexivity. }
    destruct (Ascii.eqb a "<") eqn:Elt.
    { apply ascii_eqb_eq in Elt. subst a. rewrite unescape_lt, IH by lia. reflexivity. }
    destruct (Ascii.eqb a ">") eqn:Egt.
    { apply ascii_eqb_eq in Egt. subst a. rewrite unescape_gt, IH by lia. reflexivity. }
    destruct r as [|b r2].
    { rewrite unescapeFrom_plain by exact Eamp. reflexivity. }
    destruct (isNBSP a b) eqn:Ews.
    { apply isNBSP_eq in Ews. destruct Ews; subst a b.
      rewrite unescape_nbsp, IH by (simpl in Hlen; lia). reflexivity. }
    rewrite unescapeFrom_plain by exact Eamp.
    rewrite IH by lia. reflexivity.
Qed.

Lemma unescape_escapeHTML (s : string) : unescapeHTML (escapeHTML s) = s.
Proof. apply (unescape_escapeHTML_bounded (String.length s)). lia. Qed.

Lemma escapeHTML_quote (q : ascii) (s : string) :
  q = dquote \/ q = apostrophe ->
  escapeHTML (String q s) = String q (escapeHTML s).
Proof.
  intros [-> | ->]; destruct s as [|b r]; reflexivity.
Qed.

(** ** How the state evolves *)

Lemma bind_run {A B : Type} (m : M A) (k : A -> M B) (st : state) :
  bind m k st = k (fst (m st)) (snd (m st)).
Proof. unfold bind. destruct (m st); reflexivity. Qed.

Lemma grows_refl (s : state) : grows s s.
Proof.
  repeat split.
  - intros k. exists []. now rewrite app_nil_r.
  - exists []. simpl. rewrite app_nil_r. repeat split. lia.
Qed.

Lemma grows_trans (s1 s2 s3 : state) :
  grows s1 s2 -> grows s2 s3 -> grows s1 s3.
Proof.
  intros (Hm1 & Hr1 & F1 & Hf1 & Hc1 & Hn1) (Hm2 & Hr2 & F2 & Hf2 & Hc2 & Hn2).
  split; [congruence|]. split.
  - intros k. destruct (Hr1 k) as [d1 E1]. destruct (Hr2 k) as [d2 E2].
    exists (d1 ++ d2)%list. rewrite E2, E1. now rewrite app_assoc.
  - exists (F1 ++ F2)%list. repeat split.
    + rewrite Hf2, Hf1. now rewrite app_assoc.
    + rewrite Hc2, Hc1, length_app. lia.
    + rewrite map_app, length_app, seq_app, Hn1, Hn2, Hc1. reflexivity.
Qed.

Lemma Grows_ret {A : Type} (a : A) : Grows (ret a).
Proof. intros st. apply grows_refl. Qed.

Lemma Grows_gets {A : Type} (f : state -> A) : Grows (gets f).
Proof. intros st. apply grows_refl. Qed.

Lemma Grows_bind {A B : Type} (m : M A) (k : A -> M B) :
  Grows m -> (forall a, Grows (k a)) -> Grows (bind m k).
Proof.
  intros Hm Hk st. rewrite bind_run.
  eapply grows_trans; [apply Hm | apply Hk].
Qed.

Lemma Grows_addFootnote (content : string) : Grows (addFootnote content).
Proof.
  intros st. unfold addFootnote. simpl. repeat split.
  - intros k. exists []. destruct k; simpl; now rewrite app_nil_r.
  - exists [mkFootnote (S (footnoteCounter st)) content]. simpl.
    repeat split. lia.
Qed.

Lemma register_setRegister (k k' : kind) (l : list entity) (st : state) :
  register k' (snd (setRegister k l st))
  = if match k, k' with
       | person, person | place, place
       | organization, organization | term, term => true
       | _, _ => false
       end then l else register k' st.
Proof. destruct k, k'; reflexivity. Qed.

Lemma Grows_pushEntity (k : kind) (e : entity) : Grows (pushEntity k e).
Proof.
  intros st. unfold pushEntity. repeat split.
  - destruct k; reflexivity.
  - intros k'. rewrite register_setRegister.
    destruct k, k'; simpl;
      first [ now exists [e] | exists []; now rewrite app_nil_r ].
  - exists []. destruct k; simpl; rewrite app_nil_r; repeat split; lia.
Qed.

Create HintDb grows.
#[export] Hint Resolve Grows_ret Grows_gets Grows_addFootnote Grows_pushEntity
  : grows.

(** Splits a computation along its binds and conditionals. *)
Ltac grows_step :=
  match goal with
  | |- Grows (bind _ _) => apply Grows_bind; [| intros ?]
  | |- Grows (if ?b then _ else _) => destruct b
  | |- Grows (match ?o with Some _ => _ | None => _ end) => destruct o
  | |- Grows _ => solve [auto with grows]
  end.

Ltac grows_auto := cbv zeta; repeat grows_step.

Lemma Grows_transformSemanticElement (n : node) (k : kind) (children : string) :
  Grows (transformSemanticElement n k children).
Proof. unfold transformSemanticElement. grows_auto. Qed.

Lemma Grows_transformNote (n : node) (children : string) :
  Grows (transformNote n children).
Proof. unfold transformNote. grows_auto. Qed.

Lemma Grows_force (o : option (M string)) :
  (forall m, o = Some m -> Grows m) -> Grows (force o).
Proof.
  intros H. destruct o as [m|]; simpl; [apply H; reflexivity | apply Grows_ret].
Qed.

#[export] Hint Resolve Grows_transformSemanticElement Grows_transformNote
  : grows.

Section GrowsDispatch.

Variable again : M string.
Variable childrenOf : string -> option (M string).
Hypothesis Grows_again : Grows again.
Hypothesis Grows_childrenOf : forall t m, childrenOf t = Some m -> Grows m.

Lemma Grows_found (t : string) : Grows (force (childrenOf t)).
Proof. apply Grows_force. apply Grows_childrenOf. Qed.

Hint Resolve Grows_found Grows_again : grows.

Lemma Grows_transformChoiceWith (c : ctx) (n : node) :
  Grows (transformChoiceWith childrenOf c n again).
Proof. unfold transformChoiceWith. grows_auto. Qed.

Lemma Grows_transformAppWith (c : ctx) (n : node) (children : string) :
  Grows (transformAppWith childrenOf c n children).
Proof. unfold transformAppWith. grows_auto. Qed.

Hint Resolve Grows_transformChoiceWith Grows_transformAppWith : grows.

Lemma Grows_dispatch (c : ctx) (n : node) (children : string) :
  Grows (dispatch again childrenOf c n children).
Proof.
  unfold dispatch. cbv zeta.
  destruct (tagOf (nameOf n)); grows_auto.
Qed.

End GrowsDispatch.

Lemma Grows_childLoop (frameAt : nat -> frame) (c : ctx)
    (visit : ctx -> node -> M string) (ks : list node) :
  Forall (fun k => forall c', Grows (visit c' k)) ks ->
  forall result i, Grows (childLoop frameAt c visit result i ks).
Proof.
  induction 1 as [|k r Hk _ IH]; intros result i; simpl.
  - apply Grows_ret.
  - apply Grows_bind; [apply Hk | intros h; apply IH].
Qed.

Lemma Grows_firstLoop (frameAt : nat -> frame) (c : ctx)
    (search : ctx -> node -> option (M string)) (ks : list node) :
  Forall (fun k => forall c' m, search c' k = Some m -> Grows m) ks ->
  forall i m, firstLoop frameAt c search i ks = Some m -> Grows m.
Proof.
  induction 1 as [|k r Hk _ IH]; intros i m; simpl.
  - discriminate.
  - destruct (search (frameAt i :: c) k) as [m'|] eqn:E.
    + intros [= <-]. eapply Hk; eassumption.
    + apply IH.
Qed.

Lemma transformNode_Elem (c : ctx) (ns nm : string)
    (a : list (string * string)) (kids : list node) :
  transformNode c (Elem ns nm a kids)
  = (children <- eachChild transformNode c ns nm a kids ;;
     dispatch (eachChild transformNode c ns nm a kids)
              (fun target => firstChild (childrenOfFirst target) c ns nm a kids)
              c (Elem ns nm a kids) children).
Proof. reflexivity. Qed.

Lemma childrenOfFirst_Elem (target : string) (c : ctx) (ns nm : string)
    (a : list (string * string)) (kids : list node) :
  childrenOfFirst target c (Elem ns nm a kids)
  = if String.eqb nm target
    then Some (eachChild transformNode c ns nm a kids)
    else firstChild (childrenOfFirst target) c ns nm a kids.
Proof. reflexivity. Qed.

(** Every traversal only lets the state grow. *)
Lemma Grows_walk (n : node) :
  (forall c, Grows (transformNode c n))
  /\ (forall t c m, childrenOfFirst t c n = Some m -> Grows m).
Proof.
  induction n as [d|d| |ns nm a kids IH] using node_tree_ind;
    try (split; [intros c; apply Grows_ret | intros t c m; discriminate]).
  assert (Hkids : forall c, Grows (eachChild transformNode c ns nm a kids)).
  { intros c. apply Grows_childLoop.
    eapply Forall_impl; [|exact IH]. intros k [Hk _]. exact Hk. }
  assert (Hfirst : forall t c m,
             firstChild (childrenOfFirst t) c ns nm a kids = Some m -> Grows m).
  { intros t c m. apply Grows_firstLoop.
    eapply Forall_impl; [|exact IH]. intros k [_ Hk]. apply Hk. }
  split.
  - intros c. rewrite transformNode_Elem.
    apply Grows_bind; [apply Hkids|]. intros children.
    apply Grows_dispatch; [apply Hkids|]. intros t m. apply Hfirst.
  - intros t c m. rewrite childrenOfFirst_Elem.
    destruct (String.eqb nm t).
    + intros [= <-]. apply Hkids.
    + apply Hfirst.
Qed.

Lemma Grows_transformNode (c : ctx) (n : node) : Grows (transformNode c n).
Proof. apply Grows_walk. Qed.

Lemma Grows_transformChildren (c : ctx) (n : node) :
  Grows (transformChildren c n).
Proof.
  destruct n; try apply Grows_ret.
  apply Grows_childLoop. apply Forall_forall. intros k _ c'.
  apply Grows_transformNode.
Qed.

#[export] Hint Resolve Grows_transformNode Grows_transformChildren : grows.

(** ** Finding elements *)

Lemma descendants_Elem (c : ctx) (ns nm : string) (a : list (string * string))
    (kids : list node) :
  descendants c (Elem ns nm a kids)
  = belowLoop (mkFrame ns nm a kids) c descendants 0 kids.
Proof. reflexivity. Qed.

Lemma descendants_not_Elem (c : ctx) (n : node) :
  isElem n = false -> descendants c n = [].
Proof. destruct n; simpl; congruence. Qed.

Lemma hd_error_In {A : Type} (l : list A) (x : A) : hd_error l = Some x -> In x l.
Proof. destruct l; simpl; [discriminate | intros [= ->]; now left]. Qed.

Lemma querySelector_In (sel : selector) (c : ctx) (n : node) (y : located) :
  querySelector sel c n = Some y ->
  In y (descendants c n) /\ selects sel y = true.
Proof.
  unfold querySelector, querySelectorAll. intros H.
  apply hd_error_In in H. now apply filter_In in H.
Qed.

(** The second way to find an element, by namespace and name, finds
    nothing the type selector does not. *)
Lemma findByName_ByTag (t : string) (c : ctx) (n : node) :
  findByName (ByTag t) t c n = querySelector (ByTag t) c n.
Proof.
  unfold findByName, orNode.
  destruct (querySelector (ByTag t) c n) as [y|] eqn:E; [reflexivity|].
  unfold querySelector, querySelectorAll in E. unfold getElementsByTagNameNS.
  destruct (filter (selects (ByTag t)) (descendants c n)) as [|z l] eqn:F;
    [|discriminate].
  induction (descendants c n) as [|x D IH]; [reflexivity|].
  simpl in F |- *. destruct x as [cx x]. simpl in F |- *.
  destruct (String.eqb (nameOf x) t); [discriminate|].
  rewrite andb_false_r. apply IH. exact F.
Qed.

Lemma findByName_In (t : string) (c : ctx) (n : node) (y : located) :
  findByName (ByTag t) t c n = Some y ->
  In y (descendants c n) /\ nameOf (snd y) = t.
Proof.
  rewrite findByName_ByTag. intros H. apply querySelector_In in H.
  destruct H as [Hin Hsel]. split; [exact Hin|].
  destruct y as [cy y]. simpl in *. now apply String.eqb_eq.
Qed.

Lemma filter_ByTag_cons (t : string) (c : ctx) (k : node) (D : list located) :
  filter (selects (ByTag t)) ((c, k) :: D)
  = if String.eqb (nameOf k) t
    then (c, k) :: filter (selects (ByTag t)) D
    else filter (selects (ByTag t)) D.
Proof. reflexivity. Qed.

(** One round of the search, given what it does at the child. *)
Lemma firstLoop_spec (t : string) (frameAt : nat -> frame) (c : ctx)
    (ks : list node) :
  Forall (fun k =>
            forall c',
              childrenOfFirst t c' k
              = if isElem k && String.eqb (nameOf k) t
                then Some (transformChildren c' k)
                else option_map runChildren
                       (hd_error (filter (selects (ByTag t)) (descendants c' k))))
         ks ->
  forall i,
    firstLoop frameAt c (childrenOfFirst t) i ks
    = option_map runChildren
        (hd_error (filter (selects (ByTag t))
                          (belowLoop frameAt c descendants i ks))).
Proof.
  induction 1 as [|k r Hk _ IHr]; intros i; [reflexivity|].
  cbn [firstLoop belowLoop]. rewrite filter_app, Hk.
  destruct (isElem k) eqn:Ek.
  - rewrite filter_ByTag_cons. cbn [andb].
    destruct (String.eqb (nameOf k) t) eqn:En; [reflexivity|].
    destruct (filter (selects (ByTag t)) (descendants (frameAt i :: c) k))
      as [|y l]; cbn [hd_error option_map app].
    + apply IHr.
    + reflexivity.
  - rewrite (descendants_not_Elem _ _ Ek). cbn [andb filter hd_error option_map app].
    apply IHr.
Qed.

(** The search woven into [transformNode] finds the element that
    [querySelector] finds, and runs [transformChildren] on it. *)
Lemma childrenOfFirst_spec (t : string) (n : node) :
  forall c,
    childrenOfFirst t c n
    = if isElem n && String.eqb (nameOf n) t
      then Some (transformChildren c n)
      else option_map runChildren
             (hd_error (filter (selects (ByTag t)) (descendants c n))).
Proof.
  induction n as [d|d| |ns nm a kids IH] using node_tree_ind;
    try reflexivity.
  intros c. rewrite childrenOfFirst_Elem. cbn [isElem nameOf andb].
  destruct (String.eqb nm t); [reflexivity|].
  rewrite descendants_Elem. unfold firstChild.
  apply firstLoop_spec. exact IH.
Qed.

Lemma firstChild_found (t : string) (c : ctx) (ns nm : string)
    (a : list (string * string)) (kids : list node) :
  firstChild (childrenOfFirst t) c ns nm a kids
  = childrenOfFound c (Elem ns nm a kids) t.
Proof.
  unfold childrenOfFound. rewrite findByName_ByTag.
  unfold querySelector, querySelectorAll. rewrite descendants_Elem.
  unfold firstChild. rewrite firstLoop_spec.
  - destruct (hd_error _) as [y|]; reflexivity.
  - apply Forall_forall. intros k _ c'. apply childrenOfFirst_spec.
Qed.

Lemma dispatch_ext (again : M string) (f g : string -> option (M string))
    (c : ctx) (n : node) (children : string) :
  (forall t, f t = g t) ->
  dispatch again f c n children = dispatch again g c n children.
Proof.
  intros H. unfold dispatch. cbv zeta.
  destruct (tagOf (nameOf n)); try reflexivity.
  - unfold transformChoiceWith. now rewrite !H.
  - unfold transformAppWith. now rewrite !H.
Qed.

(** [transformNode] on an element: the children are transformed, then
    the [switch] runs. *)
Lemma transformNode_element (c : ctx) (n : node) (st : state) :
  isElem n = true ->
  transformNode c n st
  = handle c n (fst (transformChildren c n st)) (snd (transformChildren c n st)).
Proof.
  destruct n as [d|d| |ns nm a kids]; try discriminate. intros _.
  rewrite transformNode_Elem, bind_run. unfold handle.
  rewrite (dispatch_ext _ _ (childrenOfFound c (Elem ns nm a kids))).
  - reflexivity.
  - intros t. apply firstChild_found.
Qed.

(** ** Every element below a node is visited *)

Lemma belowLoop_In (frameAt : nat -> frame) (c : ctx) (y : located)
    (ks : list node) :
  forall i,
    In y (belowLoop frameAt c descendants i ks) ->
    exists j k,
      In k ks /\ isElem k = true
      /\ (y = (frameAt j :: c, k) \/ In y (descendants (frameAt j :: c) k)).
Proof.
  induction ks as [|k r IH]; intros i; cbn [belowLoop]; [intros []|].
  intros H. apply in_app_or in H. destruct H as [H|H].
  - destruct (isElem k) eqn:Ek; [|destruct H].
    exists i, k. split; [now left|]. split; [exact Ek|].
    destruct H as [H|H]; [left; now symmetry | now right].
  - destruct (IH _ H) as (j & k' & Hin & Hrest).
    exists j, k'. split; [now right | exact Hrest].
Qed.

(** Being a descendant is transitive. *)
Lemma descendants_trans (y z : located) (n : node) :
  forall c,
    In y (descendants c n) ->
    In z (descendants (fst y) (snd y)) ->
    In z (descendants c n).
Proof.
  induction n as [d|d| |ns nm a kids IH] using node_tree_ind;
    try (intros c []).
  intros c Hy Hz. rewrite descendants_Elem in *.
  revert Hy. generalize 0 as i. generalize (mkFrame ns nm a kids) as frameAt.
  induction IH as [|k r Hk _ IHr]; intros frameAt i; cbn [belowLoop];
    [intros []|].
  intros Hy. apply in_or_app. apply in_app_or in Hy. destruct Hy as [Hy|Hy].
  - left. destruct (isElem k); [|destruct Hy].
    right. destruct Hy as [<-|Hy]; [exact Hz|].
    eapply Hk; eassumption.
  - right. eapply IHr; eassumption.
Qed.

Section Recording.

(** A fact about two states that survives growth before and after. *)
Variable Q : state -> state -> Prop.
Hypothesis Q_before : forall s0 s s', grows s0 s -> Q s s' -> Q s0 s'.
Hypothesis Q_after : forall s s' s'', Q s s' -> grows s' s'' -> Q s s''.

Lemma Achieves_then {A B : Type} (m : M A) (k : A -> M B) :
  Achieves Q m -> (forall a, Grows (k a)) -> Achieves Q (bind m k).
Proof.
  intros Hm Hk st. rewrite bind_run. eapply Q_after; [apply Hm | apply Hk].
Qed.

Lemma Achieves_after {A B : Type} (m : M A) (k : A -> M B) :
  Grows m -> (forall a, Achieves Q (k a)) -> Achieves Q (bind m k).
Proof.
  intros Hm Hk st. rewrite bind_run. eapply Q_before; [apply Hm | apply Hk].
Qed.

(** The element [x], met with the ancestors [cx], whose visit brings
    [Q] about. *)
Variable cx : ctx.
Variable x : node.
Hypothesis visit_x : Achieves Q (transformNode cx x).

Lemma Achieves_childLoop (frameAt : nat -> frame) (c : ctx) (ks : list node) :
  Forall (fun k =>
            forall c', In (cx, x) (descendants c' k) ->
                       Achieves Q (transformChildren c' k)) ks ->
  forall result i,
    In (cx, x) (belowLoop frameAt c descendants i ks) ->
    Achieves Q (childLoop frameAt c transformNode result i ks).
Proof.
  induction 1 as [|k r Hk _ IHr]; intros result i; cbn [belowLoop childLoop];
    [intros []|].
  intros H. apply in_app_or in H. destruct H as [H|H].
  - apply Achieves_then.
    + destruct (isElem k) eqn:Ek; [|destruct H].
      destruct H as [H|H].
      * injection H as <- <-. exact visit_x.
      * intros st. rewrite transformNode_element by exact Ek.
        eapply Q_after; [apply Hk; exact H|].
        apply Grows_dispatch; auto with grows.
        intros t m. unfold childrenOfFound.
        destruct (findByName (ByTag t) t (frameAt i :: c) k) as [y|];
          [intros [= <-]; apply Grows_transformChildren | discriminate].
    + intros h. apply Grows_childLoop. apply Forall_forall.
      intros k' _ c'. apply Grows_transformNode.
  - apply Achieves_after; [apply Grows_transformNode|].
    intros h. apply IHr. exact H.
Qed.

(** A traversal of the children of [n] visits [x] when [x] lies below
    [n]. *)
Lemma Achieves_transformChildren (n : node) :
  forall c,
    In (cx, x) (descendants c n) -> Achieves Q (transformChildren c n).
Proof.
  induction n as [d|d| |ns nm a kids IH] using node_tree_ind;
    try (intros c []).
  intros c H. rewrite descendants_Elem in H.
  apply Achieves_childLoop; assumption.
Qed.

End Recording.

(** ** What a visit records *)

Lemma entityRecorded_before (k : kind) (x : node) (s0 s s' : state) :
  grows s0 s -> entityRecorded k x s s' -> entityRecorded k x s0 s'.
Proof.
  intros (_ & Hr & _) (d & Hd & Hin). destruct (Hr k) as [d0 E0].
  exists (d0 ++ d)%list. split.
  - rewrite Hd, E0. now rewrite app_assoc.
  - apply in_or_app. now right.
Qed.

Lemma entityRecorded_after (k : kind) (x : node) (s s' s'' : state) :
  entityRecorded k x s s' -> grows s' s'' -> entityRecorded k x s s''.
Proof.
  intros (d & Hd & Hin) (_ & Hr & _). destruct (Hr k) as [d2 E2].
  exists (d ++ d2)%list. split.
  - rewrite E2, Hd. now rewrite app_assoc.
  - apply in_or_app. now left.
Qed.

Lemma noteRecorded_before (c : ctx) (x : node) (s0 s s' : state) :
  grows s0 s -> noteRecorded c x s s' -> noteRecorded c x s0 s'.
Proof.
  intros (_ & _ & F0 & Hf0 & Hc0 & _) (F & f & Hf & Hin & Hnum & Hcontent).
  exists (F0 ++ F)%list, f. repeat split.
  - rewrite Hf, Hf0. now rewrite app_assoc.
  - apply in_or_app. now right.
  - lia.
  - exact Hcontent.
Qed.

Lemma noteRecorded_after (c : ctx) (x : node) (s s' s'' : state) :
  noteRecorded c x s s' -> grows s' s'' -> noteRecorded c x s s''.
Proof.
  intros (F & f & Hf & Hin & Hnum & Hcontent) (_ & _ & F2 & Hf2 & _).
  exists (F ++ F2)%list, f. repeat split.
  - rewrite Hf2, Hf. now rewrite app_assoc.
  - apply in_or_app. now left.
  - exact Hnum.
  - exact Hcontent.
Qed.

Lemma transformSemanticElement_state (x : node) (k : kind) (children : string)
    (st : state) :
  snd (transformSemanticElement x k children st)
  = snd (pushEntity k (entityOf x) st).
Proof.
  unfold transformSemanticElement. cbv zeta. rewrite bind_run. reflexivity.
Qed.

Lemma pushEntity_recorded (k : kind) (x : node) (st : state) :
  entityRecorded k x st (snd (pushEntity k (entityOf x) st)).
Proof.
  exists [entityOf x]. split; [|now left].
  unfold pushEntity. rewrite register_setRegister. now destruct k.
Qed.

(** The visit of a semantic element appends its entity. *)
Lemma visit_semantic (c : ctx) (x : node) (k : kind) :
  semanticKind c x = Some k ->
  Achieves (entityRecorded k x) (transformNode c x).
Proof.
  unfold semanticKind. destruct (isElem x) eqn:Ex; [|discriminate].
  intros Hk st. rewrite transformNode_element by exact Ex.
  eapply entityRecorded_before; [apply Grows_transformChildren|].
  unfold handle, dispatch. cbv zeta.
  destruct (tagOf (nameOf x)); try discriminate;
    try (destruct (isInsideHeader c); try discriminate);
    injection Hk as <-;
    rewrite transformSemanticElement_state; apply pushEntity_recorded.
Qed.

(** The visit of a footnote-producing note appends a footnote that holds
    the rendering of its children. *)
Lemma visit_note (c : ctx) (x : node) :
  footnoteNote x = true -> Achieves (noteRecorded c x) (transformNode c x).
Proof.
  unfold footnoteNote. intros H.
  apply andb_prop in H. destruct H as [H Hplace].
  apply andb_prop in H. destruct H as [Ex Htag].
  intros st. rewrite transformNode_element by exact Ex.
  destruct (Grows_transformChildren c x st) as (_ & _ & F1 & Hf1 & Hc1 & _).
  unfold handle, dispatch. cbv zeta.
  destruct (tagOf (nameOf x)); try discriminate.
  unfold transformNote. cbv zeta.
  destruct (isMarginPlace (attrOr (attrsOf x) "place" "")); [discriminate|].
  rewrite !bind_run. cbn [fst snd gets ret addFootnote footnotes].
  set (s1 := snd (transformChildren c x st)) in *.
  exists (F1 ++ [mkFootnote (S (footnoteCounter s1))
                            (fst (transformChildren c x st))])%list,
         (mkFootnote (S (footnoteCounter s1)) (fst (transformChildren c x st))).
  repeat split.
  - cbn [footnotes]. rewrite Hf1. now rewrite app_assoc.
  - apply in_or_app. right. now left.
  - cbn [number]. lia.
  - exists st. reflexivity.
Qed.

(** The handler of a [choice] with a recognised pair, or of an [app]
    with a [lem], leaves the state of a second traversal of the element
    it found, begun where the traversal of all children ended. *)
Lemma retraversed_state (c : ctx) (n : node) (y : located) (st : state) :
  retraversed c n = Some y ->
  snd (transformNode c n st)
  = snd (transformChildren (fst y) (snd y)
           (snd (transformChildren c n st))).
Proof.
  intros H.
  assert (En : isElem n = true).
  { destruct n; try reflexivity; discriminate H. }
  rewrite transformNode_element by exact En.
  generalize (fst (transformChildren c n st)) as children.
  generalize (snd (transformChildren c n st)) as s1.
  intros s1 children. revert H.
  unfold retraversed, handle, dispatch. cbv zeta.
  destruct (tagOf (nameOf n)); try discriminate.
  - unfold transformChoiceWith. cbv zeta.
    destruct (isSome (findByName (ByTag "sic") "sic" c n)
              && isSome (findByName (ByTag "corr") "corr" c n)).
    { intros H. rewrite bind_run. unfold childrenOfFound. rewrite H. reflexivity. }
    destruct (isSome (findByName (ByTag "abbr") "abbr" c n)
              && isSome (findByName (ByTag "expan") "expan" c n)).
    { intros H. rewrite bind_run. unfold childrenOfFound. rewrite H. reflexivity. }
    destruct (isSome (findByName (ByTag "orig") "orig" c n)
              && isSome (findByName (ByTag "reg") "reg" c n)).
    { intros H. rewrite bind_run. unfold childrenOfFound. rewrite H. reflexivity. }
    discriminate.
  - unfold transformAppWith. cbv zeta. intros H. rewrite H.
    rewrite bind_run. unfold childrenOfFound. rewrite H. cbn [isSome force].
    match goal with
    | |- context [if ?b then _ else _] => destruct b
    end; reflexivity.
Qed.

Lemma retraversed_In (c : ctx) (n : node) (y : located) :
  retraversed c n = Some y -> In y (descendants c n).
Proof.
  unfold retraversed. cbv zeta.
  destruct (tagOf (nameOf n)); try discriminate.
  - repeat match goal with
           | |- context [if ?b then _ else _] => destruct b
           end; try discriminate; intros H; now apply findByName_In in H.
  - intros H; now apply findByName_In in H.
Qed.

(** * Properties of the specification *)

(** ** Text nodes *)

Lemma escapeAttr_escapeFive (s : string) : escapeAttr s = escapeFive s.
Proof.
  unfold escapeAttr. induction s as [|c r IH]; [reflexivity|].
  cbn [escapeFive replaceAll].
  destruct (Ascii.eqb c "&") eqn:E1.
  { apply ascii_eqb_eq in E1. subst c. cbn. f_equal. f_equal. f_equal. f_equal.
    f_equal. exact IH. }
  cbn [replaceAll]. destruct (Ascii.eqb c dquote) eqn:E2.
  { apply ascii_eqb_eq in E2. subst c. cbn. do 6 f_equal. exact IH. }
  cbn [replaceAll]. destruct (Ascii.eqb c apostrophe) eqn:E3.
  { apply ascii_eqb_eq in E3. subst c. cbn. do 5 f_equal. exact IH. }
  cbn [replaceAll]. destruct (Ascii.eqb c "<") eqn:E4.
  { apply ascii_eqb_eq in E4. subst c. cbn. do 4 f_equal. exact IH. }
  cbn [replaceAll]. destruct (Ascii.eqb c ">") eqn:E5.
  { apply ascii_eqb_eq in E5. subst c. cbn. do 4 f_equal. exact IH. }
  cbn. f_equal. exact IH.
Qed.

Lemma unescape_quot (t : string) :
  unescapeFrom 0 ("&quot;" ++ t) = String dquote (unescapeFrom 0 t).
Proof. exact (f_equal (String dquote) (unescapeFrom_skip "quot;" t)). Qed.

Lemma unescape_apos (t : string) :
  unescapeFrom 0 ("&#39;" ++ t) = String apostrophe (unescapeFrom 0 t).
Proof. exact (f_equal (String apostrophe) (unescapeFrom_skip "#39;" t)). Qed.

(** Decoding the character references of an escaped attribute value
    gives the value back. *)
Lemma unescape_escapeAttr (s : string) : unescapeHTML (escapeAttr s) = s.
Proof.
  rewrite escapeAttr_escapeFive. unfold unescapeHTML.
  induction s as [|c r IH]; [reflexivity|]. cbn [escapeFive].
  destruct (Ascii.eqb c "&") eqn:E1.
  { apply ascii_eqb_eq in E1. subst c. now rewrite unescape_amp, IH. }
  destruct (Ascii.eqb c "<") eqn:E2.
  { apply ascii_eqb_eq in E2. subst c. now rewrite unescape_lt, IH. }
  destruct (Ascii.eqb c ">") eqn:E3.
  { apply ascii_eqb_eq in E3. subst c. now rewrite unescape_gt, IH. }
  destruct (Ascii.eqb c dquote) eqn:E4.
  { apply ascii_eqb_eq in E4. subst c. now rewrite unescape_quot, IH. }
  destruct (Ascii.eqb c apostrophe) eqn:E5.
  { apply ascii_eqb_eq in E5. subst c. now rewrite unescape_apos, IH. }
  change (String c "" ++ escapeFive r) with (String c (escapeFive r)).
  rewrite unescapeFrom_plain by exact E1. now rewrite IH.
Qed.

(** C1, as stated, fails: the text [it's] leaves [transformNode] as it
    is, while the escaping of the five characters turns its apostrophe
    into a character reference. *)
Lemma text_node_keeps_quotes :
  fst (transformNode [] (Text "it's") freshState) = "it's"
  /\ escapeFive "it's" = "it&#39;s"
  /\ fst (transformNode [] (Text "it's") freshState) <> escapeFive "it's".
Proof.
  split; [reflexivity|]. split; [reflexivity|]. discriminate.
Qed.

Lemma escapeHTML_copied (ch : ascii) (s : string) :
  ch <> "&"%char -> ch <> "<"%char -> ch <> ">"%char ->
  nbspAhead (String ch s) = false ->
  escapeHTML (String ch s) = String ch (escapeHTML s).
Proof.
  intros Hamp Hlt Hgt Hnb. cbn [escapeHTML].
  apply Ascii.eqb_neq in Hamp, Hlt, Hgt. rewrite Hamp, Hlt, Hgt.
  destruct s as [|b r]; [reflexivity|].
  cbn [nbspAhead] in Hnb. now rewrite Hnb.
Qed.

Lemma escapesText_escapeHTML : escapesText escapeHTML.
Proof.
  split; [reflexivity|]. repeat split; try reflexivity.
  intros ch r. apply escapeHTML_copied.
Qed.

(** The clauses of [escapesText] determine the escaper. *)
Lemma escapesText_unique (f : string -> string) :
  escapesText f -> forall s, f s = escapeHTML s.
Proof.
  intros (Hnil & Hamp & Hlt & Hgt & Hnbsp & Hcopy) s.
  remember (String.length s) as n eqn:Hn.
  revert s Hn. induction n as [n IH] using lt_wf_ind. intros s Hn.
  destruct s as [|a r]; [now rewrite Hnil|].
  cbn [String.length] in Hn.
  assert (IHr : f r = escapeHTML r) by (apply (IH (String.length r)); [lia | reflexivity]).
  destruct (Ascii.eqb_spec a "&") as [->|Na].
  { rewrite Hamp, IHr. reflexivity. }
  destruct (Ascii.eqb_spec a "<") as [->|Nl].
  { rewrite Hlt, IHr. reflexivity. }
  destruct (Ascii.eqb_spec a ">") as [->|Ng].
  { rewrite Hgt, IHr. reflexivity. }
  destruct (nbspAhead (String a r)) eqn:Hnb.
  - destruct r as [|b r2]; [discriminate Hnb|]. cbn [nbspAhead] in Hnb.
    destruct (isNBSP_eq _ _ Hnb) as [-> ->].
    rewrite Hnbsp. cbn [String.length] in Hn.
    rewrite (IH (String.length r2)) by (lia || reflexivity). reflexivity.
  - rewrite Hcopy, IHr by assumption.
    symmetry. now apply escapeHTML_copied.
Qed.

(** C1, amended: the output of [transformNode] for a text node is
    [escapeHTML] of its payload and the state is untouched; decoding the
    character references of the output gives the payload back; the
    ampersand, the angle brackets and the no-break space (the bytes 194
    and 160) become character references, and every other character is
    left as it is, the double quote and the apostrophe among them; no
    other function does just that. *)
Theorem text_node_escaping (c : ctx) (text : string) (st : state) :
  transformNode c (Text text) st = (escapeHTML text, st)
  /\ unescapeHTML (fst (transformNode c (Text text) st)) = text
  /\ (forall ch,
         ch <> "&"%char -> ch <> "<"%char -> ch <> ">"%char ->
         nbspAhead (String ch text) = false ->
         escapeHTML (String ch text) = String ch (escapeHTML text))
  /\ escapeHTML (String dquote text) = String dquote (escapeHTML text)
  /\ escapeHTML (String apostrophe text) = String apostrophe (escapeHTML text)
  /\ escapeHTML (String "&" text) = "&amp;" ++ escapeHTML text
  /\ escapeHTML (String "<" text) = "&lt;" ++ escapeHTML text
  /\ escapeHTML (String ">" text) = "&gt;" ++ escapeHTML text
  /\ escapeHTML (String (ascii_of_nat 194) (String (ascii_of_nat 160) text))
     = "&nbsp;" ++ escapeHTML text
  /\ escapesText escapeHTML
  /\ (forall f, escapesText f -> f text = escapeHTML text).
Proof.
  split; [reflexivity|]. split; [|split].
  - cbn [transformNode ret fst]. apply unescape_escapeHTML.
  - intros ch. apply escapeHTML_copied.
  - split; [apply escapeHTML_quote; auto|].
    split; [apply escapeHTML_quote; auto|].
    do 4 (split; [reflexivity|]).
    split; [apply escapesText_escapeHTML|].
    intros f Hf. now apply escapesText_unique.
Qed.

Lemma text_node_escaping_witness :
  escapeHTML "it's" = String "i" (escapeHTML "t's").
Proof.
  destruct (text_node_escaping [] "t's" freshState) as (_ & _ & H & _).
  apply H; [discriminate | discriminate | discriminate | reflexivity].
Defined.

(** ** Dates *)

(** The fallback of [formatDate] is reached exactly by the inputs that
    split at hyphens into neither two nor three parts. *)
Lemma formatDate_fallback (isoDate : string) :
  List.length (split "-" isoDate) <> 2 ->
  List.length (split "-" isoDate) <> 3 ->
  formatDate isoDate = isoDate.
Proof.
  intros H2 H3. unfold formatDate.
  destruct isoDate as [|a r]; [reflexivity|]. cbn [truthy negb].
  destruct (split "-" (String a r)) as [|p1 [|p2 [|p3 [|p4 l]]]];
    try reflexivity; simpl in H2, H3; congruence.
Qed.

Lemma formatDate_fallback_witness : formatDate "1423" = "1423".
Proof. apply formatDate_fallback; vm_compute; discriminate. Defined.

Lemma formatIsoDuration_examples :
  formatIsoDuration "P1Y2M" = "1 Jahr 2 Monate"
  /\ formatIsoDuration "R3/P1D" = "3× wiederholt (1 Tag)"
  /\ formatIsoDuration "tomorrow" = "tomorrow".
Proof. repeat split; vm_compute; reflexivity. Qed.

(** C2: the two dates are formatted as specified; the third input is
    no date but has two hyphens, and is taken for a date: the code
    returns [NaN. undefined not] where the specification has the input
    returned unchanged. *)
Theorem formatDate_hyphenated_text :
  formatDate "1423-03-15" = "15. März 1423"
  /\ formatDate "1423-03" = "März 1423"
  /\ split "-" "not-a-date" = ["not"; "a"; "date"]
  /\ formatDate "not-a-date" = "NaN. undefined not".
Proof. repeat split; vm_compute; reflexivity. Qed.

(** ** Line breaks *)

Lemma normalizedMode_transformChildren (c : ctx) (n : node) (st : state) :
  normalizedMode (snd (transformChildren c n st)) = normalizedMode st.
Proof. apply Grows_transformChildren. Qed.

(** C7: the output of an [lb] element is empty in normalized mode
    whatever its attributes; otherwise it is a hyphen and a line break
    when [break] is [no], and a line break alone in every other case. *)
Theorem lb_output (c : ctx) (ns : string) (a : list (string * string))
    (kids : list node) (st : state) :
  fst (transformNode c (Elem ns "lb" a kids) st)
  = if normalizedMode st then ""
    else match getAttribute a "break" with
         | Some breakAttr => if String.eqb breakAttr "no" then "-<br>" else "<br>"
         | None => "<br>"
         end.
Proof.
  rewrite transformNode_element by reflexivity.
  unfold handle, dispatch. cbv zeta.
  change (tagOf (nameOf (Elem ns "lb" a kids))) with T_lb. cbv iota.
  rewrite bind_run. cbn [gets fst snd].
  rewrite normalizedMode_transformChildren.
  destruct (normalizedMode st); [reflexivity|].
  cbn [attrsOf].
  destruct (getAttribute a "break") as [b|]; [|reflexivity].
  destruct (String.eqb b "no"); reflexivity.
Qed.

(** ** Rendition classes *)

Lemma getRenditionClass_bold_sup :
  getRenditionClass "bold sup" = "simple_bold simple_superscript".
Proof. vm_compute. reflexivity. Qed.

Lemma getRenditionClass_empty : getRenditionClass "" = "tei-hi".
Proof. reflexivity. Qed.

(** When no token yields a class, the fallback class is the result. *)
Lemma getRenditionClass_no_class (rend : string) :
  Forall (fun token => tokenClass token = None) (rendTokens rend) ->
  getRenditionClass rend = "tei-hi".
Proof.
  intros H. unfold getRenditionClass.
  destruct (negb (truthy rend)); [reflexivity|].
  cbv zeta.
  assert (E : rendClasses (rendTokens rend) = []).
  { induction H as [|t l Ht _ IH]; [reflexivity|]. cbn. now rewrite Ht. }
  now rewrite E.
Qed.

Lemma assoc_In (k : string) (l : list (string * string)) (v : string) :
  assoc k l = Some v -> In v (map snd l).
Proof.
  induction l as [|[k' v'] r IH]; simpl; [discriminate|].
  destruct (String.eqb k k'); [intros [= ->]; now left | auto].
Qed.

Lemma objectLookup_nonempty (own : list (string * string)) (key v : string) :
  Forall (fun x => x <> "") (map snd own) ->
  objectLookup own key = Some v -> v <> "".
Proof.
  intros Hown. unfold objectLookup.
  destruct (assoc key own) as [w|] eqn:E.
  - intros [= <-]. apply assoc_In in E.
    rewrite Forall_forall in Hown. now apply Hown.
  - intros H. apply assoc_In in H. revert v H. apply Forall_forall.
    repeat constructor; discriminate.
Qed.

Lemma rendMap_nonempty : Forall (fun x => x <> "") (map snd rendMap).
Proof. repeat constructor; discriminate. Qed.

Lemma tokenClass_nonempty (token cls : string) :
  tokenClass token = Some cls -> cls <> "".
Proof.
  unfold tokenClass.
  destruct (startsWith "simple:" token); [intros [= <-]; discriminate|].
  destruct (startsWith "simple_" token) eqn:E.
  { intros [= <-]. destruct token; discriminate. }
  destruct (startsWith "simple-" token); [intros [= <-]; discriminate|].
  cbv zeta.
  destruct (objectLookup rendMap (replaceAll "_" "-" token)) as [m|] eqn:E1.
  - intros [= <-]. eapply objectLookup_nonempty; [apply rendMap_nonempty|exact E1].
  - apply objectLookup_nonempty. apply rendMap_nonempty.
Qed.

Lemma join_nonempty (sep x : string) (l : list string) :
  x <> "" -> join sep (x :: l) <> "".
Proof.
  intros Hx. destruct x as [|a x']; [congruence|].
  destruct l; discriminate.
Qed.

(** Whatever the [rend] value, [getRenditionClass] returns at least one
    class. *)
Lemma getRenditionClass_nonempty (rend : string) :
  getRenditionClass rend <> "".
Proof.
  unfold getRenditionClass.
  destruct (negb (truthy rend)); [discriminate|]. cbv zeta.
  destruct (rendTokens rend) as [|t ts]; [discriminate|].
  induction (t :: ts) as [|u us IH]; [discriminate|].
  cbn [rendClasses].
  destruct (tokenClass u) as [cls|] eqn:E; [|exact IH].
  cbn [dedupStrings existsb]. apply join_nonempty.
  eapply tokenClass_nonempty; eassumption.
Qed.

(** The classes of a result are in the order of their first occurrence
    and none is repeated. *)
Lemma dedupStrings_NoDup (xs : list string) :
  forall seen,
    NoDup (dedupStrings seen xs)
    /\ forall x, In x (dedupStrings seen xs) -> ~ In x seen.
Proof.
  induction xs as [|x r IH]; intros seen; cbn [dedupStrings].
  - split; [constructor | intros x []].
  - destruct (existsb (String.eqb x) seen) eqn:E; [apply IH|].
    destruct (IH (x :: seen)) as [Hnd Hnot]. split.
    + constructor; [|exact Hnd]. intros H. apply (Hnot x H). now left.
    + intros y [<-|Hy].
      * intros H. apply existsb_key in H. congruence.
      * intros H. apply (Hnot y Hy). now right.
Qed.

(** C8: [bold sup] and the empty string are mapped as specified, but
    the token [constructor], which the synonym table does not hold
    and which has none of the pass-through prefixes, is not dropped: the
    lookup in the object literal finds the property of that name that
    every object inherits, and its text is the result instead of the
    fallback class. *)
Theorem getRenditionClass_inherited_property :
  getRenditionClass "bold sup" = "simple_bold simple_superscript"
  /\ getRenditionClass "" = "tei-hi"
  /\ rendTokens "constructor" = ["constructor"]
  /\ assoc "constructor" rendMap = None
  /\ getRenditionClass "constructor" = nativeFunction "Object"
  /\ getRenditionClass "constructor" <> "tei-hi".
Proof. repeat split; vm_compute; try reflexivity; discriminate. Qed.

(** ** Repeated traversal *)

Lemma grows_number_bound (s s' : state) (F : list footnote) (f : footnote) :
  grows s s' -> footnotes s' = (footnotes s ++ F)%list -> In f F ->
  number f <= footnoteCounter s'.
Proof.
  intros (_ & _ & F' & Hf & Hc & Hn) HF Hin.
  rewrite Hf in HF. apply app_inv_head in HF. subst F'.
  apply (in_map number) in Hin. rewrite Hn in Hin.
  apply in_seq in Hin. lia.
Qed.

(** C3, as stated, fails: in [sampleChoice] the pair [sic]/[corr] is
    present and the person [Bert] is nested inside the [choice], in its
    [corr] half, yet it is appended to the register once, not twice. *)
Lemma choice_corr_person_once :
  retraversed [] sampleChoice = Some (inChoice 0, sampleSic)
  /\ In (inCorr 1, sampleBert) (descendants [] sampleChoice)
  /\ semanticKind (inCorr 1) sampleBert = Some person
  /\ persons (snd (transformNode [] sampleChoice freshState))
     = [entityOf sampleAnna; entityOf sampleBert; entityOf sampleAnna]
  /\ entityOf sampleBert <> entityOf sampleAnna.
Proof.
  split; [reflexivity|]. split; [vm_compute; tauto|].
  split; [reflexivity|]. split; [vm_compute; reflexivity|].
  vm_compute. discriminate.
Qed.

(** Below two nested re-traversals the effect is performed four
    times. *)
Lemma nested_choice_person_four_times :
  persons (snd (transformNode [] nestedChoice freshState))
  = [entityOf sampleBert; entityOf sampleBert;
     entityOf sampleBert; entityOf sampleBert].
Proof. vm_compute. reflexivity. Qed.

(** C3, amended: whenever the handler of a [choice] with a recognised
    pair, or of an [app] with a [lem], transforms the children of the
    element [r] it found a second time, every semantic element [x] below
    [r] has its entity appended to its register by the first traversal
    and again by the second, and every footnote-producing note below [r]
    gets a footnote from each traversal, the second with a larger number
    than the first. *)
Theorem retraversed_effects_twice (c : ctx) (n : node) (cr : ctx) (r : node)
    (cx : ctx) (x : node) (st : state) :
  retraversed c n = Some (cr, r) ->
  In (cx, x) (descendants cr r) ->
  (forall k, semanticKind cx x = Some k ->
     exists d1 d2,
       register k (snd (transformNode c n st))
       = (register k st ++ d1 ++ d2)%list
       /\ In (entityOf x) d1 /\ In (entityOf x) d2)
  /\ (footnoteNote x = true ->
      exists F1 F2 f1 f2,
        footnotes (snd (transformNode c n st))
        = (footnotes st ++ F1 ++ F2)%list
        /\ In f1 F1 /\ In f2 F2 /\ number f1 < number f2
        /\ (exists s1, content f1 = fst (transformChildren cx x s1))
        /\ (exists s2, content f2 = fst (transformChildren cx x s2))).
Proof.
  intros Hr Hx.
  pose proof (retraversed_In _ _ _ Hr) as Hrn.
  pose proof (descendants_trans (cr, r) (cx, x) n c Hrn Hx) as Hxn.
  rewrite (retraversed_state _ _ _ st Hr). cbn [fst snd].
  set (s1 := snd (transformChildren c n st)).
  split.
  - intros k Hk.
    pose proof (visit_semantic cx x k Hk) as Hvisit.
    destruct (Achieves_transformChildren (entityRecorded k x)
                (entityRecorded_before k x) (entityRecorded_after k x)
                cx x Hvisit n c Hxn st) as (d1 & E1 & In1).
    destruct (Achieves_transformChildren (entityRecorded k x)
                (entityRecorded_before k x) (entityRecorded_after k x)
                cx x Hvisit r cr Hx s1) as (d2 & E2 & In2).
    exists d1, d2. split; [|split; assumption].
    rewrite E2. unfold s1. rewrite E1. now rewrite app_assoc.
  - intros Hnote.
    pose proof (visit_note cx x Hnote) as Hvisit.
    destruct (Achieves_transformChildren (noteRecorded cx x)
                (noteRecorded_before cx x) (noteRecorded_after cx x)
                cx x Hvisit n c Hxn st) as (F1 & f1 & E1 & In1 & _ & C1).
    destruct (Achieves_transformChildren (noteRecorded cx x)
                (noteRecorded_before cx x) (noteRecorded_after cx x)
                cx x Hvisit r cr Hx s1) as (F2 & f2 & E2 & In2 & N2 & C2).
    exists F1, F2, f1, f2. repeat split; try assumption.
    + rewrite E2. unfold s1. rewrite E1. now rewrite app_assoc.
    + pose proof (grows_number_bound st s1 F1 f1
                    (Grows_transformChildren c n st) E1 In1).
      lia.
Qed.

Lemma retraversed_effects_twice_witness :
  (exists d1 d2,
     register person (snd (transformNode [] sampleChoice freshState))
     = (register person freshState ++ d1 ++ d2)%list
     /\ In (entityOf sampleAnna) d1 /\ In (entityOf sampleAnna) d2)
  /\ (exists F1 F2 f1 f2,
        footnotes (snd (transformNode [] sampleChoice freshState))
        = (footnotes freshState ++ F1 ++ F2)%list
        /\ In f1 F1 /\ In f2 F2 /\ number f1 < number f2
        /\ (exists s1, content f1 = fst (transformChildren (inSic 1) sampleNote s1))
        /\ (exists s2, content f2 = fst (transformChildren (inSic 1) sampleNote s2))).
Proof.
  split.
  - destruct (retraversed_effects_twice [] sampleChoice (inChoice 0) sampleSic
                (inSic 2) sampleAnna freshState) as [H _].
    + reflexivity.
    + simpl. auto.
    + apply (H person). reflexivity.
  - destruct (retraversed_effects_twice [] sampleChoice (inChoice 0) sampleSic
                (inSic 1) sampleNote freshState) as [_ H].
    + reflexivity.
    + simpl. auto.
    + apply H. reflexivity.
Defined.

(** ** Footnote numbering *)

Lemma Grows_transformEach (ps : list located) : Grows (transformEach ps).
Proof.
  induction ps as [|p r IH]; simpl; [apply Grows_ret|].
  apply Grows_bind; [apply Grows_transformChildren|]. intros item.
  apply Grows_bind; [exact IH|]. intros items. apply Grows_ret.
Qed.

Lemma Grows_transformBackMatter (c : ctx) (backNode : node) :
  Grows (transformBackMatter c backNode).
Proof.
  unfold transformBackMatter. cbv zeta.
  apply Grows_bind; [apply Grows_transformEach|]. intros items.
  destruct items; grows_auto.
Qed.

Lemma Grows_extractSummary (xmlDoc : node) : Grows (extractSummary xmlDoc).
Proof.
  unfold extractSummary.
  destruct (docFindByName "teiHeader" xmlDoc) as [[hc header]|];
    [|apply Grows_ret].
  destruct (findByName (ByTag "summary") "summary" hc header) as [[sc summary]|];
    [|apply Grows_ret].
  grows_auto.
Qed.

#[export] Hint Resolve Grows_transformBackMatter Grows_extractSummary : grows.

Lemma Grows_walkDocument (xmlDoc : node) : Grows (walkDocument xmlDoc).
Proof.
  unfold walkDocument.
  apply Grows_bind; [apply Grows_extractSummary|]. intros summary.
  apply Grows_bind.
  { destruct (docFindByName "body" xmlDoc) as [[c n]|]; grows_auto. }
  intros body. apply Grows_bind; [|intros back; apply Grows_ret].
  destruct (docFindByName "back" xmlDoc) as [[c n]|]; grows_auto.
Qed.

(** [transform] in terms of the state after its assignments. *)
Lemma transform_run (localeCompare : string -> string -> Z) (xmlDoc : node)
    (normalized : bool) (st : state) :
  let w := walkDocument xmlDoc (resetState normalized) in
  transform localeCompare xmlDoc normalized st
  = (Result.mk (extractMetadata xmlDoc) (fst (fst (fst w)))
       (extractHeading xmlDoc) (snd (fst (fst w))) (snd (fst w))
       (footnotes (snd w))
       (Registers.mk
          (deduplicateEntities localeCompare (persons (snd w)))
          (deduplicateEntities localeCompare (places (snd w)))
          (deduplicateEntities localeCompare (organizations (snd w)))
          (deduplicateEntities localeCompare (terms (snd w)))),
     snd w).
Proof.
  cbv zeta. unfold transform, walkDocument.
  rewrite !bind_run. reflexivity.
Qed.




(** The footnotes [transform] returns are numbered from 1. *)
Lemma transform_footnotes_numbered (localeCompare : string -> string -> Z)
    (xmlDoc : node) (normalized : bool) (st : state) :
  map number
      (Result.footnotes (fst (transform localeCompare xmlDoc normalized st)))
  = seq 1 (List.length
             (Result.footnotes
                (fst (transform localeCompare xmlDoc normalized st)))).
Proof.
  rewrite transform_run. cbv zeta. cbn [fst Result.footnotes].
  destruct (Grows_walkDocument xmlDoc (resetState normalized))
    as (_ & _ & F & Hf & _ & Hn).
  cbn [resetState footnotes footnoteCounter app] in Hf, Hn.
  rewrite Hf. exact Hn.
Qed.













(** ** Independence of calls *)

(** C6: a call of [transform] after another call on the same engine
    returns what the same call returns on a fresh engine, and leaves the
    engine in the same state; its footnotes are numbered from 1. *)
Theorem transform_independent (localeCompare : string -> string -> Z)
    (d1 d2 : node) (normalized1 normalized2 : bool) (st : state) :
  let first := transform localeCompare d1 normalized1 st in
  transform localeCompare d2 normalized2 (snd first)
  = transform localeCompare d2 normalized2 freshState
  /\ map number
         (Result.footnotes
            (fst (transform localeCompare d2 normalized2 (snd first))))
     = seq 1 (List.length
                (Result.footnotes
                   (fst (transform localeCompare d2 normalized2 (snd first))))).
Proof.
  cbv zeta. split.
  - rewrite !transform_run. reflexivity.
  - apply transform_footnotes_numbered.
Qed.

(** ** Tooltips *)

(** The [switch] on an element with a given name, its children
    transformed to [children] from the state [st]. *)
Ltac run_case nm T :=
  intros; rewrite transformNode_element by reflexivity;
  unfold handle, dispatch; cbv zeta;
  match goal with
  | |- context [tagOf (nameOf (Elem ?ns nm ?a ?kids))] =>
      change (tagOf (nameOf (Elem ns nm a kids))) with T
  end;
  cbv iota; cbn [attrsOf ret fst].

(** C10: the [pb] handler puts the [facs] value into the [data-tooltip]
    attribute as it is: for the value [quotedValue] the emitted text
    differs from the one with the value escaped, and the attribute ends
    at the quote of the value.  The handlers of [add], [supplied],
    [unclear], [gap], [damage], [figure] and [num] pass what they put
    into [data-tooltip] through [escapeAttr], and the attribute of
    [sampleUnclear] holds the whole escaped value.  The handler of [del]
    does not: it puts its [rend] value into the attribute as it is, so
    that the attribute of [sampleDel] ends at the quote of the value as
    well. *)
Theorem pb_facs_unescaped :
  (forall c ns a kids st,
      truthy (attrOr a "facs" "") = true ->
      fst (transformNode c (Elem ns "pb" a kids) st)
      = tpl "<span class='pb-marker' data-tooltip='Faksimile: "
        ++ attrOr a "facs" "" ++ tpl "' data-tooltip-type='page'>["
        ++ (if truthy (attrOr a "n" "") then "S. " ++ attrOr a "n" "" else "")
        ++ "]</span>")
  /\ (forall c ns a kids st,
         fst (transformNode c (Elem ns "unclear" a kids) st)
         = tpl "<span class='tei-unclear text-critical' data-tooltip='"
           ++ escapeAttr (attrOr a "reason" "unsichere Lesung")
           ++ tpl "' data-tooltip-type='textcritical'>"
           ++ fst (transformChildren c (Elem ns "unclear" a kids) st)
           ++ "</span>")
  /\ (forall c ns a kids st,
         fst (transformNode c (Elem ns "del" a kids) st)
         = tpl "<span class='tei-del text-critical' data-tooltip='Gestrichen: "
           ++ attrOr a "rend" "durchgestrichen"
           ++ tpl "' data-tooltip-type='textcritical'>"
           ++ fst (transformChildren c (Elem ns "del" a kids) st)
           ++ "</span>")
  /\ fst (transformNode [] samplePb freshState)
     <> tpl "<span class='pb-marker' data-tooltip='Faksimile: "
        ++ escapeAttr quotedValue ++ tpl "' data-tooltip-type='page'>[]</span>"
  /\ attrValue "data-tooltip" (fst (transformNode [] samplePb freshState))
     = Some "Faksimile: a"
  /\ attrValue "data-tooltip" (fst (transformNode [] sampleUnclear freshState))
     = Some (escapeAttr quotedValue)
  /\ unescapeHTML (escapeAttr quotedValue) = quotedValue
  /\ (forall c ns a kids st,
         fst (transformNode c (Elem ns "add" a kids) st)
         = tpl "<span class='tei-add text-critical' data-tooltip='"
           ++ escapeAttr
                ("Hinzufügung (" ++ attrOr a "place" "unbekannt" ++ ")"
                 ++ (if truthy (attrOr a "hand" "")
                     then " von " ++ attrOr a "hand" "" else ""))
           ++ tpl "' data-tooltip-type='textcritical'>"
           ++ fst (transformChildren c (Elem ns "add" a kids) st)
           ++ "</span>")
  /\ (forall c ns a kids st,
         fst (transformNode c (Elem ns "supplied" a kids) st)
         = tpl "<span class='tei-supplied text-critical' data-tooltip='"
           ++ escapeAttr
                ("Ergänzung"
                 ++ (if truthy (attrOr a "reason" "")
                     then ": " ++ attrOr a "reason" "" else "")
                 ++ (if truthy (orElse (attrOr a "source" "") (attrOr a "resp" ""))
                     then " (" ++ orElse (attrOr a "source" "") (attrOr a "resp" "")
                          ++ ")"
                     else ""))
           ++ tpl "' data-tooltip-type='textcritical'>"
           ++ fst (transformChildren c (Elem ns "supplied" a kids) st)
           ++ "</span>")
  /\ (forall c ns a kids st,
         fst (transformNode c (Elem ns "gap" a kids) st)
         = tpl "<span class='tei-gap text-critical' data-tooltip='"
           ++ escapeAttr
                ("Lücke"
                 ++ (if truthy (attrOr a "reason" "")
                     then ": " ++ attrOr a "reason" "" else "")
                 ++ (if truthy (attrOr a "quantity" "") && truthy (attrOr a "unit" "")
                     then " (" ++ attrOr a "quantity" "" ++ " "
                          ++ attrOr a "unit" "" ++ ")"
                     else ""))
           ++ tpl "' data-tooltip-type='textcritical'></span>")
  /\ (forall c ns a kids st,
         fst (transformNode c (Elem ns "damage" a kids) st)
         = tpl "<span class='tei-damage text-critical' data-tooltip='"
           ++ escapeAttr (attrOr a "agent" "Beschädigung")
           ++ tpl "' data-tooltip-type='textcritical'>"
           ++ fst (transformChildren c (Elem ns "damage" a kids) st)
           ++ "</span>")
  /\ (forall c ns a kids st,
         fst (transformNode c (Elem ns "figure" a kids) st)
         = tpl "<span class='tei-figure' data-tooltip='Abbildung: "
           ++ escapeAttr (attrOr a "type" "Abbildung")
           ++ tpl "' data-tooltip-type='figure'>["
           ++ attrOr a "type" "Abbildung" ++ "]</span>")
  /\ (forall c ns a kids st,
         truthy (attrOr a "value" "") = true ->
         fst (transformNode c (Elem ns "num" a kids) st)
         = tpl "<span class='tei-num text-critical' data-tooltip='Wert: "
           ++ escapeAttr (attrOr a "value" "")
           ++ tpl "' data-tooltip-type='num'>"
           ++ fst (transformChildren c (Elem ns "num" a kids) st)
           ++ "</span>")
  /\ fst (transformNode [] sampleDel freshState)
     = tpl "<span class='tei-del text-critical' data-tooltip='Gestrichen: "
       ++ quotedValue ++ tpl "' data-tooltip-type='textcritical'></span>"
  /\ fst (transformNode [] sampleDel freshState)
     <> tpl "<span class='tei-del text-critical' data-tooltip='Gestrichen: "
        ++ escapeAttr quotedValue
        ++ tpl "' data-tooltip-type='textcritical'></span>"
  /\ attrValue "data-tooltip" (fst (transformNode [] sampleDel freshState))
     = Some "Gestrichen: a".
Proof.
  split; [|split; [|split]].
  - run_case "pb" T_pb.
    match goal with H : truthy _ = true |- _ => rewrite H end.
    rewrite !string_app_assoc. reflexivity.
  - run_case "unclear" T_unclear. reflexivity.
  - run_case "del" T_del. reflexivity.
  - split; [vm_compute; discriminate|].
    do 3 (split; [vm_compute; reflexivity|]).
    split; [run_case "add" T_add; reflexivity|].
    split; [run_case "supplied" T_supplied; reflexivity|].
    split; [run_case "gap" T_gap; reflexivity|].
    split; [run_case "damage" T_damage; reflexivity|].
    split; [run_case "figure" T_figure; reflexivity|].
    split.
    { run_case "num" T_num.
      match goal with H : truthy _ = true |- _ => rewrite H end.
      reflexivity. }
    split; [vm_compute; reflexivity|].
    split; [vm_compute; discriminate|].
    vm_compute; reflexivity.
Qed.

Lemma pb_facs_unescaped_witness :
  fst (transformNode [] samplePb freshState)
  = tpl "<span class='pb-marker' data-tooltip='Faksimile: "
    ++ quotedValue ++ tpl "' data-tooltip-type='page'>[]</span>".
Proof.
  destruct pb_facs_unescaped as (H & _).
  unfold samplePb. rewrite H; reflexivity.
Defined.

(** ** The entity register *)


Lemma mapHas_keys {V : Type} (seen : list (string * V)) (key : string) :
  mapHas seen key = existsb (String.eqb key) (map fst seen).
Proof.
  unfold mapHas. induction seen as [|[k v] r IH]; [reflexivity|].
  simpl. rewrite IH. now rewrite String.eqb_sym.
Qed.

Lemma mapSet_fresh {V : Type} (seen : list (string * V)) (key : string) (v : V) :
  mapHas seen key = false -> mapSet seen key v = (seen ++ [(key, v)])%list.
Proof.
  unfold mapHas. induction seen as [|[k w] r IH]; [reflexivity|].
  simpl. intros H. apply orb_false_iff in H. destruct H as [Hk Hr].
  rewrite Hk. now rewrite IH.
Qed.

(** The loop of [deduplicateEntities], started from any map. *)
Lemma collect_from (l : list entity) :
  forall seen : list (string * entity),
    mapValues
      (fold_left (fun seen e =>
                    let key := entityKey e in
                    if negb (mapHas seen key) then mapSet seen key e else seen)
                 l seen)
    = (mapValues seen ++ keepFirsts (map fst seen) l)%list.
Proof.
  induction l as [|e r IH]; intros seen; cbn [fold_left keepFirsts].
  - now rewrite app_nil_r.
  - cbv zeta. rewrite IH, <- mapHas_keys.
    destruct (mapHas seen (entityKey e)) eqn:E; cbn [negb]; [reflexivity|].
    rewrite mapSet_fresh by exact E.
    unfold mapValues. rewrite !map_app. cbn [map fst snd].
    now rewrite <- app_assoc.
Qed.

Lemma collect_keepFirsts (l : list entity) :
  mapValues (collect l) = keepFirsts [] l.
Proof. unfold collect. now rewrite collect_from. Qed.

Lemma keepFirsts_In (l : list entity) :
  forall ks e,
    In e (keepFirsts ks l)
    <-> ~ In (entityKey e) ks /\ firstWithKey e l = Some e.
Proof.
  unfold firstWithKey.
  induction l as [|x r IH]; intros ks e; cbn [keepFirsts find].
  - split; [intros [] | intros [_ H]; discriminate].
  - destruct (existsb (String.eqb (entityKey x)) ks) eqn:Ex.
    + apply existsb_key in Ex. rewrite IH.
      destruct (String.eqb (entityKey x) (entityKey e)) eqn:Ek.
      * apply String.eqb_eq in Ek. rewrite <- Ek. tauto.
      * tauto.
    + assert (Hx : ~ In (entityKey x) ks).
      { intros H. apply existsb_key in H. congruence. }
      cbn [In]. rewrite IH.
      destruct (String.eqb (entityKey x) (entityKey e)) eqn:Ek.
      * apply String.eqb_eq in Ek. split.
        -- intros [->|[H _]].
           ++ split; [exact Hx | reflexivity].
           ++ exfalso. apply H. apply in_or_app. right. left. exact Ek.
        -- intros [_ [= ->]]. now left.
      * apply String.eqb_neq in Ek. split.
        -- intros [->|[H1 H2]]; [congruence|].
           split; [|exact H2]. intros H. apply H1. apply in_or_app. now left.
        -- intros [H1 H2]. right. split; [|exact H2].
           intros H. apply in_app_or in H. destruct H as [H|[H|[]]];
             [tauto | congruence].
Qed.

Lemma keepFirsts_NoDup (l : list entity) :
  forall ks, NoDup (map entityKey (keepFirsts ks l)).
Proof.
  induction l as [|x r IH]; intros ks; cbn [keepFirsts]; [constructor|].
  destruct (existsb (String.eqb (entityKey x)) ks); [apply IH|].
  cbn [map]. constructor; [|apply IH].
  intros H. apply in_map_iff in H. destruct H as (e & Ek & Hin).
  apply keepFirsts_In in Hin. destruct Hin as [Hin _].
  apply Hin. apply in_or_app. right. left. now symmetry.
Qed.

(** A list without repeated keys is kept whole. *)
Lemma keepFirsts_id (l : list entity) :
  forall ks,
    NoDup (map entityKey l) ->
    (forall e, In e l -> ~ In (entityKey e) ks) ->
    keepFirsts ks l = l.
Proof.
  induction l as [|x r IH]; intros ks Hnd Hks; [reflexivity|].
  cbn [keepFirsts]. inversion Hnd as [|k ks' Hx Hr]; subst.
  destruct (existsb (String.eqb (entityKey x)) ks) eqn:Ex.
  - apply existsb_key in Ex. exfalso. apply (Hks x); [now left | exact Ex].
  - f_equal. apply IH; [exact Hr|].
    intros e He H. apply in_app_or in H. destruct H as [H|[H|[]]].
    + apply (Hks e); [now right | exact H].
    + apply Hx. rewrite H. now apply in_map.
Qed.

Section SortFacts.

Context {A : Type} (compareFn : A -> A -> Z).

Local Abbreviation le := (leBy compareFn).

Lemma insertSorted_Permutation (x : A) (l : list A) :
  Permutation (insertSorted compareFn x l) (x :: l).
Proof.
  induction l as [|y r IH]; cbn [insertSorted]; [reflexivity|].
  destruct (compareFn x y <=? 0)%Z; [reflexivity|].
  rewrite IH. apply perm_swap.
Qed.

Lemma sort_Permutation (l : list A) : Permutation (sort compareFn l) l.
Proof.
  induction l as [|x r IH]; cbn [sort fold_right]; [reflexivity|].
  rewrite insertSorted_Permutation. now constructor.
Qed.

(** Sorting leaves a sorted list as it is. *)
Lemma sort_sorted_id (l : list A) :
  StronglySorted le l -> sort compareFn l = l.
Proof.
  induction 1 as [|x r Hr IH Hx]; [reflexivity|].
  cbn [sort fold_right]. fold (sort compareFn r). rewrite IH.
  destruct r as [|y r']; [reflexivity|]. cbn [insertSorted].
  inversion Hx as [|? ? Hxy _]; subst.
  unfold le in Hxy. apply Z.leb_le in Hxy. now rewrite Hxy.
Qed.

Hypothesis compareFn_total :
  forall a b, (compareFn a b <= 0)%Z \/ (compareFn b a <= 0)%Z.
Hypothesis compareFn_trans :
  forall a b c,
    (compareFn a b <= 0)%Z -> (compareFn b c <= 0)%Z -> (compareFn a c <= 0)%Z.

Lemma insertSorted_sorted (x : A) (l : list A) :
  StronglySorted le l -> StronglySorted le (insertSorted compareFn x l).
Proof.
  induction 1 as [|y r Hr IH Hy]; cbn [insertSorted].
  - constructor; constructor.
  - destruct (compareFn x y <=? 0)%Z eqn:E.
    + apply Z.leb_le in E. constructor; [now constructor|].
      constructor; [exact E|].
      eapply Forall_impl; [|exact Hy]. intros z Hz.
      eapply compareFn_trans; eassumption.
    + apply Z.leb_gt in E. constructor; [exact IH|].
      assert (Hyx : le y x).
      { destruct (compareFn_total x y) as [H|H]; [lia | exact H]. }
      eapply Permutation_Forall.
      * symmetry. apply insertSorted_Permutation.
      * constructor; assumption.
Qed.

Lemma sort_sorted (l : list A) : StronglySorted le (sort compareFn l).
Proof.
  induction l as [|x r IH]; cbn [sort fold_right]; [constructor|].
  now apply insertSorted_sorted.
Qed.

End SortFacts.

Lemma deduplicateEntities_Permutation (localeCompare : string -> string -> Z)
    (entities : list entity) :
  Permutation (deduplicateEntities localeCompare entities)
              (keepFirsts [] entities).
Proof.
  unfold deduplicateEntities. rewrite collect_keepFirsts.
  apply sort_Permutation.
Qed.

Lemma firstWithKey_In (e : entity) (l : list entity) :
  firstWithKey e l = Some e -> In e l.
Proof. unfold firstWithKey. intros H. now apply find_some in H. Qed.

Lemma byLength_total (a b : string) :
  (byLength a b <= 0)%Z \/ (byLength b a <= 0)%Z.
Proof. unfold byLength. lia. Qed.

Lemma byLength_trans (a b c : string) :
  (byLength a b <= 0)%Z -> (byLength b c <= 0)%Z -> (byLength a c <= 0)%Z.
Proof. unfold byLength. lia. Qed.

Section RegisterOrder.

(** The collation orders any two names, consistently. *)
Variable localeCompare : string -> string -> Z.
Hypothesis localeCompare_total :
  forall a b, (localeCompare a b <= 0)%Z \/ (localeCompare b a <= 0)%Z.
Hypothesis localeCompare_trans :
  forall a b c,
    (localeCompare a b <= 0)%Z -> (localeCompare b c <= 0)%Z ->
    (localeCompare a c <= 0)%Z.

Lemma deduplicateEntities_sorted (entities : list entity) :
  StronglySorted (nameLe localeCompare)
                 (deduplicateEntities localeCompare entities).
Proof.
  unfold deduplicateEntities.
  apply (sort_sorted (compareNames localeCompare)); unfold compareNames.
  - intros a b. apply localeCompare_total.
  - intros a b c. apply localeCompare_trans.
Qed.

(** C4: [deduplicateEntities] returns, for every key ([ref] when it is
    not empty, [name] otherwise), the first entry of the input with that
    key and no other entry; no key occurs twice in the output, every key
    of the output is a key of the input, and the output is in ascending
    order of [name] under the collation. *)
Theorem deduplicateEntities_first_seen_sorted (entities : list entity) :
  let out := deduplicateEntities localeCompare entities in
  (forall e, In e out <-> firstWithKey e entities = Some e)
  /\ NoDup (map entityKey out)
  /\ incl (map entityKey out) (map entityKey entities)
  /\ StronglySorted (nameLe localeCompare) out.
Proof.
  cbv zeta.
  pose proof (deduplicateEntities_Permutation localeCompare entities) as Hperm.
  assert (Hin : forall e,
             In e (deduplicateEntities localeCompare entities)
             <-> firstWithKey e entities = Some e).
  { intros e. split.
    - intros H. apply (Permutation_in _ Hperm) in H.
      now apply keepFirsts_In in H.
    - intros H. apply (Permutation_in _ (Permutation_sym Hperm)).
      apply keepFirsts_In. split; [intros [] | exact H]. }
  split; [exact Hin|]. split; [|split].
  - eapply Permutation_NoDup.
    + apply Permutation_map. symmetry. exact Hperm.
    + apply keepFirsts_NoDup.
  - intros k Hk. apply in_map_iff in Hk. destruct Hk as (e & <- & He).
    apply in_map. apply firstWithKey_In. now apply Hin.
  - apply deduplicateEntities_sorted.
Qed.

(** C9: [deduplicateEntities] applied to its own output returns that
    output. *)
Theorem deduplicateEntities_idempotent (entities : list entity) :
  deduplicateEntities localeCompare
    (deduplicateEntities localeCompare entities)
  = deduplicateEntities localeCompare entities.
Proof.
  pose proof (deduplicateEntities_Permutation localeCompare entities) as Hperm.
  set (out := deduplicateEntities localeCompare entities) in *.
  unfold deduplicateEntities at 1. rewrite collect_keepFirsts.
  rewrite keepFirsts_id.
  - apply (sort_sorted_id (compareNames localeCompare)).
    apply deduplicateEntities_sorted.
  - eapply Permutation_NoDup.
    + apply Permutation_map. symmetry. exact Hperm.
    + apply keepFirsts_NoDup.
  - intros e _ [].
Qed.

End RegisterOrder.

Lemma deduplicateEntities_first_seen_sorted_witness :
  let out := deduplicateEntities byLength sampleEntities in
  (forall e, In e out <-> firstWithKey e sampleEntities = Some e)
  /\ NoDup (map entityKey out)
  /\ incl (map entityKey out) (map entityKey sampleEntities)
  /\ StronglySorted (nameLe byLength) out.
Proof.
  apply (deduplicateEntities_first_seen_sorted byLength
           byLength_total byLength_trans sampleEntities).
Defined.

Lemma deduplicateEntities_idempotent_witness :
  deduplicateEntities byLength (deduplicateEntities byLength sampleEntities)
  = deduplicateEntities byLength sampleEntities.
Proof.
  apply (deduplicateEntities_idempotent byLength
           byLength_total byLength_trans sampleEntities).
Defined.

(** ** Further properties of the handlers *)

(** A traversal never changes the mode flag, only appends to the
    registers and to the footnotes, and numbers the footnotes it appends
    onward from the counter. *)
Theorem traversal_only_appends (c : ctx) (n : node) (st : state) :
  grows st (snd (transformNode c n st)).
Proof. apply Grows_transformNode. Qed.

(** X6: a [choice] in which a [sic] and a [corr] are found returns one
    [span]: its tooltip is the text of the [corr] found, trimmed and
    escaped, after [Korrektur:], and its content is what transforming
    the children of the [sic] found gives, once more and from the state
    the children of the [choice] left; the state that second
    transformation leaves is the state returned. *)
Theorem choice_sic_corr_rendering (c : ctx) (ns : string)
    (a : list (string * string)) (kids : list node) (sic corr : located)
    (st : state) :
  let n := Elem ns "choice" a kids in
  findByName (ByTag "sic") "sic" c n = Some sic ->
  findByName (ByTag "corr") "corr" c n = Some corr ->
  let again :=
    transformChildren (fst sic) (snd sic) (snd (transformChildren c n st)) in
  transformNode c n st
  = (tpl "<span class='text-critical' data-tooltip='Korrektur: "
     ++ escapeAttr (trim (textContent (snd corr)))
     ++ tpl "' data-tooltip-type='textcritical'>"
     ++ fst again ++ "</span>",
     snd again).
Proof.
  cbv zeta. intros Hsic Hcorr.
  rewrite transformNode_element by reflexivity.
  unfold handle, dispatch. cbv zeta.
  change (tagOf (nameOf (Elem ns "choice" a kids))) with T_choice. cbv iota.
  unfold transformChoiceWith. cbv zeta. rewrite Hsic, Hcorr.
  cbn [isSome andb]. rewrite bind_run. unfold childrenOfFound. rewrite Hsic.
  destruct corr as [cc corrNode]. reflexivity.
Qed.

Lemma choice_sic_corr_rendering_witness :
  fst (transformNode [] sampleChoice freshState)
  = tpl "<span class='text-critical' data-tooltip='Korrektur: "
    ++ escapeAttr (trim (textContent sampleCorr))
    ++ tpl "' data-tooltip-type='textcritical'>"
    ++ fst (transformChildren (inChoice 0) sampleSic
              (snd (transformChildren [] sampleChoice freshState)))
    ++ "</span>".
Proof.
  unfold sampleChoice.
  rewrite (choice_sic_corr_rendering [] TEI_NS [] [sampleSic; sampleCorr]
             (inChoice 0, sampleSic) (inChoice 1, sampleCorr) freshState
             eq_refl eq_refl).
  reflexivity.
Defined.

(** * Further properties of the transform *)

(** ** What the escapers leave out *)

Lemma occurs_app (c : ascii) (a b : string) :
  occurs c (a ++ b) = occurs c a || occurs c b.
Proof.
  induction a as [|x a IH]; [reflexivity|].
  simpl. rewrite IH. now rewrite orb_assoc.
Qed.

Lemma escapeFive_clean (s : string) :
  occurs dquote (escapeFive s) = false
  /\ occurs apostrophe (escapeFive s) = false
  /\ occurs "<" (escapeFive s) = false
  /\ occurs ">" (escapeFive s) = false.
Proof.
  induction s as [|c r (H1 & H2 & H3 & H4)]; [repeat split|].
  cbn [escapeFive]. rewrite !occurs_app, H1, H2, H3, H4, !orb_false_r.
  destruct (Ascii.eqb c "&"); [repeat split|].
  destruct (Ascii.eqb c "<") eqn:Elt; [repeat split|].
  destruct (Ascii.eqb c ">") eqn:Egt; [repeat split|].
  destruct (Ascii.eqb c dquote) eqn:Edq; [repeat split|].
  destruct (Ascii.eqb c apostrophe) eqn:Eap; [repeat split|].
  cbn [occurs]. rewrite Elt, Egt, Edq, Eap. repeat split.
Qed.

Lemma upToQuote_closing (v rest : string) :
  occurs dquote v = false ->
  upToQuote (v ++ String dquote rest) = v.
Proof.
  induction v as [|c v IH]; intros H.
  - reflexivity.
  - simpl in H |- *. apply orb_false_iff in H. destruct H as [Hc Hv].
    rewrite Hc. f_equal. now apply IH.
Qed.

(** X7: an attribute value that went through [escapeAttr] holds no
    double quote, no apostrophe, no [<] and no [>]; put between double
    quotes it is read back whole, up to the closing quote of the
    template. *)
Theorem escapeAttr_no_delimiter (text : string) :
  occurs dquote (escapeAttr text) = false
  /\ occurs apostrophe (escapeAttr text) = false
  /\ occurs "<" (escapeAttr text) = false
  /\ occurs ">" (escapeAttr text) = false
  /\ forall rest,
       upToQuote (escapeAttr text ++ String dquote rest) = escapeAttr text.
Proof.
  rewrite escapeAttr_escapeFive.
  destruct (escapeFive_clean text) as (H1 & H2 & H3 & H4).
  repeat split; try assumption.
  intros rest. now apply upToQuote_closing.
Qed.

Lemma escapeHTML_no_angle_bounded (n : nat) :
  forall s, String.length s <= n ->
    occurs "<" (escapeHTML s) = false /\ occurs ">" (escapeHTML s) = false.
Proof.
  induction n as [|n IH]; intros s Hlen.
  - destruct s; [split; reflexivity | simpl in Hlen; lia].
  - destruct s as [|a r]; [split; reflexivity|].
    simpl in Hlen. cbn [escapeHTML].
    assert (Hr : occurs "<" (escapeHTML r) = false
                 /\ occurs ">" (escapeHTML r) = false) by (apply IH; lia).
    destruct Hr as [Hr1 Hr2].
    destruct (Ascii.eqb a "&") eqn:Eamp.
    { rewrite !occurs_app, Hr1, Hr2. split; reflexivity. }
    destruct (Ascii.eqb a "<") eqn:Elt.
    { rewrite !occurs_app, Hr1, Hr2. split; reflexivity. }
    destruct (Ascii.eqb a ">") eqn:Egt.
    { rewrite !occurs_app, Hr1, Hr2. split; reflexivity. }
    destruct r as [|b r2].
    { cbn [occurs]. rewrite Elt, Egt. split; reflexivity. }
    destruct (isNBSP a b) eqn:Ews.
    { assert (H2 : occurs "<" (escapeHTML r2) = false
                   /\ occurs ">" (escapeHTML r2) = false)
        by (apply IH; simpl in Hlen; lia).
      destruct H2 as [H21 H22].
      rewrite !occurs_app, H21, H22. split; reflexivity. }
    cbn [occurs]. rewrite Elt, Egt, Hr1, Hr2. split; reflexivity.
Qed.

(** X8: the output of a text node holds no [<] and no [>], whatever
    the text: character data never opens or closes a tag in the HTML
    that is built. *)
Theorem text_node_no_markup (c : ctx) (data : string) (st : state) :
  occurs "<" (fst (transformNode c (Text data) st)) = false
  /\ occurs ">" (fst (transformNode c (Text data) st)) = false.
Proof.
  cbn [transformNode ret fst].
  apply (escapeHTML_no_angle_bounded (String.length data)). lia.
Qed.

(** ** Elements without a case *)

Lemma string_app_nil_r (s : string) : s ++ "" = s.
Proof. induction s as [|x s IH]; simpl; [reflexivity | now rewrite IH]. Qed.

Lemma childLoop_plain (frameAt : nat -> frame) (c : ctx) (ks : list node) :
  Forall (fun k => forall c' st, transformNode c' k st = (escapedText k, st)) ks ->
  forall result i st,
    childLoop frameAt c transformNode result i ks st
    = (result ++ (fix go (ks : list node) : string :=
                    match ks with
                    | [] => EmptyString
                    | k :: r => escapedText k ++ go r
                    end) ks, st).
Proof.
  induction 1 as [|k r Hk _ IH]; intros result i st.
  - cbn [childLoop ret]. now rewrite string_app_nil_r.
  - cbn [childLoop]. rewrite bind_run, Hk. cbn [fst snd].
    rewrite IH. now rewrite string_app_assoc.
Qed.

Lemma occurs_escapedText (ch : ascii) (n : node) :
  (forall d, occurs ch (escapeHTML d) = false) ->
  occurs ch (escapedText n) = false.
Proof.
  intros H.
  induction n as [d|d| |ns nm a kids IH] using node_tree_ind;
    try reflexivity; [apply H|].
  cbn [escapedText].
  induction IH as [|k r Hk _ IHr]; [reflexivity|].
  now rewrite occurs_app, Hk, IHr.
Qed.

Lemma unhandled_kids (ns nm : string) (a : list (string * string))
    (kids : list node) :
  unhandled (Elem ns nm a kids) = true ->
  tagOf nm = T_default /\ Forall (fun k => unhandled k = true) kids.
Proof.
  cbn [unhandled]. intros H. apply andb_prop in H. destruct H as [Ht Hk].
  split; [destruct (tagOf nm); congruence|].
  induction kids as [|k r IH]; [constructor|].
  apply andb_prop in Hk. destruct Hk as [H1 H2].
  constructor; [exact H1 | now apply IH].
Qed.

(** X9: a subtree whose elements all have names the [switch] has no
    case for is rendered as the escaped data of its text nodes in
    document order: the elements add no markup (the output holds no
    angle bracket), CDATA sections and comments add nothing, and no
    module-level variable changes. *)
Theorem unhandled_elements_transparent (n : node) :
  unhandled n = true ->
  forall c st,
    transformNode c n st = (escapedText n, st)
    /\ occurs "<" (escapedText n) = false
    /\ occurs ">" (escapedText n) = false.
Proof.
  intros Hn c st. split.
  - revert Hn c st.
    induction n as [d|d| |ns nm a kids IH] using node_tree_ind;
      intros Hn c st; try reflexivity.
    apply unhandled_kids in Hn. destruct Hn as [Ht Hk].
    rewrite transformNode_Elem, bind_run. unfold eachChild.
    rewrite childLoop_plain.
    + cbn [fst snd]. unfold dispatch. cbn [nameOf]. rewrite Ht. reflexivity.
    + rewrite Forall_forall in *. intros k Hin c' st'.
      apply IH; [exact Hin | now apply Hk].
  - split; apply occurs_escapedText; intros d;
      apply (escapeHTML_no_angle_bounded (String.length d)); lia.
Qed.

Lemma unhandled_elements_transparent_witness :
  transformNode [] (Elem TEI_NS "w" [] [Text "a<b"; Misc; Elem "" "c" [] [Text "&"]])
                freshState
  = ("a&lt;b&amp;", freshState).
Proof.
  apply (unhandled_elements_transparent
           (Elem TEI_NS "w" [] [Text "a<b"; Misc; Elem "" "c" [] [Text "&"]])).
  reflexivity.
Defined.

(** ** Handlers that leave the state alone *)

(** X10: only the handlers of [persName], [placeName], [origPlace],
    [orgName], [term], [choice], [app], [note] and [handShift] write a
    module-level variable: for an element of any other name the state
    after [transformNode] is the state its children left. *)
Theorem other_handlers_keep_state (c : ctx) (ns nm : string)
    (a : list (string * string)) (kids : list node) (st : state) :
  writesState (tagOf nm) = false ->
  snd (transformNode c (Elem ns nm a kids) st)
  = snd (transformChildren c (Elem ns nm a kids) st).
Proof.
  intros H. rewrite transformNode_Elem, bind_run. cbn [transformChildren].
  generalize (snd (eachChild transformNode c ns nm a kids st)) as st'.
  generalize (fst (eachChild transformNode c ns nm a kids st)) as children.
  intros children st'. unfold dispatch. cbn [nameOf attrsOf]. cbv zeta.
  destruct (tagOf nm); try discriminate H;
    try reflexivity;
    unfold bind, gets, ret;
    repeat match goal with
           | |- context [if ?b then _ else _] => destruct b
           | |- context [match ?o with Some _ => _ | None => _ end] => destruct o
           end; reflexivity.
Qed.

Lemma other_handlers_keep_state_witness :
  snd (transformNode [] (Elem TEI_NS "hi" [("rend", "bold")] [Text "x"]) freshState)
  = snd (transformChildren [] (Elem TEI_NS "hi" [("rend", "bold")] [Text "x"])
                           freshState).
Proof. apply other_handlers_keep_state. reflexivity. Defined.

(** ** The mode flag and the registers *)

Lemma Alike_ret {A B : Type} (a : A) (b : B) : Alike (ret a) (ret b).
Proof. intros s1 s2 H. exact H. Qed.

Lemma Alike_gets {A B : Type} (f : state -> A) (g : state -> B) :
  Alike (gets f) (gets g).
Proof. intros s1 s2 H. exact H. Qed.

Lemma Alike_bind {A A' B B' : Type} (m1 : M A) (m2 : M A')
    (k1 : A -> M B) (k2 : A' -> M B') :
  Alike m1 m2 -> (forall a1 a2, Alike (k1 a1) (k2 a2)) ->
  Alike (bind m1 k1) (bind m2 k2).
Proof.
  intros Hm Hk s1 s2 H. rewrite !bind_run. apply Hk. now apply Hm.
Qed.

Lemma Alike_addFootnote (t1 t2 : string) :
  Alike (addFootnote t1) (addFootnote t2).
Proof.
  intros s1 s2 H. unfold ledger in *. cbn. rewrite !map_app. cbn.
  injection H as -> -> -> -> -> ->. reflexivity.
Qed.

Lemma Alike_pushEntity (k : kind) (e : entity) :
  Alike (pushEntity k e) (pushEntity k e).
Proof.
  intros s1 s2 H. unfold ledger in *.
  injection H as H1 H2 H3 H4 H5 H6.
  destruct k; cbn; congruence.
Qed.

Create HintDb alike.
#[export] Hint Resolve Alike_ret Alike_gets Alike_addFootnote Alike_pushEntity
  : alike.

(** Splits two computations of the same shape along their binds and
    conditionals. *)
Ltac alike_step :=
  match goal with
  | |- Alike (bind _ _) (bind _ _) => apply Alike_bind; [| intros ? ?]
  | |- Alike (if ?b then _ else _) (if ?b then _ else _) => destruct b
  | |- Alike (if ?b then _ else _) _ => destruct b
  | |- Alike _ (if ?b then _ else _) => destruct b
  | |- Alike (match ?o with Some _ => _ | None => _ end) _ => destruct o
  | |- Alike _ (match ?o with Some _ => _ | None => _ end) => destruct o
  | |- Alike _ _ => solve [auto with alike]
  end.

Ltac alike_auto := cbv zeta; repeat alike_step.

Lemma Alike_transformSemanticElement (n : node) (k : kind) (h1 h2 : string) :
  Alike (transformSemanticElement n k h1) (transformSemanticElement n k h2).
Proof. unfold transformSemanticElement. alike_auto. Qed.

Lemma Alike_transformNote (n : node) (h1 h2 : string) :
  Alike (transformNote n h1) (transformNote n h2).
Proof. unfold transformNote. alike_auto. Qed.

#[export] Hint Resolve Alike_transformSemanticElement Alike_transformNote
  : alike.

Section AlikeDispatch.

Variable again : M string.
Variable childrenOf : string -> option (M string).
Hypothesis Alike_again : Alike again again.
Hypothesis Alike_childrenOf : forall t m, childrenOf t = Some m -> Alike m m.

Lemma Alike_found (t : string) :
  Alike (force (childrenOf t)) (force (childrenOf t)).
Proof.
  destruct (childrenOf t) as [m|] eqn:E; simpl.
  - eapply Alike_childrenOf; eassumption.
  - apply Alike_ret.
Qed.

Hint Resolve Alike_found Alike_again : alike.

Lemma Alike_transformChoiceWith (c : ctx) (n : node) :
  Alike (transformChoiceWith childrenOf c n again)
        (transformChoiceWith childrenOf c n again).
Proof. unfold transformChoiceWith. alike_auto. Qed.

Lemma Alike_transformAppWith (c : ctx) (n : node) (h1 h2 : string) :
  Alike (transformAppWith childrenOf c n h1)
        (transformAppWith childrenOf c n h2).
Proof. unfold transformAppWith. alike_auto. Qed.

Hint Resolve Alike_transformChoiceWith Alike_transformAppWith : alike.

Lemma Alike_dispatch (c : ctx) (n : node) (h1 h2 : string) :
  Alike (dispatch again childrenOf c n h1) (dispatch again childrenOf c n h2).
Proof.
  unfold dispatch. cbv zeta.
  destruct (tagOf (nameOf n)); alike_auto.
Qed.

End AlikeDispatch.

Lemma Alike_childLoop (frameAt : nat -> frame) (c : ctx)
    (visit : ctx -> node -> M string) (ks : list node) :
  Forall (fun k => forall c', Alike (visit c' k) (visit c' k)) ks ->
  forall r1 r2 i,
    Alike (childLoop frameAt c visit r1 i ks) (childLoop frameAt c visit r2 i ks).
Proof.
  induction 1 as [|k r Hk _ IH]; intros r1 r2 i; simpl.
  - apply Alike_ret.
  - apply Alike_bind; [apply Hk | intros h1 h2; apply IH].
Qed.

Lemma Alike_firstLoop (frameAt : nat -> frame) (c : ctx)
    (search : ctx -> node -> option (M string)) (ks : list node) :
  Forall (fun k => forall c' m, search c' k = Some m -> Alike m m) ks ->
  forall i m, firstLoop frameAt c search i ks = Some m -> Alike m m.
Proof.
  induction 1 as [|k r Hk _ IH]; intros i m; simpl.
  - discriminate.
  - destruct (search (frameAt i :: c) k) as [m'|] eqn:E.
    + intros [= <-]. eapply Hk; eassumption.
    + apply IH.
Qed.

Lemma Alike_walk (n : node) :
  (forall c, Alike (transformNode c n) (transformNode c n))
  /\ (forall t c m, childrenOfFirst t c n = Some m -> Alike m m).
Proof.
  induction n as [d|d| |ns nm a kids IH] using node_tree_ind;
    try (split; [intros c; apply Alike_ret | intros t c m; discriminate]).
  assert (Hkids : forall c r1 r2,
             Alike (childLoop (mkFrame ns nm a kids) c transformNode r1 0 kids)
                   (childLoop (mkFrame ns nm a kids) c transformNode r2 0 kids)).
  { intros c r1 r2. apply Alike_childLoop.
    eapply Forall_impl; [|exact IH]. intros k [Hk _]. exact Hk. }
  assert (Hfirst : forall t c m,
             firstChild (childrenOfFirst t) c ns nm a kids = Some m -> Alike m m).
  { intros t c m. apply Alike_firstLoop.
    eapply Forall_impl; [|exact IH]. intros k [_ Hk]. apply Hk. }
  split.
  - intros c. rewrite transformNode_Elem.
    apply Alike_bind; [apply Hkids|]. intros h1 h2.
    apply Alike_dispatch; [apply Hkids|]. intros t m. apply Hfirst.
  - intros t c m. rewrite childrenOfFirst_Elem.
    destruct (String.eqb nm t).
    + intros [= <-]. apply Hkids.
    + apply Hfirst.
Qed.

Lemma Alike_transformNode (c : ctx) (n : node) :
  Alike (transformNode c n) (transformNode c n).
Proof. apply Alike_walk. Qed.

Lemma Alike_transformChildren (c : ctx) (n : node) :
  Alike (transformChildren c n) (transformChildren c n).
Proof.
  destruct n; try apply Alike_ret.
  apply Alike_childLoop. apply Forall_forall. intros k _ c'.
  apply Alike_transformNode.
Qed.

#[export] Hint Resolve Alike_transformNode Alike_transformChildren : alike.

Lemma Alike_transformEach (ps : list located) :
  Alike (transformEach ps) (transformEach ps).
Proof.
  induction ps as [|p r IH]; simpl; [apply Alike_ret|].
  apply Alike_bind; [apply Alike_transformChildren|]. intros i1 i2.
  apply Alike_bind; [exact IH|]. intros l1 l2. apply Alike_ret.
Qed.

Lemma transformEach_length (ps : list located) (st : state) :
  List.length (fst (transformEach ps st)) = List.length ps.
Proof.
  revert st. induction ps as [|p r IH]; intros st; [reflexivity|].
  cbn [transformEach]. rewrite !bind_run. cbn [ret fst List.length].
  now rewrite IH.
Qed.

Lemma Alike_transformBackMatter (c : ctx) (backNode : node) :
  Alike (transformBackMatter c backNode) (transformBackMatter c backNode).
Proof.
  intros s1 s2 H. unfold transformBackMatter. cbv zeta. rewrite !bind_run.
  pose proof (Alike_transformEach
                (flat_map (fun d : located => querySelectorAll (ByTag "p") (fst d) (snd d))
                          (querySelectorAll (ByTag "div") c backNode)) s1 s2 H)
    as HE.
  pose proof (transformEach_length
                (flat_map (fun d : located => querySelectorAll (ByTag "p") (fst d) (snd d))
                          (querySelectorAll (ByTag "div") c backNode)) s1) as L1.
  pose proof (transformEach_length
                (flat_map (fun d : located => querySelectorAll (ByTag "p") (fst d) (snd d))
                          (querySelectorAll (ByTag "div") c backNode)) s2) as L2.
  destruct (fst (transformEach _ s1)) as [|x1 l1];
    destruct (fst (transformEach _ s2)) as [|x2 l2];
    cbn [List.length] in L1, L2; try (exfalso; congruence).
  - rewrite !bind_run. cbn [ret snd]. now apply Alike_transformChildren.
  - exact HE.
Qed.

Lemma Alike_extractSummary (xmlDoc : node) :
  Alike (extractSummary xmlDoc) (extractSummary xmlDoc).
Proof.
  unfold extractSummary.
  destruct (docFindByName "teiHeader" xmlDoc) as [[hc header]|];
    [|apply Alike_ret].
  destruct (findByName (ByTag "summary") "summary" hc header) as [[sc summary]|];
    [|apply Alike_ret].
  alike_auto.
Qed.

Lemma Alike_walkDocument (xmlDoc : node) :
  Alike (walkDocument xmlDoc) (walkDocument xmlDoc).
Proof.
  unfold walkDocument.
  apply Alike_bind; [apply Alike_extractSummary|]. intros s1 s2.
  apply Alike_bind.
  { destruct (docFindByName "body" xmlDoc) as [[c n]|]; alike_auto. }
  intros b1 b2. apply Alike_bind; [|intros k1 k2; apply Alike_ret].
  destruct (docFindByName "back" xmlDoc) as [[c n]|]; alike_auto.
  apply Alike_transformBackMatter.
Qed.

(** X11: the mode flag changes the rendering only.  Whatever the
    states two calls of [transform] start from, the call in normalized
    mode and the call in diplomatic mode on the same document return
    the same four registers, footnotes with the same numbers, and the
    same metadata and heading. *)
Theorem mode_changes_rendering_only (localeCompare : string -> string -> Z)
    (xmlDoc : node) (st1 st2 : state) :
  let r1 := fst (transform localeCompare xmlDoc true st1) in
  let r2 := fst (transform localeCompare xmlDoc false st2) in
  Result.registers r1 = Result.registers r2
  /\ map number (Result.footnotes r1) = map number (Result.footnotes r2)
  /\ Result.metadata r1 = Result.metadata r2
  /\ Result.heading r1 = Result.heading r2.
Proof.
  cbv zeta. rewrite !transform_run. cbv zeta.
  cbn [fst Result.registers Result.footnotes Result.metadata Result.heading].
  assert (H : ledger (snd (walkDocument xmlDoc (resetState true)))
              = ledger (snd (walkDocument xmlDoc (resetState false)))).
  { apply Alike_walkDocument. reflexivity. }
  unfold ledger in H. injection H as -> -> -> -> _ ->.
  repeat split.
Qed.

(** ** Body and back matter *)

Lemma descendants_facts (n : node) :
  forall c y, In y (descendants c n) ->
    isElem (snd y) = true /\ List.length c < List.length (fst y).
Proof.
  induction n as [d|d| |ns nm a kids IH] using node_tree_ind;
    try (intros c y []).
  intros c y Hy. rewrite descendants_Elem in Hy.
  apply belowLoop_In in Hy. destruct Hy as (j & k & Hin & Hk & [-> | Hy]).
  - split; [exact Hk | simpl; lia].
  - rewrite Forall_forall in IH. destruct (IH k Hin _ _ Hy) as [He Hl].
    split; [exact He | simpl in Hl; lia].
Qed.

Lemma docFindByName_named (nm : string) (d : node) (c : ctx) (n : node) :
  docFindByName nm d = Some (c, n) ->
  exists ns a kids, n = Elem ns nm a kids.
Proof.
  unfold docFindByName, orNode. intros H.
  assert (Hin : In (c, n) (docElements d) /\ String.eqb (nameOf n) nm = true).
  { destruct (hd_error (filter (selects (ByTag nm)) (docElements d))) as [y|] eqn:E.
    - injection H as ->. apply hd_error_In, filter_In in E.
      destruct E as [E1 E2]. split; [exact E1 | exact E2].
    - apply hd_error_In, filter_In in H. destruct H as [H1 H2].
      split; [exact H1|]. apply andb_prop in H2. apply H2. }
  destruct Hin as [Hin Hname]. apply String.eqb_eq in Hname.
  assert (He : isElem n = true).
  { unfold docElements in Hin. destruct (isElem d) eqn:Ed; [|destruct Hin].
    destruct Hin as [[= <- <-]|Hin]; [exact Ed|].
    apply descendants_facts in Hin. apply Hin. }
  destruct n as [t|t| |ns nm' a kids]; try discriminate.
  simpl in Hname. subst nm'. now exists ns, a, kids.
Qed.

Lemma fold_left_commentary (items : list string) :
  forall html,
    fold_left (fun acc item => acc ++ "<p>" ++ item ++ "</p>") items html
    = html ++ commentaryItems items.
Proof.
  induction items as [|x r IH]; intros html; cbn [fold_left commentaryItems].
  - now rewrite string_app_nil_r.
  - rewrite IH. now rewrite !string_app_assoc.
Qed.

Lemma transformBackMatter_run (c : ctx) (backNode : node) (st : state) :
  let items := fst (transformEach (backParagraphs c backNode) st) in
  let st' := snd (transformEach (backParagraphs c backNode) st) in
  transformBackMatter c backNode st
  = match items with
    | [] => ("<h3>Kommentar</h3>" ++ fst (transformChildren c backNode st'),
             snd (transformChildren c backNode st'))
    | _ => ("<h3>Kommentar</h3>" ++ commentaryItems items, st')
    end.
Proof.
  cbv zeta. unfold transformBackMatter. cbv zeta. fold (backParagraphs c backNode).
  rewrite bind_run.
  destruct (fst (transformEach (backParagraphs c backNode) st)) as [|x l].
  - rewrite bind_run. reflexivity.
  - rewrite fold_left_commentary. reflexivity.
Qed.

Lemma walkDocument_run (xmlDoc : node) (st : state) :
  let s1 := snd (extractSummary xmlDoc st) in
  let body := match docFindByName "body" xmlDoc with
              | Some (c, n) => Some (fst (transformNode c n s1))
              | None => None
              end in
  let s2 := match docFindByName "body" xmlDoc with
            | Some (c, n) => snd (transformNode c n s1)
            | None => s1
            end in
  let back := match docFindByName "back" xmlDoc with
              | Some (c, n) => Some (fst (transformBackMatter c n s2))
              | None => None
              end in
  snd (fst (fst (walkDocument xmlDoc st))) = body
  /\ snd (fst (walkDocument xmlDoc st)) = back.
Proof.
  cbv zeta. unfold walkDocument. rewrite !bind_run.
  destruct (docFindByName "body" xmlDoc) as [[cb nb]|];
    destruct (docFindByName "back" xmlDoc) as [[ck nk]|];
    rewrite ?bind_run; split; reflexivity.
Qed.

Lemma transform_body_shape (localeCompare : string -> string -> Z)
    (xmlDoc : node) (normalized : bool) (st : state) :
  match docFindByName "body" xmlDoc with
  | Some _ =>
      exists inner,
        Result.body (fst (transform localeCompare xmlDoc normalized st))
        = Some (tpl "<div class='body'>" ++ inner ++ "</div>")
  | None =>
      Result.body (fst (transform localeCompare xmlDoc normalized st)) = None
  end.
Proof.
  rewrite transform_run. cbv zeta. cbn [fst Result.body].
  destruct (walkDocument_run xmlDoc (resetState normalized)) as [Hb _].
  cbv zeta in Hb. rewrite Hb. clear Hb.
  destruct (docFindByName "body" xmlDoc) as [[c n]|] eqn:E; [|reflexivity].
  apply docFindByName_named in E. destruct E as (ns & a & kids & ->).
  rewrite transformNode_Elem, bind_run. eexists. reflexivity.
Qed.

Lemma transform_back_shape (localeCompare : string -> string -> Z)
    (xmlDoc : node) (normalized : bool) (st : state) :
  match docFindByName "back" xmlDoc with
  | Some _ =>
      exists rest,
        Result.back (fst (transform localeCompare xmlDoc normalized st))
        = Some ("<h3>Kommentar</h3>" ++ rest)
  | None =>
      Result.back (fst (transform localeCompare xmlDoc normalized st)) = None
  end.
Proof.
  rewrite transform_run. cbv zeta. cbn [fst Result.back].
  destruct (walkDocument_run xmlDoc (resetState normalized)) as [_ Hk].
  cbv zeta in Hk. rewrite Hk. clear Hk.
  destruct (docFindByName "back" xmlDoc) as [[c n]|]; [|reflexivity].
  rewrite transformBackMatter_run. cbv zeta.
  destruct (fst (transformEach _ _)); eexists; reflexivity.
Qed.

(** X12: the [body] of a result is missing exactly when the document
    has no [body] element, and otherwise it is a [div] of class [body];
    the [back] of a result is missing exactly when the document has no
    [back] element, and otherwise it starts with the heading
    [Kommentar].  Neither is ever the empty string, so the test of the
    caller for a body or a back matter is the test for the element. *)
Theorem transform_body_and_back (localeCompare : string -> string -> Z)
    (xmlDoc : node) (normalized : bool) (st : state) :
  let r := fst (transform localeCompare xmlDoc normalized st) in
  (Result.body r = None <-> docFindByName "body" xmlDoc = None)
  /\ (forall h, Result.body r = Some h ->
        exists inner, h = tpl "<div class='body'>" ++ inner ++ "</div>")
  /\ (Result.back r = None <-> docFindByName "back" xmlDoc = None)
  /\ (forall h, Result.back r = Some h ->
        exists rest, h = "<h3>Kommentar</h3>" ++ rest).
Proof.
  cbv zeta.
  pose proof (transform_body_shape localeCompare xmlDoc normalized st) as Hb.
  pose proof (transform_back_shape localeCompare xmlDoc normalized st) as Hk.
  destruct (docFindByName "body" xmlDoc) as [xb|];
    destruct (docFindByName "back" xmlDoc) as [xk|];
    repeat match goal with
           | H : exists _, _ |- _ => destruct H as [? H]
           end;
    rewrite Hb, Hk; repeat split; try discriminate; try reflexivity;
    intros h [= <-]; eexists; reflexivity.
Qed.

Lemma in_two_split {A : Type} (l : list A) (x y : A) :
  In x l -> In y l -> x <> y ->
  exists l1 l2 l3,
    l = (l1 ++ x :: l2 ++ y :: l3)%list \/ l = (l1 ++ y :: l2 ++ x :: l3)%list.
Proof.
  intros Hx Hy Hne. apply in_split in Hx. destruct Hx as (l1 & l2 & ->).
  apply in_app_or in Hy. destruct Hy as [Hy|[Hy|Hy]].
  - apply in_split in Hy. destruct Hy as (m1 & m2 & ->).
    exists m1, m2, l2. right. now rewrite <- app_assoc.
  - congruence.
  - apply in_split in Hy. destruct Hy as (m1 & m2 & ->).
    exists l1, m1, m2. now left.
Qed.

Lemma flat_map_twice {A B : Type} (f : A -> list B) (l1 l2 l3 : list A)
    (x y : A) (p : B) :
  In p (f x) -> In p (f y) ->
  exists m1 m2 m3,
    flat_map f (l1 ++ x :: l2 ++ y :: l3)%list = (m1 ++ p :: m2 ++ p :: m3)%list.
Proof.
  intros Hx Hy.
  apply in_split in Hx. destruct Hx as (u1 & u2 & Eu).
  apply in_split in Hy. destruct Hy as (v1 & v2 & Ev).
  exists (flat_map f l1 ++ u1)%list, (u2 ++ flat_map f l2 ++ v1)%list,
         (v2 ++ flat_map f l3)%list.
  rewrite flat_map_app. cbn [flat_map]. rewrite flat_map_app. cbn [flat_map].
  rewrite Eu, Ev. repeat (rewrite <- app_assoc; cbn [app]). reflexivity.
Qed.

(** X13: [transformBackMatter] collects the paragraphs of every [div]
    below the back matter, the nested ones included, so a [p] inside a
    [div] that lies inside another [div] is collected, transformed and
    rendered twice; the commentary is the heading followed by one [p]
    element for each collected item. *)
Theorem back_matter_nested_div_twice (c : ctx) (backNode : node)
    (d1 d2 p : located) :
  In d1 (querySelectorAll (ByTag "div") c backNode) ->
  In d2 (querySelectorAll (ByTag "div") (fst d1) (snd d1)) ->
  In p (querySelectorAll (ByTag "p") (fst d2) (snd d2)) ->
  (exists l1 l2 l3,
     backParagraphs c backNode = (l1 ++ p :: l2 ++ p :: l3)%list)
  /\ forall st,
       transformBackMatter c backNode st
       = ("<h3>Kommentar</h3>"
          ++ commentaryItems (fst (transformEach (backParagraphs c backNode) st)),
          snd (transformEach (backParagraphs c backNode) st)).
Proof.
  intros H1 H2 Hp.
  assert (Htwice : exists l1 l2 l3,
             backParagraphs c backNode = (l1 ++ p :: l2 ++ p :: l3)%list).
  { unfold querySelectorAll in H1, H2, Hp.
    apply filter_In in H1, H2, Hp.
    destruct H1 as [H1 S1], H2 as [H2 S2], Hp as [Hp Sp].
    assert (H2' : In d2 (querySelectorAll (ByTag "div") c backNode)).
    { apply filter_In. split; [|exact S2]. eapply descendants_trans; eassumption. }
    assert (H1' : In d1 (querySelectorAll (ByTag "div") c backNode)).
    { apply filter_In. now split. }
    assert (Hp1 : In p (querySelectorAll (ByTag "p") (fst d1) (snd d1))).
    { apply filter_In. split; [|exact Sp]. eapply descendants_trans; eassumption. }
    assert (Hp2 : In p (querySelectorAll (ByTag "p") (fst d2) (snd d2))).
    { apply filter_In. now split. }
    assert (Hne : d1 <> d2).
    { intros E. apply descendants_facts in H2. rewrite E in H2. lia. }
    destruct (in_two_split _ _ _ H1' H2' Hne) as (l1 & l2 & l3 & [E|E]);
      unfold backParagraphs; rewrite E;
      now apply flat_map_twice. }
  split; [exact Htwice|].
  intros st. rewrite transformBackMatter_run. cbv zeta.
  destruct Htwice as (l1 & l2 & l3 & E).
  pose proof (transformEach_length (backParagraphs c backNode) st) as L.
  destruct (fst (transformEach (backParagraphs c backNode) st)) as [|x l].
  - rewrite E, length_app in L. simpl in L. lia.
  - reflexivity.
Qed.

Lemma back_matter_nested_div_twice_witness :
  fst (transformBackMatter [] sampleBack freshState)
  = "<h3>Kommentar</h3><p>x</p><p>x</p>".
Proof.
  destruct (back_matter_nested_div_twice [] sampleBack outerDiv innerDiv
              nestedParagraph) as [_ H].
  - vm_compute. auto.
  - vm_compute. auto.
  - vm_compute. auto.
  - rewrite H. reflexivity.
Defined.

(** ** Decimal numerals *)

Lemma digitsValue_uint_acc (d : Decimal.uint) :
  forall (acc : positive) (rest : string),
    noDigitAhead rest = true ->
    digitsValue (Z.pos acc) (NilEmpty.string_of_uint d ++ rest)
    = Z.pos (Pos.of_uint_acc d acc).
Proof.
  induction d; intros acc rest Hrest; cbn [NilEmpty.string_of_uint append];
    try (cbn [Pos.of_uint_acc];
         match goal with
         | |- digitsValue ?a (String ?c ?r) = Z.pos (Pos.of_uint_acc _ ?b) =>
             let v := eval vm_compute in (Z.of_nat (byte c - 48)) in
             change (digitsValue a (String c r)) with (digitsValue (10 * a + v) r);
             replace (10 * a + v)%Z with (Z.pos b) by lia
         end;
         now apply IHd).
  cbn [Pos.of_uint_acc]. destruct rest as [|c r]; [reflexivity|].
  cbn [digitsValue]. cbn [noDigitAhead] in Hrest.
  apply negb_true_iff in Hrest. now rewrite Hrest.
Qed.

Lemma digitsValue_uint (d : Decimal.uint) (rest : string) :
  noDigitAhead rest = true ->
  digitsValue 0 (NilEmpty.string_of_uint d ++ rest) = Z.of_uint d.
Proof.
  intros Hrest. unfold Z.of_uint.
  induction d; cbn [NilEmpty.string_of_uint append Pos.of_uint];
    try (match goal with
         | |- digitsValue ?a (String ?c ?r) = _ =>
             let v := eval vm_compute in (10 * a + Z.of_nat (byte c - 48))%Z in
             change (digitsValue a (String c r)) with (digitsValue v r)
         end;
         first [ exact IHd | now rewrite digitsValue_uint_acc ]).
  destruct rest as [|c r]; [reflexivity|].
  cbn [digitsValue]. cbn [noDigitAhead] in Hrest.
  apply negb_true_iff in Hrest. now rewrite Hrest.
Qed.

Lemma string_of_uint_digits (d : Decimal.uint) :
  forall c, occurs c (NilEmpty.string_of_uint d) = true -> isDigit c = true.
Proof.
  induction d; intros c; cbn [NilEmpty.string_of_uint occurs];
    [discriminate | ..];
    (intros H; apply orb_prop in H; destruct H as [H|H];
     [apply ascii_eqb_eq in H; subst c; reflexivity | now apply IHd]).
Qed.

Lemma nat_to_string_uint (n : nat) :
  exists d, nat_to_string n = NilEmpty.string_of_uint d
            /\ Z.of_uint d = Z.of_nat n /\ d <> Decimal.Nil.
Proof.
  unfold nat_to_string, Z_to_string.
  pose proof (DecimalZ.of_to (Z.of_nat n)) as H.
  destruct (Z.of_nat n) as [|p|p] eqn:E; [| |lia]; cbn [Z.to_int] in *;
    cbn [NilEmpty.string_of_int]; eexists; (split; [reflexivity|]);
    (split; [exact H|]).
  - discriminate.
  - intros Hnil. cbn [Z.of_int] in H. rewrite Hnil in H. discriminate.
Qed.

Lemma nat_to_string_value (n : nat) (rest : string) :
  noDigitAhead rest = true ->
  digitsValue 0 (nat_to_string n ++ rest) = Z.of_nat n.
Proof.
  intros H. destruct (nat_to_string_uint n) as (d & -> & <- & _).
  now apply digitsValue_uint.
Qed.

Lemma nat_to_string_digits (n : nat) (c : ascii) :
  occurs c (nat_to_string n) = true -> isDigit c = true.
Proof.
  destruct (nat_to_string_uint n) as (d & -> & _ & _).
  apply string_of_uint_digits.
Qed.

Lemma nat_to_string_head (n : nat) :
  exists c r, nat_to_string n = String c r /\ isDigit c = true.
Proof.
  pose proof (nat_to_string_digits n) as Hd.
  destruct (nat_to_string_uint n) as (d & E & _ & Hnil).
  rewrite E in *. destruct d; try congruence;
    cbn [NilEmpty.string_of_uint] in *; eexists; eexists;
    (split; [reflexivity | reflexivity]).
Qed.

(** ** Dates *)

Lemma split_whole (c : ascii) (s : string) :
  occurs c s = false -> split c s = [s].
Proof.
  induction s as [|x r IH]; [reflexivity|].
  cbn [occurs split]. intros H. apply orb_false_iff in H. destruct H as [Hx Hr].
  rewrite Hx, (IH Hr). reflexivity.
Qed.

Lemma split_first (c : ascii) (a rest : string) :
  occurs c a = false -> split c (a ++ String c rest) = a :: split c rest.
Proof.
  induction a as [|x r IH].
  - intros _. cbn [append split]. now rewrite Ascii.eqb_refl.
  - cbn [occurs append split]. intros H. apply orb_false_iff in H.
    destruct H as [Hx Hr]. rewrite Hx, (IH Hr). reflexivity.
Qed.

Lemma digit_no_space (a : ascii) :
  isDigit a = true ->
  isWS1 a = false
  /\ (forall b, isNBSP a b = false)
  /\ (forall b c, isWS3 a b c = false).
Proof.
  destruct a as [[] [] [] [] [] [] [] []]; intros H;
    try (vm_compute in H; discriminate H);
    repeat split; intros; reflexivity.
Qed.

Lemma trimStart_digit (c : ascii) (r : string) :
  isDigit c = true -> trimStart (String c r) = String c r.
Proof.
  intros H. destruct (digit_no_space c H) as (H1 & H2 & H3).
  cbn [trimStart]. rewrite H1.
  destruct r as [|b r2]; [reflexivity|]. rewrite H2.
  destruct r2 as [|d r3]; [reflexivity|]. now rewrite H3.
Qed.

Lemma parseInt_digits (c : ascii) (r : string) :
  isDigit c = true -> parseInt (String c r) = Num (digitsValue 0 (String c r)).
Proof.
  intros H. unfold parseInt. rewrite (trimStart_digit c r H).
  assert (Hm : Ascii.eqb c "-" = false).
  { destruct (Ascii.eqb c "-") eqn:E; [|reflexivity].
    apply ascii_eqb_eq in E. subst c. discriminate H. }
  assert (Hp : Ascii.eqb c "+" = false).
  { destruct (Ascii.eqb c "+") eqn:E; [|reflexivity].
    apply ascii_eqb_eq in E. subst c. discriminate H. }
  rewrite Hm, Hp, H. reflexivity.
Qed.

Lemma parseInt_twoDigits (n : nat) : parseInt (twoDigits n) = Num (Z.of_nat n).
Proof.
  assert (Hv : digitsValue 0 (nat_to_string n) = Z.of_nat n).
  { rewrite <- (string_app_nil_r (nat_to_string n)).
    now apply nat_to_string_value. }
  unfold twoDigits. destruct (n <? 10)%nat.
  - cbn [append]. rewrite parseInt_digits by reflexivity.
    change (digitsValue 0 (String "0" (nat_to_string n)))
      with (digitsValue 0 (nat_to_string n)).
    now rewrite Hv.
  - destruct (nat_to_string_head n) as (c & r & E & Hc).
    rewrite E in *. rewrite parseInt_digits by exact Hc. now rewrite Hv.
Qed.

Lemma twoDigits_no_hyphen (n : nat) : occurs "-" (twoDigits n) = false.
Proof.
  assert (H : occurs "-" (nat_to_string n) = false).
  { destruct (occurs "-" (nat_to_string n)) eqn:E; [|reflexivity].
    apply nat_to_string_digits in E. discriminate E. }
  unfold twoDigits. destruct (n <? 10)%nat; [|exact H].
  cbn [append occurs]. exact H.
Qed.

Lemma monthName_twoDigits (m : nat) : monthName (twoDigits m) = monthText m.
Proof.
  unfold monthName, monthText. rewrite parseInt_twoDigits.
  cbn [pred_number indexToString].
  destruct m as [|k]; [reflexivity|].
  replace (Z.of_nat (S k) - 1)%Z with (Z.of_nat k) by lia.
  destruct (Z.of_nat k <? 0)%Z eqn:E; [apply Z.ltb_lt in E; lia|].
  rewrite Nat2Z.id. cbn [Nat.leb andb]. replace (S k - 1) with k by lia.
  destruct (k <=? 11)%nat eqn:E12.
  - apply Nat.leb_le in E12.
    rewrite (nth_error_nth' months EmptyString) by (cbn [months List.length]; lia).
    reflexivity.
  - apply Nat.leb_gt in E12.
    assert (Hn : nth_error months k = None).
    { apply nth_error_None. cbn [months List.length]. lia. }
    now rewrite Hn.
Qed.

Lemma truthy_app_String (a : string) (c : ascii) (b : string) :
  truthy (a ++ String c b) = true.
Proof. destruct a; reflexivity. Qed.

(** X14: a date written as year, month and day (or year and month)
    with hyphens between them, the year holding no hyphen and the month
    and the day written with two digits, is formatted
    as the day without leading zero and a full stop, the German name of
    the month and the year as it was written.  The day is not checked
    against the month, and a month number outside 1 to 12 is rendered as
    the text of [undefined]. *)
Theorem formatDate_calendar_date (year : string) (m d : nat) :
  occurs "-" year = false ->
  m < 100 -> d < 100 ->
  formatDate (year ++ "-" ++ twoDigits m ++ "-" ++ twoDigits d)
  = nat_to_string d ++ ". " ++ monthText m ++ " " ++ year
  /\ formatDate (year ++ "-" ++ twoDigits m) = monthText m ++ " " ++ year.
Proof.
  intros Hy _ _. unfold formatDate. cbn [append].
  rewrite !truthy_app_String. cbn [negb]. split.
  - rewrite (split_first "-" year _ Hy).
    rewrite (split_first "-" (twoDigits m) _ (twoDigits_no_hyphen m)).
    rewrite (split_whole "-" _ (twoDigits_no_hyphen d)).
    rewrite parseInt_twoDigits, monthName_twoDigits. reflexivity.
  - rewrite (split_first "-" year _ Hy).
    rewrite (split_whole "-" _ (twoDigits_no_hyphen m)).
    now rewrite monthName_twoDigits.
Qed.

Lemma formatDate_calendar_date_witness :
  formatDate "1423-03-05" = "5. März 1423"
  /\ formatDate "1423-03" = "März 1423".
Proof. apply (formatDate_calendar_date "1423" 3 5); [reflexivity | lia | lia]. Defined.

(** ** Tooltip texts *)

Lemma truthy_app (a b : string) : truthy (a ++ b) = truthy a || truthy b.
Proof. destruct a; reflexivity. Qed.

Lemma truthy_join (sep : string) (l : list string) :
  Forall (fun x => truthy x = true) l ->
  truthy (join sep l) = match l with [] => false | _ => true end.
Proof.
  intros H. destruct H as [|x r Hx _]; [reflexivity|].
  destruct r; cbn [join]; [exact Hx|].
  now rewrite truthy_app, Hx.
Qed.

Lemma formatDate_truthy (s : string) :
  truthy s = true -> truthy (formatDate s) = true.
Proof.
  intros H. unfold formatDate. rewrite H. cbn [negb].
  destruct (split "-" s) as [|p1 [|p2 [|p3 [|p4 l]]]]; try exact H;
    rewrite !truthy_app; cbn [append truthy]; now rewrite ?orb_true_r.
Qed.

Lemma truthy_orElse (a b : string) :
  truthy (orElse a b) = truthy a || truthy b.
Proof. unfold orElse. destruct (truthy a) eqn:E; [exact E | reflexivity]. Qed.

Lemma nonempty_app {A : Type} (l1 l2 : list A) :
  match (l1 ++ l2)%list with [] => false | _ => true end
  = match l1 with [] => false | _ => true end
    || match l2 with [] => false | _ => true end.
Proof. destruct l1; reflexivity. Qed.

Lemma buildAttributeTooltip_truthy (attrs labelMap : list (string * string)) :
  truthy (buildAttributeTooltip attrs labelMap) = hasValue attrs.
Proof.
  unfold buildAttributeTooltip, hasValue. cbv zeta. rewrite truthy_join.
  - induction attrs as [|[nm v] r IH]; [reflexivity|].
    cbn [flat_map existsb snd]. rewrite nonempty_app, IH.
    destruct (truthy v); reflexivity.
  - induction attrs as [|[nm v] r IH]; [constructor|].
    cbn [flat_map]. apply Forall_app. split; [|exact IH].
    destruct (truthy v); constructor; [|constructor].
    rewrite !truthy_app. cbn [append truthy]. now rewrite ?orb_true_r.
Qed.

(** X15: a [hi] element is annotated (the class [tei-hi-annotated]
    and a tooltip listing the attributes) exactly when one of its
    attributes, of whatever name, has a value that is not empty;
    otherwise it is a [span] with its rendition classes only. *)
Theorem hi_annotated_iff_attribute (c : ctx) (ns : string)
    (a : list (string * string)) (kids : list node) (st : state) :
  let children := fst (transformChildren c (Elem ns "hi" a kids) st) in
  let cls := getRenditionClass (attrOr a "rend" "") in
  let tip := buildAttributeTooltip a
               [("rend", "Darstellung"); ("hand", "Hand"); ("type", "Typ")] in
  fst (transformNode c (Elem ns "hi" a kids) st)
  = if hasValue a
    then tpl "<span class='" ++ cls ++ tpl " tei-hi-annotated' data-tooltip='"
         ++ escapeAttr tip ++ tpl "' data-tooltip-type='textcritical'>"
         ++ children ++ "</span>"
    else tpl "<span class='" ++ cls ++ tpl "'>" ++ children ++ "</span>".
Proof.
  cbv zeta. rewrite transformNode_Elem, bind_run. cbn [transformChildren].
  unfold dispatch. cbn [nameOf attrsOf]. change (tagOf "hi") with T_hi.
  cbv iota zeta. rewrite buildAttributeTooltip_truthy.
  destruct (hasValue a); cbn [ret fst]; rewrite ?string_app_assoc; reflexivity.
Qed.

Lemma buildDateTooltip_truthy (attrs : list (string * string)) :
  truthy (buildDateTooltip attrs)
  = existsb (fun k => truthy (attrOr attrs k "")) dateAttributes.
Proof.
  unfold buildDateTooltip, dateAttributes. cbv zeta. cbn [existsb].
  rewrite truthy_join.
  - rewrite !nonempty_app, truthy_orElse.
    destruct (truthy (attrOr attrs "when" ""));
      destruct (truthy (attrOr attrs "from" ""));
      destruct (truthy (attrOr attrs "to" ""));
      destruct (truthy (attrOr attrs "notBefore" ""));
      destruct (truthy (attrOr attrs "notAfter" ""));
      destruct (truthy (attrOr attrs "calendar" ""));
      destruct (truthy (attrOr attrs "type" ""));
      destruct (truthy (attrOr attrs "period" ""));
      destruct (truthy (attrOr attrs "dur-iso" ""));
      destruct (truthy (attrOr attrs "dur" "")); reflexivity.
  - repeat (apply Forall_app; split);
      repeat match goal with
             | |- Forall _ (if ?b then _ else _) => destruct b eqn:?
             end;
      repeat constructor;
      repeat match goal with
             | H : (_ && _) = true |- _ => apply andb_prop in H; destruct H
             end;
      rewrite ?truthy_app; cbn [append truthy];
      rewrite ?formatDate_truthy by assumption;
      rewrite ?orb_true_r; reflexivity.
Qed.

(** X16: a [date] element gets the class [text-critical] and a
    tooltip exactly when one of its attributes [when], [from], [to],
    [notBefore], [notAfter], [calendar], [type], [period], [dur-iso]
    and [dur] has a value that is not empty; otherwise it is a plain
    [span] of class [tei-date]. *)
Theorem date_tooltip_iff_attribute (c : ctx) (ns : string)
    (a : list (string * string)) (kids : list node) (st : state) :
  let children := fst (transformChildren c (Elem ns "date" a kids) st) in
  fst (transformNode c (Elem ns "date" a kids) st)
  = if existsb (fun k => truthy (attrOr a k "")) dateAttributes
    then tpl "<span class='tei-date text-critical' data-tooltip='"
         ++ escapeAttr (buildDateTooltip a) ++ tpl "' data-tooltip-type='date'>"
         ++ children ++ "</span>"
    else tpl "<span class='tei-date'>" ++ children ++ "</span>".
Proof.
  cbv zeta. rewrite transformNode_Elem, bind_run. cbn [transformChildren].
  unfold dispatch. cbn [nameOf attrsOf]. change (tagOf "date") with T_date.
  cbv iota zeta. rewrite buildDateTooltip_truthy.
  destruct (existsb _ dateAttributes); reflexivity.
Qed.

(** ** Durations *)

Lemma allChars_occurs (p : ascii -> bool) (s : string) (c : ascii) :
  allChars p s = true -> occurs c s = true -> p c = true.
Proof.
  induction s as [|x r IH]; [discriminate|].
  cbn [allChars occurs]. intros H Hc. apply andb_prop in H. destruct H as [Hx Hr].
  apply orb_prop in Hc. destruct Hc as [Hc|Hc].
  - apply ascii_eqb_eq in Hc. now subst c.
  - now apply IH.
Qed.

Lemma spanDigits_digits (ds rest : string) :
  (forall c, occurs c ds = true -> isDigit c = true) ->
  noDigitAhead rest = true ->
  spanDigits (ds ++ rest) = (ds, rest).
Proof.
  intros Hds Hrest. induction ds as [|x r IH]; cbn [append].
  - destruct rest as [|c t]; [reflexivity|]. cbn [spanDigits].
    cbn [noDigitAhead] in Hrest. apply negb_true_iff in Hrest. now rewrite Hrest.
  - cbn [spanDigits]. rewrite (Hds x) by (cbn [occurs]; now rewrite Ascii.eqb_refl).
    rewrite IH; [reflexivity|].
    intros c Hc. apply Hds. cbn [occurs]. rewrite Hc. apply orb_true_r.
Qed.

Lemma unitGroup_none (l : ascii) (s : string) :
  noDigitAhead s = true -> unitGroup l s = (EmptyString, s).
Proof.
  intros H. unfold unitGroup.
  pose proof (spanDigits_digits EmptyString s) as E. cbn [append] in E.
  rewrite E; [reflexivity | discriminate | exact H].
Qed.

Lemma unitGroup_count (l L : ascii) (n : nat) (rest : string) :
  isDigit L = false ->
  unitGroup l (nat_to_string n ++ String L rest)
  = if Ascii.eqb (lowerChar L) l then (nat_to_string n, rest)
    else (EmptyString, nat_to_string n ++ String L rest).
Proof.
  intros HL. unfold unitGroup.
  rewrite spanDigits_digits;
    [|apply nat_to_string_digits|cbn [noDigitAhead]; now rewrite HL].
  destruct (nat_to_string_head n) as (c & r & E & _). rewrite E. reflexivity.
Qed.

Lemma isoGroup_app (x : option nat) (L : ascii) (rest : string) :
  isoGroup x L ++ rest
  = match x with
    | Some n => nat_to_string n ++ String L rest
    | None => rest
    end.
Proof.
  destruct x as [n|]; [|reflexivity].
  cbn [isoGroup]. now rewrite string_app_assoc.
Qed.

(** The group of the letter the pattern is at is taken. *)
Lemma unitGroup_taken (l L : ascii) (x : option nat) (rest : string) :
  isDigit L = false -> Ascii.eqb (lowerChar L) l = true ->
  unitGroup l rest = (EmptyString, rest) ->
  unitGroup l (isoGroup x L ++ rest) = (digitsOf x, rest).
Proof.
  intros HL El Hrest. rewrite isoGroup_app. destruct x as [n|]; [|exact Hrest].
  rewrite unitGroup_count by exact HL. now rewrite El.
Qed.

(** A group of another letter is left for a later part of the pattern. *)
Lemma unitGroup_left (l L : ascii) (x : option nat) (rest : string) :
  isDigit L = false -> Ascii.eqb (lowerChar L) l = false ->
  unitGroup l rest = (EmptyString, rest) ->
  unitGroup l (isoGroup x L ++ rest) = (EmptyString, isoGroup x L ++ rest).
Proof.
  intros HL El Hrest. rewrite isoGroup_app. destruct x as [n|]; [|exact Hrest].
  rewrite unitGroup_count by exact HL. now rewrite El.
Qed.

Ltac groups :=
  repeat first
    [ apply unitGroup_taken; [reflexivity | reflexivity |]
    | apply unitGroup_left; [reflexivity | reflexivity |]
    | apply unitGroup_none; assumption
    | apply unitGroup_none; reflexivity ].

Lemma groupValue_digitsOf (x : option nat) :
  groupValue (digitsOf x) = Z.of_nat (match x with Some n => n | None => 0 end).
Proof.
  unfold groupValue. destruct x as [n|]; [|reflexivity]. cbn [digitsOf].
  destruct (nat_to_string_head n) as (c & r & E & _).
  unfold orElse. rewrite E. cbn [truthy]. rewrite <- E.
  rewrite <- (string_app_nil_r (nat_to_string n)).
  now apply nat_to_string_value.
Qed.

Lemma unitPart_unitText (x : option nat) (unit_ plural : string) :
  unitPart (groupValue (digitsOf x)) unit_ plural = unitText x unit_ plural.
Proof.
  rewrite groupValue_digitsOf. unfold unitPart, unitText.
  destruct x as [[|[|k]]|]; try reflexivity.
  destruct (Z.of_nat (S (S k)) =? 0)%Z eqn:E0; [apply Z.eqb_eq in E0; lia|].
  destruct (Z.of_nat (S (S k)) =? 1)%Z eqn:E1; [apply Z.eqb_eq in E1; lia|].
  reflexivity.
Qed.

Lemma timeGroups (h mi s : option nat) :
  let s6 := isoGroup mi "M" ++ isoGroup s "S" in
  unitGroup "h" (isoGroup h "H" ++ s6) = (digitsOf h, s6)
  /\ unitGroup "m" s6 = (digitsOf mi, isoGroup s "S")
  /\ unitGroup "s" (isoGroup s "S") = (digitsOf s, EmptyString).
Proof.
  cbv zeta. repeat split.
  - groups.
    rewrite <- (string_app_nil_r (isoGroup s "S")). groups.
  - groups.
    rewrite <- (string_app_nil_r (isoGroup s "S")). groups.
  - rewrite <- (string_app_nil_r (isoGroup s "S")). groups.
Qed.

Lemma dateGroups (y mo w d : option nat) (rest : string) :
  noDigitAhead rest = true ->
  let s3 := isoGroup d "D" ++ rest in
  let s2 := isoGroup w "W" ++ s3 in
  let s1 := isoGroup mo "M" ++ s2 in
  unitGroup "y" (isoGroup y "Y" ++ s1) = (digitsOf y, s1)
  /\ unitGroup "m" s1 = (digitsOf mo, s2)
  /\ unitGroup "w" s2 = (digitsOf w, s3)
  /\ unitGroup "d" s3 = (digitsOf d, rest).
Proof. intros H. cbv zeta. repeat split; groups. Qed.

(** X17: a duration written out in the ISO 8601 form, with any of the
    units years, months, weeks, days, hours, minutes and seconds (each
    count below 2^53, which a JavaScript number holds exactly), is
    formatted as the German texts of the units whose count is not zero,
    in that order, separated by single spaces, each in the singular for
    the count one and in the plural otherwise; a duration none of whose
    units has a count other than zero is returned as it was written. *)
Theorem formatIsoDuration_units (y mo w d h mi s : option nat) :
  forallb exactCount [y; mo; w; d; h; mi; s] = true ->
  formatIsoDuration (isoDuration y mo w d h mi s)
  = match durationTexts y mo w d h mi s with
    | [] => isoDuration y mo w d h mi s
    | parts => join " " parts
    end.
Proof.
  intros _.
  set (t := match h, mi, s with
            | None, None, None => EmptyString
            | _, _, _ => "T" ++ isoGroup h "H" ++ isoGroup mi "M" ++ isoGroup s "S"
            end).
  assert (Ht : noDigitAhead t = true).
  { subst t. destruct h, mi, s; reflexivity. }
  assert (E : isoDuration y mo w d h mi s
              = String "P" (isoGroup y "Y" ++ isoGroup mo "M" ++ isoGroup w "W"
                            ++ isoGroup d "D" ++ t)) by reflexivity.
  rewrite E at 1.
  change (formatIsoDuration (String "P" ?r)) with (formatPlainDuration (String "P" r)).
  rewrite <- E. unfold formatPlainDuration at 1. rewrite E at 1.
  change (Ascii.eqb (lowerChar "P") "p") with true. cbv iota.
  destruct (dateGroups y mo w d t Ht) as (G1 & G2 & G3 & G4). cbv zeta in *.
  rewrite G1, G2, G3, G4. clear G1 G2 G3 G4.
  destruct (timeGroups h mi s) as (T1 & T2 & T3). cbv zeta in *.
  assert (Hparts :
    (let '(h', mi', sec', s8) :=
       match t with
       | String c s5 =>
           if Ascii.eqb (lowerChar c) "t" then
             let '(h', s6) := unitGroup "h" s5 in
             let '(mi', s7) := unitGroup "m" s6 in
             let '(sec', s8) := unitGroup "s" s7 in
             (h', mi', sec', s8)
           else (EmptyString, EmptyString, EmptyString, t)
       | EmptyString => (EmptyString, EmptyString, EmptyString, t)
       end in
     (groupValue h', groupValue mi', groupValue sec', s8))
    = (groupValue (digitsOf h), groupValue (digitsOf mi),
       groupValue (digitsOf s), EmptyString)).
  { subst t. destruct h as [nh|], mi as [nm|], s as [nsec|];
      try reflexivity;
      cbn [append]; change (Ascii.eqb (lowerChar "T") "t") with true; cbv iota;
      rewrite T1, T2, T3; reflexivity. }
  clear T1 T2 T3.
  destruct (match t with
            | String c s5 =>
                if Ascii.eqb (lowerChar c) "t" then
                  let '(h', s6) := unitGroup "h" s5 in
                  let '(mi', s7) := unitGroup "m" s6 in
                  let '(sec', s8) := unitGroup "s" s7 in
                  (h', mi', sec', s8)
                else (EmptyString, EmptyString, EmptyString, t)
            | EmptyString => (EmptyString, EmptyString, EmptyString, t)
            end) as [[[h' mi'] sec'] s8].
  injection Hparts as Eh Emi Es ->. rewrite Eh, Emi, Es.
  rewrite !unitPart_unitText. fold (durationTexts y mo w d h mi s).
  destruct (durationTexts y mo w d h mi s); reflexivity.
Qed.

Lemma formatIsoDuration_units_witness :
  formatIsoDuration "P1Y2WT30M0S" = "1 Jahr 2 Wochen 30 Minuten".
Proof.
  apply (formatIsoDuration_units (Some 1) None (Some 2) None None (Some 30)
           (Some 0)).
  reflexivity.
Defined.

(** X18: a repetition, written [R], an optional count of digits, a
    slash and a rest that is not empty and holds no line terminator, is
    formatted as the count (when there is one), the word [wiederholt]
    and, in parentheses, the rest formatted in its turn. *)
Theorem formatIsoDuration_repeat (count rest : string) :
  allChars isDigit count = true ->
  truthy rest = true ->
  hasLineTerminator rest = false ->
  formatIsoDuration ("R" ++ count ++ "/" ++ rest)
  = (if truthy count then count ++ "× wiederholt (" else "wiederholt (")
    ++ formatIsoDuration rest ++ ")".
Proof.
  intros Hall Hr Hl.
  assert (Hds : forall c, occurs c count = true -> isDigit c = true)
    by (intros c; now apply allChars_occurs).
  cbn [append].
  unfold formatIsoDuration at 1; fold formatIsoDuration.
  change (Ascii.eqb "R" "R") with true. cbv iota.
  match goal with
  | |- context [?F EmptyString (count ++ String "/" rest)] => set (f := F)
  end.
  assert (H : forall ds acc,
             (forall c, occurs c ds = true -> isDigit c = true) ->
             f acc (ds ++ String "/" rest)
             = Some ((if truthy (acc ++ ds)
                      then (acc ++ ds) ++ "× wiederholt ("
                      else "wiederholt (")
                     ++ formatIsoDuration rest ++ ")")).
  { induction ds as [|x r IH]; intros acc Hd.
    - subst f. cbn [append].
      change (isDigit "/") with false. change (Ascii.eqb "/" "/") with true.
      cbv iota. rewrite Hr, Hl. cbn [negb andb]. rewrite string_app_nil_r.
      destruct (truthy acc); [|reflexivity].
      now rewrite !string_app_assoc.
    - assert (Hx : isDigit x = true).
      { apply Hd. cbn [occurs]. now rewrite Ascii.eqb_refl. }
      assert (Hstep : f acc (String x r ++ String "/" rest)
                      = f (acc ++ String x EmptyString) (r ++ String "/" rest)).
      { subst f. cbn [append]. now rewrite Hx. }
      rewrite Hstep, IH.
      + rewrite string_app_assoc. reflexivity.
      + intros c Hc. apply Hd. cbn [occurs]. rewrite Hc. apply orb_true_r. }
  rewrite (H count EmptyString Hds). reflexivity.
Qed.

Lemma formatIsoDuration_repeat_witness :
  formatIsoDuration "R12/P1D" = "12× wiederholt (1 Tag)".
Proof.
  apply (formatIsoDuration_repeat "12" "P1D"); reflexivity.
Defined.

(** ** Rendition classes *)

Lemma ascii_of_byte (a : ascii) (n : nat) : byte a = n -> a = ascii_of_nat n.
Proof. intros <-. symmetry. apply ascii_nat_embedding. Qed.

Lemma lowerChar_shifted (a : ascii) :
  isLetter a = true -> isLetter (ascii_of_nat (byte a + 32)) = true ->
  lowerChar a = lowerChar (ascii_of_nat (byte a + 32)).
Proof.
  destruct a as [[] [] [] [] [] [] [] []]; vm_compute; intros La Lb;
    first [ reflexivity | discriminate La | discriminate Lb ].
Qed.

Lemma sameLetter_lowerChar (a b : ascii) :
  sameLetter a b = true -> lowerChar a = lowerChar b.
Proof.
  unfold sameLetter. intros H. apply orb_prop in H. destruct H as [H|H].
  { apply ascii_eqb_eq in H. now subst b. }
  apply andb_prop in H. destruct H as [H Hd].
  apply andb_prop in H. destruct H as [La Lb].
  apply orb_prop in Hd. destruct Hd as [Hd|Hd]; apply Nat.eqb_eq in Hd.
  - symmetry in Hd. apply ascii_of_byte in Hd. subst b.
    now apply lowerChar_shifted.
  - symmetry in Hd. apply ascii_of_byte in Hd. subst a. symmetry.
    now apply lowerChar_shifted.
Qed.

Lemma sameButCase_toLowerCase (s : string) :
  forall t, sameButCase s t = true -> toLowerCase s = toLowerCase t.
Proof.
  induction s as [|a r IH]; intros [|b u]; cbn [sameButCase]; try discriminate;
    [reflexivity|].
  intros H. apply andb_prop in H. destruct H as [Hab Hru].
  cbn [toLowerCase]. now rewrite (sameLetter_lowerChar a b Hab), (IH u Hru).
Qed.

(** X19: the case of the ASCII letters of a [rend] value does not
    matter: two values of ASCII characters that differ in the case of
    letters only give the same classes. *)
Theorem getRenditionClass_ignores_case (rend other : string) :
  asciiText rend = true ->
  sameButCase rend other = true ->
  getRenditionClass rend = getRenditionClass other.
Proof.
  intros _ H. unfold getRenditionClass, rendTokens.
  rewrite (sameButCase_toLowerCase rend other H).
  destruct rend, other; try discriminate H; reflexivity.
Qed.

Lemma getRenditionClass_ignores_case_witness :
  getRenditionClass "Bold SUP" = getRenditionClass "bOLD sup".
Proof.
  apply getRenditionClass_ignores_case; reflexivity.
Defined.

Lemma dedupStrings_In (xs : list string) :
  forall seen x,
    In x (dedupStrings seen xs) <-> In x xs /\ ~ In x seen.
Proof.
  induction xs as [|y r IH]; intros seen x; cbn [dedupStrings].
  - simpl. tauto.
  - destruct (existsb (String.eqb y) seen) eqn:E.
    + apply existsb_key in E. rewrite IH. simpl. split.
      * intros [H1 H2]. auto.
      * intros [[<-|H1] H2]; [contradiction | auto].
    + assert (Hy : ~ In y seen).
      { intros H. apply existsb_key in H. congruence. }
      simpl. rewrite IH. simpl. split.
      * intros [<-|[H1 H2]]; [auto|]. split; [auto|]. intros H. apply H2. now right.
      * intros [[<-|H1] H2]; [now left|].
        destruct (String.eqb_spec y x) as [->|Hne]; [now left|].
        right. split; [exact H1|]. intros [H|H]; [congruence | contradiction].
Qed.

(** X20: the classes of a result are separated by single spaces, none
    occurs twice, and they are the classes the tokens of the value
    yield: a token repeated, or two tokens that yield the same class,
    add the class once. *)
Theorem getRenditionClass_distinct_classes (rend : string) :
  rendClasses (rendTokens rend) <> [] ->
  exists classes,
    getRenditionClass rend = join " " classes
    /\ NoDup classes
    /\ forall x, In x classes <-> In x (rendClasses (rendTokens rend)).
Proof.
  intros Hne. exists (dedupStrings [] (rendClasses (rendTokens rend))).
  split; [|split].
  - unfold getRenditionClass.
    destruct rend as [|a r]; [exfalso; apply Hne; reflexivity|].
    cbn [truthy negb]. cbv zeta.
    destruct (rendClasses (rendTokens (String a r))); [congruence | reflexivity].
  - apply dedupStrings_NoDup.
  - intros x. rewrite dedupStrings_In. simpl. tauto.
Qed.

Lemma getRenditionClass_distinct_classes_witness :
  exists classes,
    getRenditionClass "bold sup BOLD super" = join " " classes
    /\ NoDup classes
    /\ forall x, In x classes
                 <-> In x (rendClasses (rendTokens "bold sup BOLD super")).
Proof.
  apply getRenditionClass_distinct_classes. vm_compute. discriminate.
Defined.

Lemma plainLower_facts (a : ascii) :
  plainLower a = true ->
  isWS1 a = false
  /\ (forall b, isNBSP a b = false)
  /\ (forall b, isNBSP b a = false)
  /\ (forall b c, isWS3 a b c = false)
  /\ (forall b c, isWS3 c b a = false)
  /\ lowerChar a = a.
Proof.
  destruct a as [[] [] [] [] [] [] [] []]; intros H;
    try (vm_compute in H; discriminate H);
    repeat split; intros; try reflexivity;
    unfold isNBSP, isWS3; cbn [byte nat_of_ascii];
    repeat match goal with
           | |- context [Nat.eqb ?x ?y] =>
               match x with
               | nat_of_ascii (Ascii _ _ _ _ _ _ _ _) =>
                   let v := eval vm_compute in (Nat.eqb x y) in
                   change (Nat.eqb x y) with v
               end
           | |- context [Nat.leb ?x ?y] =>
               first
                 [ match x with
                   | nat_of_ascii (Ascii _ _ _ _ _ _ _ _) =>
                       let v := eval vm_compute in (Nat.leb x y) in
                       change (Nat.leb x y) with v
                   end
                 | match y with
                   | nat_of_ascii (Ascii _ _ _ _ _ _ _ _) =>
                       let v := eval vm_compute in (Nat.leb x y) in
                       change (Nat.leb x y) with v
                   end ]
           end;
    cbn [andb orb]; rewrite ?andb_false_r; reflexivity.
Qed.

Lemma splitWS_plain (s : string) :
  allChars plainLower s = true -> splitWS s = [s].
Proof.
  induction s as [|a r IH]; [reflexivity|].
  cbn [allChars]. intros H. apply andb_prop in H. destruct H as [Ha Hr].
  destruct (plainLower_facts a Ha) as (H1 & H2 & _ & H3 & _).
  cbn [splitWS]. cbv zeta. rewrite (IH Hr), H1.
  destruct r as [|b r2]; [reflexivity|]. rewrite H2.
  destruct r2 as [|c r3]; [reflexivity|]. now rewrite H3.
Qed.

Lemma trimStart_plain (a : ascii) (r : string) :
  plainLower a = true -> trimStart (String a r) = String a r.
Proof.
  intros Ha. destruct (plainLower_facts a Ha) as (H1 & H2 & _ & H3 & _).
  cbn [trimStart]. rewrite H1.
  destruct r as [|b r2]; [reflexivity|]. rewrite H2.
  destruct r2 as [|c r3]; [reflexivity|]. now rewrite H3.
Qed.

Lemma trimStartRev_plain (a : ascii) (r : string) :
  plainLower a = true -> trimStartRev (String a r) = String a r.
Proof.
  intros Ha. destruct (plainLower_facts a Ha) as (H1 & _ & H2 & _ & H3 & _).
  cbn [trimStartRev]. rewrite H1.
  destruct r as [|b r2]; [reflexivity|]. rewrite H2.
  destruct r2 as [|c r3]; [reflexivity|]. now rewrite H3.
Qed.

Lemma rev_string_twice (s : string) :
  forall a b, rev_string a (rev_string b s) = rev_string (s ++ a) b.
Proof.
  induction s as [|c r IH]; intros a b; [reflexivity|].
  cbn [rev_string append]. now rewrite IH.
Qed.

Lemma rev_string_allChars (p : ascii -> bool) (s : string) :
  forall acc, allChars p s = true -> allChars p acc = true ->
              allChars p (rev_string acc s) = true.
Proof.
  induction s as [|c r IH]; intros acc Hs Hacc; [exact Hacc|].
  cbn [allChars] in Hs. apply andb_prop in Hs. destruct Hs as [Hc Hr].
  cbn [rev_string]. apply IH; [exact Hr|]. cbn [allChars]. now rewrite Hc.
Qed.

Lemma trim_plain (s : string) : allChars plainLower s = true -> trim s = s.
Proof.
  intros H. unfold trim, trimEnd.
  assert (Hs : trimStart s = s).
  { destruct s as [|a r]; [reflexivity|]. apply trimStart_plain.
    cbn [allChars] in H. now apply andb_prop in H. }
  rewrite Hs.
  pose proof (rev_string_allChars plainLower s EmptyString H eq_refl) as Hrev.
  assert (Hr : trimStartRev (rev_string "" s) = rev_string "" s).
  { destruct (rev_string "" s) as [|a r]; [reflexivity|].
    apply trimStartRev_plain. cbn [allChars] in Hrev. now apply andb_prop in Hrev. }
  rewrite Hr, rev_string_twice. cbn [rev_string]. apply string_app_nil_r.
Qed.

Lemma toLowerCase_plain (s : string) :
  allChars plainLower s = true -> toLowerCase s = s.
Proof.
  induction s as [|a r IH]; [reflexivity|].
  cbn [allChars]. intros H. apply andb_prop in H. destruct H as [Ha Hr].
  cbn [toLowerCase]. rewrite (IH Hr).
  destruct (plainLower_facts a Ha) as (_ & _ & _ & _ & _ & ->). reflexivity.
Qed.

Lemma isClassChar_plainLower (a : ascii) :
  isClassChar a = true -> plainLower a = true.
Proof.
  destruct a as [[] [] [] [] [] [] [] []]; intros H;
    first [ reflexivity | vm_compute in H; discriminate H ].
Qed.

Lemma allChars_impl (p q : ascii -> bool) (s : string) :
  (forall a, p a = true -> q a = true) ->
  allChars p s = true -> allChars q s = true.
Proof.
  intros Hpq. induction s as [|a r IH]; [reflexivity|].
  cbn [allChars]. intros H. apply andb_prop in H. destruct H as [Ha Hr].
  now rewrite (Hpq a Ha), (IH Hr).
Qed.

Lemma filterChars_all (p : ascii -> bool) (s : string) :
  allChars p s = true -> filterChars p s = s.
Proof.
  induction s as [|a r IH]; [reflexivity|].
  cbn [allChars filterChars]. intros H. apply andb_prop in H.
  destruct H as [Ha Hr]. now rewrite Ha, (IH Hr).
Qed.

(** The one token of a value made of plain characters. *)
Lemma rendTokens_plain (a : ascii) (r : string) :
  allChars plainLower (String a r) = true ->
  rendTokens (String a r) = [String a r].
Proof.
  intros H. unfold rendTokens.
  rewrite (toLowerCase_plain _ H), (splitWS_plain _ H).
  cbn [map]. rewrite (trim_plain _ H). reflexivity.
Qed.

(** X21: the three spellings of a class that is passed through,
    [simple_x], [simple:x] and [simple-x], all give the class
    [simple_x], for every [x] made of lower-case letters, digits,
    underscores and hyphens. *)
Theorem getRenditionClass_prefix_forms (x : string) :
  allChars isClassChar x = true ->
  getRenditionClass ("simple_" ++ x) = "simple_" ++ x
  /\ getRenditionClass ("simple:" ++ x) = "simple_" ++ x
  /\ getRenditionClass ("simple-" ++ x) = "simple_" ++ x.
Proof.
  intros Hx.
  assert (Hp : allChars plainLower x = true).
  { eapply allChars_impl; [apply isClassChar_plainLower | exact Hx]. }
  cbn [append]. unfold getRenditionClass. cbn [truthy negb]. cbv zeta.
  rewrite !rendTokens_plain by (cbn [allChars]; rewrite Hp; reflexivity).
  cbn [rendClasses]. unfold tokenClass.
  cbn [startsWith Ascii.eqb Bool.eqb andb substring_from].
  rewrite (filterChars_all _ _ Hx).
  repeat split; reflexivity.
Qed.

Lemma getRenditionClass_prefix_forms_witness :
  getRenditionClass "simple_wavy-1" = "simple_wavy-1"
  /\ getRenditionClass "simple:wavy-1" = "simple_wavy-1"
  /\ getRenditionClass "simple-wavy-1" = "simple_wavy-1".
Proof. apply (getRenditionClass_prefix_forms "wavy-1"). reflexivity. Defined.

(** ** Registers without repeated keys *)

(** X22: when no two entities of the input have the same key, the
    register is the input put in order: nothing is dropped and nothing
    is added. *)
Theorem deduplicateEntities_keeps_distinct
    (localeCompare : string -> string -> Z) (entities : list entity) :
  NoDup (map entityKey entities) ->
  Permutation (deduplicateEntities localeCompare entities) entities.
Proof.
  intros H. rewrite deduplicateEntities_Permutation.
  rewrite keepFirsts_id; [reflexivity | exact H | intros e _ []].
Qed.

Lemma deduplicateEntities_keeps_distinct_witness :
  Permutation
    (deduplicateEntities byLength
       [mkEntity "Zürich" "loc1" ""; mkEntity "Bern" "" ""])
    [mkEntity "Zürich" "loc1" ""; mkEntity "Bern" "" ""].
Proof.
  apply deduplicateEntities_keeps_distinct.
  repeat constructor; simpl; intuition discriminate.
Defined.

(** ** Heading and metadata *)

(** X23: the heading and the metadata are read from the same header:
    one is missing exactly when the other is, and otherwise the title
    of the heading is the title of the metadata and the date of the
    heading is the date text of the metadata.  Whenever the metadata
    hold a date (the [when] or [from] of the [origDate]) they hold a
    date text as well, the text of the [origDate] or else the date
    formatted, so the panel of the application, which shows the date
    text or else the date, always shows the date text. *)
Theorem heading_agrees_with_metadata (xmlDoc : node) :
  match extractMetadata xmlDoc, extractHeading xmlDoc with
  | Some m, Some h =>
      Heading.title h = Metadata.title m
      /\ Heading.date h = Metadata.dateText m
      /\ implb (truthy (Metadata.date m)) (truthy (Metadata.dateText m)) = true
      /\ orElse (Metadata.dateText m) (Metadata.date m) = Metadata.dateText m
  | None, None => True
  | _, _ => False
  end.
Proof.
  unfold extractMetadata, extractHeading.
  destruct (docFindByName "teiHeader" xmlDoc) as [[hc header]|]; [|exact I].
  cbv zeta.
  cbn [Heading.title Heading.date Metadata.title Metadata.date Metadata.dateText].
  split.
  { destruct (findByName (Within "msDesc" "head") "head" hc header);
      reflexivity. }
  destruct (findByName (ByTag "origDate") "origDate" hc header) as [od|];
    cbn [isSome]; [|repeat split].
  split; [reflexivity|].
  set (date := orElse (attrOr (attrsOfFound (Some od)) "when" "")
                      (attrOr (attrsOfFound (Some od)) "from" "")).
  assert (H : implb (truthy date)
                    (truthy (orElse (trimmedText (Some od)) (formatDate date)))
              = true).
  { rewrite truthy_orElse. destruct (truthy date) eqn:E; [|reflexivity].
    rewrite (formatDate_truthy _ E). now rewrite orb_true_r. }
  split; [exact H|].
  unfold orElse at 1.
  destruct (truthy (orElse (trimmedText (Some od)) (formatDate date))) eqn:E;
    [reflexivity|].
  destruct (truthy date) eqn:Ed; [discriminate H|].
  destruct date; [|discriminate Ed].
  destruct (orElse (trimmedText (Some od)) (formatDate ""));
    [reflexivity | discriminate E].
Qed.

(** ** From the parser to the tooltip *)

Lemma splitOn_bar_whole (p : string) :
  occurs "|" p = false -> splitOn " | " 0 p = [p].
Proof.
  induction p as [|x r IH]; [reflexivity|].
  cbn [occurs]. intros H. apply orb_false_iff in H. destruct H as [Hx Hr].
  cbn [splitOn startsWith]. rewrite (IH Hr).
  destruct r as [|y r']; [now rewrite andb_false_r|].
  cbn [occurs] in Hr. apply orb_false_iff in Hr. destruct Hr as [Hy _].
  rewrite (Ascii.eqb_sym "|" y), Hy. cbn [andb]. now rewrite andb_false_r.
Qed.

Lemma splitOn_bar_first (p rest : string) :
  occurs "|" p = false ->
  splitOn " | " 0 (p ++ " | " ++ rest) = p :: splitOn " | " 0 rest.
Proof.
  change (" | " ++ rest) with (String " " (String "|" (String " " rest))).
  induction p as [|x r IH]; [reflexivity|].
  cbn [occurs]. intros H. apply orb_false_iff in H. destruct H as [Hx Hr].
  cbn [append splitOn startsWith]. rewrite (IH Hr).
  destruct r as [|y r'].
  - cbn [append]. change (Ascii.eqb "|" " ") with false.
    cbn [andb]. now rewrite andb_false_r.
  - cbn [occurs] in Hr. apply orb_false_iff in Hr. destruct Hr as [Hy _].
    cbn [append]. rewrite (Ascii.eqb_sym "|" y), Hy. cbn [andb].
    now rewrite andb_false_r.
Qed.

Lemma typeLabel_known (k : kind) :
  objectLookup Tooltips.typeLabels (kindName k) = Some (typeLabel k)
  /\ occurs "|" (typeLabel k) = false
  /\ escapeHTML (typeLabel k) = typeLabel k.
Proof. destruct k; repeat split. Qed.

Lemma transformSemanticElement_output (n : node) (k : kind) (children : string)
    (st : state) :
  fst (transformSemanticElement n k children st)
  = tpl "<span class='semantic " ++ kindName k
    ++ tpl "' data-tooltip='"
    ++ escapeAttr (semanticTooltip k (attrOr (attrsOf n) "ref" "")
                                   (attrOr (attrsOf n) "role" ""))
    ++ tpl "' data-tooltip-type='" ++ kindName k
    ++ tpl "' data-ref='" ++ escapeAttr (attrOr (attrsOf n) "ref" "")
    ++ tpl "'>" ++ children ++ "</span>".
Proof. unfold transformSemanticElement. cbv zeta. now rewrite bind_run. Qed.

(** X24: what the tooltip system shows for a semantic element.  The
    parser puts the tooltip text, escaped, into [data-tooltip] and the
    kind into [data-tooltip-type]; when neither the [ref] nor the [role]
    of the element holds a vertical bar, [formatTooltipContent] renders
    that text as the label of the kind, and either the label once more
    as the only content (no [ref], no [role]) or the label as title
    followed by one line for the reference and one for the role. *)
Theorem semantic_tooltip_rendered (n : node) (k : kind) (children : string)
    (st : state) :
  let ref := attrOr (attrsOf n) "ref" "" in
  let role := attrOr (attrsOf n) "role" "" in
  occurs "|" ref = false ->
  occurs "|" role = false ->
  fst (transformSemanticElement n k children st)
  = tpl "<span class='semantic " ++ kindName k
    ++ tpl "' data-tooltip='" ++ escapeAttr (semanticTooltip k ref role)
    ++ tpl "' data-tooltip-type='" ++ kindName k
    ++ tpl "' data-ref='" ++ escapeAttr ref
    ++ tpl "'>" ++ children ++ "</span>"
  /\ Tooltips.formatTooltipContent (semanticTooltip k ref role) (kindName k)
     = tpl "<div class='tooltip-type'>" ++ typeLabel k ++ "</div>"
       ++ (if truthy ref || truthy role then
             tpl "<div class='tooltip-title'>" ++ typeLabel k ++ "</div>"
             ++ tpl "<div class='tooltip-content'>"
             ++ (if truthy ref
                 then "<div>" ++ escapeHTML ("Ref: " ++ ref) ++ "</div>"
                 else EmptyString)
             ++ (if truthy role
                 then "<div>" ++ escapeHTML ("Rolle: " ++ role) ++ "</div>"
                 else EmptyString)
             ++ "</div>"
           else
             tpl "<div class='tooltip-content'>" ++ typeLabel k ++ "</div>").
Proof.
  cbv zeta. intros Href Hrole.
  split; [apply transformSemanticElement_output|].
  generalize dependent (attrOr (attrsOf n) "role" "").
  generalize dependent (attrOr (attrsOf n) "ref" "").
  intros ref Href role Hrole.
  destruct (typeLabel_known k) as (Hl & Hb & He).
  assert (Hr1 : occurs "|" ("Ref: " ++ ref) = false) by exact Href.
  assert (Hr2 : occurs "|" ("Rolle: " ++ role) = false) by exact Hrole.
  unfold Tooltips.formatTooltipContent, semanticTooltip, Tooltips.escapeHTML.
  rewrite Hl. cbv zeta.
  assert (Ht : truthy (typeLabel k) = true) by (destruct k; reflexivity).
  rewrite Ht.
  destruct (truthy ref), (truthy role); cbn [app join orb].
  - rewrite (splitOn_bar_first _ _ Hb), (splitOn_bar_first _ _ Hr1),
      (splitOn_bar_whole _ Hr2).
    cbn [List.length Nat.ltb Nat.leb nth tl fold_left]. rewrite He.
    rewrite !string_app_assoc. reflexivity.
  - rewrite (splitOn_bar_first _ _ Hb), (splitOn_bar_whole _ Hr1).
    cbn [List.length Nat.ltb Nat.leb nth tl fold_left]. rewrite He.
    rewrite !string_app_assoc. reflexivity.
  - rewrite (splitOn_bar_first _ _ Hb), (splitOn_bar_whole _ Hr2).
    cbn [List.length Nat.ltb Nat.leb nth tl fold_left]. rewrite He.
    rewrite !string_app_assoc. reflexivity.
  - rewrite (splitOn_bar_whole _ Hb).
    cbn [List.length Nat.ltb Nat.leb]. rewrite He.
    rewrite !string_app_assoc. reflexivity.
Qed.

Lemma semantic_tooltip_rendered_witness :
  Tooltips.formatTooltipContent "Person | Ref: per1 | Rolle: witness" "person"
  = tpl "<div class='tooltip-type'>Person</div><div class='tooltip-title'>Person</div><div class='tooltip-content'><div>Ref: per1</div><div>Rolle: witness</div></div>".
Proof.
  destruct (semantic_tooltip_rendered
              (Elem TEI_NS "persName" [("ref", "per1"); ("role", "witness")]
                    [Text "Anna"])
              person "Anna" freshState eq_refl eq_refl) as [_ H].
  exact H.
Defined.

(** ** The page *)

Lemma grow_if (c : bool) (html x : string) :
  truthy x = true ->
  truthy (if c then html ++ x else html) = truthy html || c.
Proof.
  intros Hx. destruct c; [|now rewrite orb_false_r].
  now rewrite truthy_app, Hx, !orb_true_r.
Qed.

Lemma grow_match {A : Type} (l : list A) (html x : string) :
  truthy x = true ->
  truthy (match l with [] => html | _ => html ++ x end)
  = truthy html || negb (Nat.eqb (List.length l) 0).
Proof.
  intros Hx. destruct l; [now rewrite orb_false_r|].
  now rewrite truthy_app, Hx, !orb_true_r.
Qed.

(** Names the value of the outermost [let] of the goal. *)
Ltac name_let :=
  lazymatch goal with
  | |- truthy (let x := ?a in @?f x) = ?R =>
      let h := fresh "html" in
      let E := fresh "E" in
      pose (h := a);
      assert (E : truthy h = truthy a) by reflexivity;
      change (truthy (f h) = R); cbv beta;
      clearbody h
  end.

(** X25: [renderMetadata] returns the empty string exactly when the
    shelf mark, the date, the date text, the filiation, the material
    and the language are empty and there is no seal, no keyword and no
    editor.  The title, the original filiation, the edition, the
    dimensions and the condition never make a section of their own: the
    dimensions and the condition are shown only beside a filiation or a
    material. *)
Theorem renderMetadata_blank (meta : Metadata.t) :
  truthy (App.renderMetadata meta)
  = truthy (Metadata.idno meta)
    || truthy (Metadata.date meta) || truthy (Metadata.dateText meta)
    || truthy (Metadata.filiation meta) || truthy (Metadata.material meta)
    || negb (Nat.eqb (List.length (Metadata.seals meta)) 0)
    || truthy (Metadata.textLang meta)
    || negb (Nat.eqb (List.length (Metadata.keywords meta)) 0)
    || negb (Nat.eqb (List.length (Metadata.editors meta)) 0).
Proof.
  cbv beta delta [App.renderMetadata].
  name_let. cbn [truthy] in E.
  name_let. rewrite grow_if, E in E0 by reflexivity.
  name_let. rewrite grow_if, E0 in E1 by reflexivity.
  name_let. rewrite grow_if, E1 in E2 by reflexivity.
  name_let. rewrite grow_match, E2 in E3 by reflexivity.
  name_let. rewrite grow_if, E3 in E4 by reflexivity.
  name_let. rewrite grow_match, E4 in E5 by reflexivity.
  name_let. rewrite grow_match, E5 in E6 by reflexivity.
  rewrite E6. cbn [orb]. now rewrite !orb_assoc.
Qed.

(** X26: what the page shows after a document has been processed.
    The body pane holds the placeholder for a missing content exactly
    when the document has no [body] element, and the transformed body
    otherwise; the back pane is hidden and empty exactly when the
    document has no [back] element; footnotes are appended to the body
    pane exactly when the transform returned some; and a document
    without a [teiHeader] gets the placeholder for missing metadata and
    an empty heading. *)
Theorem page_shows_what_exists (localeCompare : string -> string -> Z)
    (xmlDoc : node) (filename : string) (st : state) :
  let result := fst (transform localeCompare xmlDoc false st) in
  let p := fst (App.processXML localeCompare xmlDoc filename st) in
  App.filenameText p = filename
  /\ (App.bodyHTML p = tpl "<p class='no-content'>Kein Inhalt vorhanden</p>"
      <-> docFindByName "body" xmlDoc = None)
  /\ (docFindByName "body" xmlDoc <> None ->
      Result.body result = Some (App.bodyHTML p))
  /\ (App.backHidden p = true <-> docFindByName "back" xmlDoc = None)
  /\ (App.backHTML p = EmptyString <-> docFindByName "back" xmlDoc = None)
  /\ (docFindByName "back" xmlDoc <> None ->
      Result.back result = Some (App.backHTML p))
  /\ (App.bodyAppended p = None <-> Result.footnotes result = [])
  /\ (docFindByName "teiHeader" xmlDoc = None ->
      App.metadataHTML p
      = tpl "<p class='no-metadata'>Keine Metadaten vorhanden</p>"
      /\ App.headingHTML p = EmptyString).
Proof.
  cbv zeta. unfold App.processXML. rewrite bind_run. cbn [ret fst].
  pose proof (transform_body_shape localeCompare xmlDoc false st) as Hb.
  pose proof (transform_back_shape localeCompare xmlDoc false st) as Hk.
  assert (Hh : docFindByName "teiHeader" xmlDoc = None ->
               Result.metadata (fst (transform localeCompare xmlDoc false st)) = None
               /\ Result.heading (fst (transform localeCompare xmlDoc false st)) = None).
  { intros E. rewrite transform_run. cbv zeta.
    cbn [fst Result.metadata Result.heading].
    unfold extractMetadata, extractHeading. now rewrite E. }
  generalize dependent (fst (transform localeCompare xmlDoc false st)).
  intros r Hb Hk Hh. unfold App.renderDocument. cbv zeta.
  cbn [App.filenameText App.bodyHTML App.backHidden App.backHTML
       App.bodyAppended App.metadataHTML App.headingHTML].
  split; [reflexivity|].
  split; [|split; [|split; [|split; [|split; [|split]]]]].
  - destruct (docFindByName "body" xmlDoc).
    + destruct Hb as [inner Hb]. rewrite Hb. cbn [append tpl truthy].
      split; discriminate.
    + rewrite Hb. split; reflexivity.
  - destruct (docFindByName "body" xmlDoc); [|congruence].
    destruct Hb as [inner Hb]. rewrite Hb. reflexivity.
  - destruct (docFindByName "back" xmlDoc).
    + destruct Hk as [rest Hk]. rewrite Hk. split; discriminate.
    + rewrite Hk. split; reflexivity.
  - destruct (docFindByName "back" xmlDoc).
    + destruct Hk as [rest Hk]. rewrite Hk. split; discriminate.
    + rewrite Hk. split; reflexivity.
  - destruct (docFindByName "back" xmlDoc); [|congruence].
    destruct Hk as [rest Hk]. rewrite Hk. reflexivity.
  - destruct (Result.footnotes r) as [|f l].
    + split; reflexivity.
    + cbn [App.renderFootnotes]. split; discriminate.
  - intros E. destruct (Hh E) as [-> ->]. split; reflexivity.
Qed.

(** ** A choice without a pair *)

(** X27: a [choice] in which none of the pairs [sic]/[corr],
    [abbr]/[expan] and [orig]/[reg] is found is rendered as its
    children, but these are transformed twice: once before the handler
    runs and once by the handler, whose rendering is the one returned.
    Every entity and footnote below such a [choice] is recorded twice,
    and the references shown carry the numbers of the second round. *)
Theorem choice_without_pair_twice (c : ctx) (ns : string)
    (a : list (string * string)) (kids : list node) (st : state) :
  let n := Elem ns "choice" a kids in
  hasChoicePair c n = false ->
  transformNode c n st
  = transformChildren c n (snd (transformChildren c n st)).
Proof.
  cbv zeta. intros H. rewrite transformNode_element by reflexivity.
  unfold handle, dispatch. cbn [nameOf]. change (tagOf "choice") with T_choice.
  cbv iota zeta. unfold transformChoiceWith. cbv zeta.
  unfold hasChoicePair in H. cbv zeta in H.
  apply orb_false_iff in H. destruct H as [H H3].
  apply orb_false_iff in H. destruct H as [H1 H2].
  rewrite H1, H2, H3. reflexivity.
Qed.

Lemma choice_without_pair_twice_witness :
  fst (transformNode [] loneSic freshState)
  = tpl "<span class='tei-sic text-critical' data-tooltip='So im Original' data-tooltip-type='textcritical'><span class='footnote-ref' data-footnote='2'>2</span></span>"
  /\ List.length (footnotes (snd (transformNode [] loneSic freshState))) = 2.
Proof.
  unfold loneSic.
  rewrite (choice_without_pair_twice [] TEI_NS [] [Elem TEI_NS "sic" [] [sampleNote]]
             freshState eq_refl).
  split; reflexivity.
Defined.

(** ** The document id taken from a file name *)

Lemma not_q (x : ascii) :
  Ascii.eqb x "q" = false -> Ascii.eqb x "Q" = false ->
  Ascii.eqb (lowerChar x) "q" = false.
Proof.
  destruct x as [[] [] [] [] [] [] [] []]; intros H1 H2;
    first [ reflexivity | discriminate H1 | discriminate H2 ].
Qed.

Lemma findId_none (name tail : string) :
  occurs "q" name = false -> occurs "Q" name = false ->
  AppTabs.findId tail = None ->
  AppTabs.findId (name ++ tail) = None.
Proof.
  intros Hq HQ Ht. induction name as [|x r IH]; [exact Ht|].
  cbn [occurs] in Hq, HQ. apply orb_false_iff in Hq, HQ.
  destruct Hq as [Hx Hr], HQ as [HX HR].
  cbn [append AppTabs.findId].
  assert (E : AppTabs.idAtStart (String x (r ++ tail)) = None).
  { unfold AppTabs.idAtStart. rewrite (not_q x Hx HX).
    destruct (r ++ tail) as [|z [|h t]]; reflexivity. }
  rewrite E. now apply IH.
Qed.

Lemma replaceFirst_suffix (name : string) :
  occurs "." name = false ->
  AppTabs.replaceFirst ".xml" "" (name ++ ".xml") = name.
Proof.
  induction name as [|x r IH]; [reflexivity|].
  cbn [occurs]. intros H. apply orb_false_iff in H. destruct H as [Hx Hr].
  cbn [append AppTabs.replaceFirst startsWith].
  rewrite (Ascii.eqb_sym "." x), Hx. cbn [andb]. now rewrite (IH Hr).
Qed.

Lemma findId_skip (pre tail : string) :
  occurs "q" pre = false -> occurs "Q" pre = false ->
  AppTabs.findId (pre ++ tail) = AppTabs.findId tail.
Proof.
  intros Hq HQ. induction pre as [|x r IH]; [reflexivity|].
  cbn [occurs] in Hq, HQ. apply orb_false_iff in Hq, HQ.
  destruct Hq as [Hx Hr], HQ as [HX HR].
  cbn [append AppTabs.findId].
  assert (E : AppTabs.idAtStart (String x (r ++ tail)) = None).
  { unfold AppTabs.idAtStart. rewrite (not_q x Hx HX).
    destruct (r ++ tail) as [|z [|h t]]; reflexivity. }
  rewrite E. now apply IH.
Qed.

Lemma letter_either_case (x l u : ascii) :
  In x [l; u] -> lowerChar l = l -> lowerChar u = l ->
  Ascii.eqb (lowerChar x) l = true.
Proof.
  intros [<-|[<-|[]]] Hl Hu; [rewrite Hl | rewrite Hu]; apply Ascii.eqb_refl.
Qed.

(** X28: a file name in which the first letter q, in either case,
    starts the letters QZH, each in either case, followed by an
    underscore, a hyphen or neither, and then by digits, gives the id
    [QZH] followed by the digits without their leading zeros (nothing at
    all when the digits are all zeros); a file name without the letter q
    and without a full stop before its extension [.xml] is its own id,
    the extension taken off. *)
Theorem extractIdFromFilename_cases (q z h : ascii)
    (before sep digits rest name : string) :
  In q ["q"; "Q"]%char -> In z ["z"; "Z"]%char -> In h ["h"; "H"]%char ->
  In sep [""; "_"; "-"] ->
  occurs "q" before = false -> occurs "Q" before = false ->
  allChars isDigit digits = true ->
  truthy digits = true ->
  noDigitAhead rest = true ->
  occurs "q" name = false -> occurs "Q" name = false ->
  occurs "." name = false ->
  AppTabs.extractIdFromFilename
    (before ++ String q (String z (String h (sep ++ digits ++ rest))))
  = "QZH " ++ AppTabs.dropZeros digits
  /\ AppTabs.extractIdFromFilename (name ++ ".xml") = name.
Proof.
  intros Hq Hz Hh Hsep Hb HB Hd Ht Hrest Hn HN Hdot.
  assert (Hspan : spanDigits (digits ++ rest) = (digits, rest)).
  { apply spanDigits_digits; [|exact Hrest].
    intros c. now apply allChars_occurs. }
  destruct digits as [|d0 ds]; [discriminate Ht|].
  assert (Hd0 : isDigit d0 = true).
  { cbn [allChars] in Hd. now apply andb_prop in Hd. }
  assert (Hnosep : Ascii.eqb d0 "_" || Ascii.eqb d0 "-" = false).
  { destruct (Ascii.eqb d0 "_") eqn:E1.
    { apply ascii_eqb_eq in E1. subst d0. discriminate Hd0. }
    destruct (Ascii.eqb d0 "-") eqn:E2; [|reflexivity].
    apply ascii_eqb_eq in E2. subst d0. discriminate Hd0. }
  unfold AppTabs.extractIdFromFilename. split.
  - rewrite findId_skip by assumption.
    cbn [AppTabs.findId AppTabs.idAtStart].
    rewrite (letter_either_case q "q" "Q" Hq eq_refl eq_refl),
            (letter_either_case z "z" "Z" Hz eq_refl eq_refl),
            (letter_either_case h "h" "H" Hh eq_refl eq_refl).
    cbn [andb].
    destruct Hsep as [<-|[<-|[<-|[]]]]; cbn [append].
    + rewrite Hnosep. cbv iota zeta.
      change (String d0 (ds ++ rest)) with (String d0 ds ++ rest).
      rewrite Hspan. reflexivity.
    + change (Ascii.eqb "_" "_" || Ascii.eqb "_" "-") with true. cbv iota zeta.
      change (String d0 (ds ++ rest)) with (String d0 ds ++ rest).
      rewrite Hspan. reflexivity.
    + change (Ascii.eqb "-" "_" || Ascii.eqb "-" "-") with true. cbv iota zeta.
      change (String d0 (ds ++ rest)) with (String d0 ds ++ rest).
      rewrite Hspan. reflexivity.
  - rewrite findId_none by (try assumption; reflexivity).
    now apply replaceFirst_suffix.
Qed.

Lemma extractIdFromFilename_cases_witness :
  AppTabs.extractIdFromFilename "a_Qzh-007.xml" = "QZH 7"
  /\ AppTabs.extractIdFromFilename "urkunde.xml" = "urkunde".
Proof.
  apply (extractIdFromFilename_cases "Q" "z" "h" "a_" "-" "007" ".xml" "urkunde");
    first [ reflexivity | cbn [In]; tauto ].
Defined.

(** ** Footnote references *)

Lemma attrValue_skip_digits (digits rest : string) :
  allChars isDigit digits = true ->
  attrValue "data-footnote" (digits ++ rest) = attrValue "data-footnote" rest.
Proof.
  induction digits as [|x r IH]; [reflexivity|].
  cbn [allChars]. intros H. apply andb_prop in H. destruct H as [Hx Hr].
  cbn [append]. rewrite <- (IH Hr).
  assert (E : Ascii.eqb "d" x = false).
  { destruct (Ascii.eqb "d" x) eqn:E; [|reflexivity].
    apply ascii_eqb_eq in E. subst x. discriminate Hx. }
  cbn [attrValue append startsWith]. rewrite E. reflexivity.
Qed.

Lemma nat_to_string_allDigits (n : nat) : allChars isDigit (nat_to_string n) = true.
Proof.
  pose proof (nat_to_string_digits n) as H.
  induction (nat_to_string n) as [|x r IH]; [reflexivity|].
  cbn [allChars]. rewrite (H x) by (cbn [occurs]; now rewrite Ascii.eqb_refl).
  apply IH. intros c Hc. apply H. cbn [occurs]. rewrite Hc. apply orb_true_r.
Qed.

Lemma nat_to_string_no_quote (n : nat) : occurs dquote (nat_to_string n) = false.
Proof.
  destruct (occurs dquote (nat_to_string n)) eqn:E; [|reflexivity].
  apply nat_to_string_digits in E. discriminate E.
Qed.

(** X29: the two elements that make footnotes.  A [note] that is not
    a marginal note appends a footnote holding the rendering of its
    children to those its children left, and a [handShift] one holding
    the text [Handwechsel] and the new hand; the number of the footnote
    is one above the counter the children left.  Each is rendered as a
    [span] of class [footnote-ref] whose text is that number and
    nothing else; the [span] of the [note] carries the number in a
    [data-footnote] attribute as well, the one of the [handShift] has no
    such attribute. *)
Theorem footnote_reference_attribute (c : ctx) (ns : string)
    (a : list (string * string)) (kids : list node) (st : state) :
  let note := Elem ns "note" a kids in
  let shift := Elem ns "handShift" a kids in
  let noteChildren := transformChildren c note st in
  let shiftChildren := transformChildren c shift st in
  let noteCounter := footnoteCounter (snd noteChildren) in
  let shiftCounter := footnoteCounter (snd shiftChildren) in
  (isMarginPlace (attrOr a "place" "") = false ->
   footnoteCounter (snd (transformNode c note st)) = S noteCounter
   /\ footnotes (snd (transformNode c note st))
      = (footnotes (snd noteChildren)
           ++ [mkFootnote (S noteCounter) (fst noteChildren)])%list
   /\ fst (transformNode c note st)
      = tpl "<span class='footnote-ref' data-footnote='"
        ++ nat_to_string (S noteCounter) ++ tpl "'>"
        ++ nat_to_string (S noteCounter) ++ "</span>"
   /\ attrValue "data-footnote" (fst (transformNode c note st))
      = Some (nat_to_string (S noteCounter)))
  /\ footnoteCounter (snd (transformNode c shift st)) = S shiftCounter
  /\ footnotes (snd (transformNode c shift st))
     = (footnotes (snd shiftChildren)
          ++ [mkFootnote (S shiftCounter)
                ("Handwechsel"
                 ++ (if truthy (attrOr a "new" "")
                     then ": " ++ attrOr a "new" "" else ""))])%list
  /\ fst (transformNode c shift st)
     = tpl "<span class='footnote-ref'>" ++ nat_to_string (S shiftCounter)
       ++ "</span>"
  /\ attrValue "data-footnote" (fst (transformNode c shift st)) = None.
Proof.
  cbv zeta. rewrite !transformNode_Elem, !bind_run. cbn [transformChildren].
  split.
  - intros Hplace.
    generalize (snd (eachChild transformNode c ns "note" a kids st)) as st'.
    generalize (fst (eachChild transformNode c ns "note" a kids st)) as children.
    intros children st'.
    unfold dispatch. cbn [nameOf attrsOf]. change (tagOf "note") with T_note.
    cbv iota. unfold transformNote. cbn [attrsOf]. cbv zeta. rewrite Hplace.
    rewrite !bind_run. cbn [addFootnote gets ret fst snd footnoteCounter footnotes].
    do 3 (split; [reflexivity|]).
    change (attrValue "data-footnote"
              (tpl "<span class='footnote-ref' data-footnote='"
               ++ nat_to_string (S (footnoteCounter st'))
               ++ tpl "'>" ++ nat_to_string (S (footnoteCounter st')) ++ "</span>"))
      with (Some (upToQuote
                    (nat_to_string (S (footnoteCounter st'))
                     ++ String dquote
                          (">" ++ nat_to_string (S (footnoteCounter st'))
                           ++ "</span>")))).
    rewrite upToQuote_closing by apply nat_to_string_no_quote. reflexivity.
  - generalize (snd (eachChild transformNode c ns "handShift" a kids st)) as st'.
    generalize (fst (eachChild transformNode c ns "handShift" a kids st)) as children.
    intros children st'.
    unfold dispatch. cbn [nameOf attrsOf]. change (tagOf "handShift") with T_handShift.
    cbv iota zeta. rewrite !bind_run.
    cbn [addFootnote gets ret fst snd footnoteCounter footnotes].
    do 3 (split; [reflexivity|]).
    change (attrValue "data-footnote"
              (tpl "<span class='footnote-ref'>"
               ++ nat_to_string (S (footnoteCounter st')) ++ "</span>"))
      with (attrValue "data-footnote"
              (nat_to_string (S (footnoteCounter st')) ++ "</span>")).
    rewrite attrValue_skip_digits by apply nat_to_string_allDigits.
    reflexivity.
Qed.

(** ** Where the register entries come from *)

Lemma Sourced_ret {A : Type} (els : list located) (a : A) : Sourced els (ret a).
Proof. intros st k. exists []. split; [now rewrite app_nil_r | intros e []]. Qed.

Lemma Sourced_gets {A : Type} (els : list located) (f : state -> A) :
  Sourced els (gets f).
Proof. intros st k. exists []. split; [now rewrite app_nil_r | intros e []]. Qed.

Lemma Sourced_bind {A B : Type} (els : list located) (m : M A) (f : A -> M B) :
  Sourced els m -> (forall a, Sourced els (f a)) -> Sourced els (bind m f).
Proof.
  intros Hm Hf st k. rewrite bind_run.
  destruct (Hm st k) as (d1 & E1 & H1).
  destruct (Hf (fst (m st)) (snd (m st)) k) as (d2 & E2 & H2).
  exists (d1 ++ d2)%list. split.
  - rewrite E2, E1. now rewrite app_assoc.
  - intros e He. apply in_app_or in He. destruct He; auto.
Qed.

Lemma Sourced_more {A : Type} (els els' : list located) (m : M A) :
  incl els els' -> Sourced els m -> Sourced els' m.
Proof.
  intros Hi Hm st k. destruct (Hm st k) as (d & E & H).
  exists d. split; [exact E|]. intros e He.
  destruct (H e He) as (cx & x & Hin & Hk & Ee).
  exists cx, x. repeat split; auto.
Qed.

Lemma Sourced_addFootnote (els : list located) (content : string) :
  Sourced els (addFootnote content).
Proof.
  intros st k. exists []. split; [|intros e []].
  destruct k; cbn; now rewrite app_nil_r.
Qed.

Lemma Sourced_pushEntity (els : list located) (k : kind) (e : entity) :
  stemsFrom els k e -> Sourced els (pushEntity k e).
Proof.
  intros He st k'. unfold pushEntity. rewrite register_setRegister.
  destruct k, k'; cbn;
    first [ exists [e]; split; [reflexivity | intros e' [<-|[]]; exact He]
          | exists []; split; [now rewrite app_nil_r | intros e' []] ].
Qed.

Lemma Sourced_transformSemanticElement (els : list located) (c : ctx)
    (n : node) (k : kind) (children : string) :
  In (c, n) els -> semanticKind c n = Some k ->
  Sourced els (transformSemanticElement n k children).
Proof.
  intros Hin Hk. unfold transformSemanticElement. cbv zeta.
  apply Sourced_bind; [|intros a; apply Sourced_ret].
  apply Sourced_pushEntity. exists c, n. repeat split; assumption.
Qed.

Lemma Sourced_transformNote (els : list located) (n : node) (children : string) :
  Sourced els (transformNote n children).
Proof.
  unfold transformNote. cbv zeta.
  destruct (isMarginPlace _); [apply Sourced_ret|].
  apply Sourced_bind; [apply Sourced_addFootnote|]. intros a.
  apply Sourced_bind; [apply Sourced_gets|]. intros b. apply Sourced_ret.
Qed.

Section SourcedDispatch.

Variable els : list located.
Variable again : M string.
Variable childrenOf : string -> option (M string).
Hypothesis Sourced_again : Sourced els again.
Hypothesis Sourced_childrenOf :
  forall t m, childrenOf t = Some m -> Sourced els m.

Lemma Sourced_found (t : string) : Sourced els (force (childrenOf t)).
Proof.
  destruct (childrenOf t) as [m|] eqn:E; simpl.
  - eapply Sourced_childrenOf; eassumption.
  - apply Sourced_ret.
Qed.

(** Splits a computation along its binds and conditionals. *)
Ltac sourced_step :=
  match goal with
  | |- Sourced _ (bind _ _) => apply Sourced_bind; [| intros ?]
  | |- Sourced _ (if ?b then _ else _) => destruct b
  | |- Sourced _ (match ?o with Some _ => _ | None => _ end) => destruct o
  | |- Sourced _ (ret _) => apply Sourced_ret
  | |- Sourced _ (gets _) => apply Sourced_gets
  | |- Sourced _ (addFootnote _) => apply Sourced_addFootnote
  | |- Sourced _ (force (childrenOf _)) => apply Sourced_found
  | |- Sourced _ again => exact Sourced_again
  | |- Sourced _ (transformNote _ _) => apply Sourced_transformNote
  end.

Lemma Sourced_transformChoiceWith (c : ctx) (n : node) :
  Sourced els (transformChoiceWith childrenOf c n again).
Proof. unfold transformChoiceWith. cbv zeta. repeat sourced_step. Qed.

Lemma Sourced_transformAppWith (c : ctx) (n : node) (children : string) :
  Sourced els (transformAppWith childrenOf c n children).
Proof. unfold transformAppWith. cbv zeta. repeat sourced_step. Qed.

Lemma Sourced_dispatch (c : ctx) (n : node) (children : string) :
  In (c, n) els -> isElem n = true ->
  Sourced els (dispatch again childrenOf c n children).
Proof.
  intros Hin He. unfold dispatch. cbv zeta.
  destruct (tagOf (nameOf n)) eqn:Et;
    try (repeat sourced_step; fail);
    try apply Sourced_transformChoiceWith;
    try apply Sourced_transformAppWith;
    try (apply (Sourced_transformSemanticElement els c); [exact Hin|];
         unfold semanticKind; rewrite He, Et; reflexivity).
  destruct (isInsideHeader c) eqn:Eh; [apply Sourced_ret|].
  apply (Sourced_transformSemanticElement els c); [exact Hin|].
  unfold semanticKind. now rewrite He, Et, Eh.
Qed.

End SourcedDispatch.

Lemma Sourced_childLoop (frameAt : nat -> frame) (c : ctx)
    (visit : ctx -> node -> M string) (ks : list node) :
  Forall (fun k => forall c',
            Sourced (if isElem k then (c', k) :: descendants c' k else [])
                    (visit c' k)) ks ->
  forall result i,
    Sourced (belowLoop frameAt c descendants i ks)
            (childLoop frameAt c visit result i ks).
Proof.
  induction 1 as [|k r Hk _ IH]; intros result i; cbn [childLoop belowLoop].
  - apply Sourced_ret.
  - apply Sourced_bind.
    + eapply Sourced_more; [|apply Hk]. apply incl_appl, incl_refl.
    + intros h. eapply Sourced_more; [|apply IH]. apply incl_appr, incl_refl.
Qed.

Lemma Sourced_firstLoop (frameAt : nat -> frame) (c : ctx)
    (search : ctx -> node -> option (M string)) (ks : list node) :
  Forall (fun k => forall c' m,
            search c' k = Some m ->
            Sourced (if isElem k then (c', k) :: descendants c' k else []) m)
         ks ->
  forall i m,
    firstLoop frameAt c search i ks = Some m ->
    Sourced (belowLoop frameAt c descendants i ks) m.
Proof.
  induction 1 as [|k r Hk _ IH]; intros i m; cbn [firstLoop belowLoop].
  - discriminate.
  - destruct (search (frameAt i :: c) k) as [m'|] eqn:E.
    + intros [= <-]. eapply Sourced_more; [|eapply Hk; exact E].
      apply incl_appl, incl_refl.
    + intros H. eapply Sourced_more; [|eapply IH; exact H].
      apply incl_appr, incl_refl.
Qed.

Lemma Sourced_walk (n : node) :
  (forall c, Sourced (if isElem n then (c, n) :: descendants c n else [])
                     (transformNode c n))
  /\ (forall t c m,
        childrenOfFirst t c n = Some m ->
        Sourced (if isElem n then (c, n) :: descendants c n else []) m).
Proof.
  induction n as [d|d| |ns nm a kids IH] using node_tree_ind;
    try (split; [intros c; apply Sourced_ret | intros t c m; discriminate]).
  cbn [isElem].
  assert (Hkids : forall c,
             Sourced (descendants c (Elem ns nm a kids))
                     (eachChild transformNode c ns nm a kids)).
  { intros c. rewrite descendants_Elem. apply Sourced_childLoop.
    eapply Forall_impl; [|exact IH]. intros k [Hk _]. exact Hk. }
  assert (Hfirst : forall t c m,
             firstChild (childrenOfFirst t) c ns nm a kids = Some m ->
             Sourced (descendants c (Elem ns nm a kids)) m).
  { intros t c m. rewrite descendants_Elem. apply Sourced_firstLoop.
    eapply Forall_impl; [|exact IH]. intros k [_ Hk]. apply Hk. }
  split.
  - intros c. rewrite transformNode_Elem.
    apply Sourced_bind.
    { eapply Sourced_more; [|apply Hkids]. apply incl_tl, incl_refl. }
    intros children. apply Sourced_dispatch.
    + eapply Sourced_more; [|apply Hkids]. apply incl_tl, incl_refl.
    + intros t m H. eapply Sourced_more; [|eapply Hfirst; exact H].
      apply incl_tl, incl_refl.
    + now left.
    + reflexivity.
  - intros t c m. rewrite childrenOfFirst_Elem.
    destruct (String.eqb nm t).
    + intros [= <-]. eapply Sourced_more; [|apply Hkids]. apply incl_tl, incl_refl.
    + intros H. eapply Sourced_more; [|eapply Hfirst; exact H].
      apply incl_tl, incl_refl.
Qed.

Lemma Sourced_transformNode (c : ctx) (n : node) :
  Sourced ((c, n) :: descendants c n) (transformNode c n).
Proof.
  destruct (Sourced_walk n) as [H _]. specialize (H c).
  destruct (isElem n) eqn:E; [exact H|].
  eapply Sourced_more; [|exact H]. intros y [].
Qed.

Lemma Sourced_transformChildren (c : ctx) (n : node) :
  Sourced (descendants c n) (transformChildren c n).
Proof.
  destruct n as [d|d| |ns nm a kids]; try apply Sourced_ret.
  cbn [transformChildren]. rewrite descendants_Elem.
  apply Sourced_childLoop. apply Forall_forall. intros k _ c'.
  apply Sourced_walk.
Qed.

Lemma docElements_closed (d : node) (y z : located) :
  In y (docElements d) ->
  In z (descendants (fst y) (snd y)) ->
  In z (docElements d).
Proof.
  unfold docElements. destruct (isElem d); [|intros []].
  intros [<-|Hy] Hz; right; [exact Hz|].
  eapply descendants_trans; eassumption.
Qed.

Lemma docFindByName_In (nm : string) (d : node) (y : located) :
  docFindByName nm d = Some y -> In y (docElements d).
Proof.
  unfold docFindByName, orNode.
  destruct (hd_error (filter (selects (ByTag nm)) (docElements d))) as [z|] eqn:E.
  - intros [= <-]. apply hd_error_In, filter_In in E. apply E.
  - intros H. apply hd_error_In, filter_In in H. apply H.
Qed.

Lemma findByName_below (sel : selector) (nm : string) (c : ctx) (n : node)
    (y : located) :
  findByName sel nm c n = Some y -> In y (descendants c n).
Proof.
  unfold findByName, orNode.
  destruct (querySelector sel c n) as [z|] eqn:E.
  - intros [= <-]. now apply querySelector_In in E.
  - intros H. unfold getElementsByTagNameNS in H.
    apply hd_error_In, filter_In in H. apply H.
Qed.

Lemma Sourced_below (d : node) (y : located) :
  In y (docElements d) ->
  Sourced (docElements d) (transformChildren (fst y) (snd y))
  /\ Sourced (docElements d) (transformNode (fst y) (snd y)).
Proof.
  destruct y as [c n]. cbn [fst snd]. intros Hy. split.
  - eapply Sourced_more; [|apply Sourced_transformChildren].
    intros z Hz. eapply docElements_closed; eassumption.
  - eapply Sourced_more; [|apply Sourced_transformNode].
    intros z [<-|Hz]; [exact Hy|]. eapply docElements_closed; eassumption.
Qed.

Lemma Sourced_transformEach (els : list located) (ps : list located) :
  (forall p, In p ps -> Sourced els (transformChildren (fst p) (snd p))) ->
  Sourced els (transformEach ps).
Proof.
  induction ps as [|p r IH]; intros H; cbn [transformEach].
  - apply Sourced_ret.
  - apply Sourced_bind; [apply H; now left|]. intros item.
    apply Sourced_bind; [|intros items; apply Sourced_ret].
    apply IH. intros q Hq. apply H. now right.
Qed.

Lemma Sourced_transformBackMatter (d : node) (y : located) :
  In y (docElements d) ->
  Sourced (docElements d) (transformBackMatter (fst y) (snd y)).
Proof.
  intros Hy. unfold transformBackMatter. cbv zeta.
  apply Sourced_bind.
  - apply Sourced_transformEach. intros p Hp.
    apply in_flat_map in Hp. destruct Hp as (dv & Hdv & Hp).
    unfold querySelectorAll in Hdv, Hp. apply filter_In in Hdv, Hp.
    apply Sourced_below.
    eapply docElements_closed; [|apply Hp].
    eapply docElements_closed; [exact Hy | apply Hdv].
  - intros items. destruct items; [|apply Sourced_ret].
    apply Sourced_bind; [|intros rest; apply Sourced_ret].
    now apply Sourced_below.
Qed.

Lemma Sourced_extractSummary (xmlDoc : node) :
  Sourced (docElements xmlDoc) (extractSummary xmlDoc).
Proof.
  unfold extractSummary.
  destruct (docFindByName "teiHeader" xmlDoc) as [[hc header]|] eqn:Eh;
    [|apply Sourced_ret].
  destruct (findByName (ByTag "summary") "summary" hc header)
    as [[sc summary]|] eqn:Es; [|apply Sourced_ret].
  apply Sourced_bind.
  - apply (Sourced_below xmlDoc (sc, summary)).
    apply (docElements_closed xmlDoc (hc, header)).
    + now apply docFindByName_In in Eh.
    + now apply findByName_below in Es.
  - intros html. destruct (truthy (trim html)); apply Sourced_ret.
Qed.

Lemma Sourced_walkDocument (xmlDoc : node) :
  Sourced (docElements xmlDoc) (walkDocument xmlDoc).
Proof.
  unfold walkDocument.
  apply Sourced_bind; [apply Sourced_extractSummary|]. intros summary.
  apply Sourced_bind.
  { destruct (docFindByName "body" xmlDoc) as [[c n]|] eqn:E;
      [|apply Sourced_ret].
    apply Sourced_bind; [|intros h; apply Sourced_ret].
    apply (Sourced_below xmlDoc (c, n)). now apply docFindByName_In in E. }
  intros body. apply Sourced_bind; [|intros back; apply Sourced_ret].
  destruct (docFindByName "back" xmlDoc) as [[c n]|] eqn:E;
    [|apply Sourced_ret].
  apply Sourced_bind; [|intros h; apply Sourced_ret].
  apply (Sourced_transformBackMatter xmlDoc (c, n)).
  now apply docFindByName_In in E.
Qed.

Lemma deduplicateEntities_In (localeCompare : string -> string -> Z)
    (l : list entity) (e : entity) :
  In e (deduplicateEntities localeCompare l) -> In e l.
Proof.
  intros H.
  apply (Permutation_in _ (deduplicateEntities_Permutation localeCompare l)) in H.
  apply keepFirsts_In in H. destruct H as [_ H]. now apply firstWithKey_In.
Qed.

Lemma deduplicateEntities_key (localeCompare : string -> string -> Z)
    (l : list entity) (e : entity) :
  In e l ->
  exists e', In e' (deduplicateEntities localeCompare l)
             /\ entityKey e' = entityKey e.
Proof.
  intros H.
  destruct (find (fun x => String.eqb (entityKey x) (entityKey e)) l)
    as [e'|] eqn:F.
  - pose proof (find_some _ _ F) as [Hin Hkey]. apply String.eqb_eq in Hkey.
    exists e'. split; [|exact Hkey].
    apply (Permutation_in _
             (Permutation_sym (deduplicateEntities_Permutation localeCompare l))).
    apply keepFirsts_In. split; [intros []|].
    unfold firstWithKey. rewrite Hkey. exact F.
  - exfalso. apply (find_none _ _ F) in H. now rewrite String.eqb_refl in H.
Qed.

Lemma walkDocument_registers (localeCompare : string -> string -> Z)
    (xmlDoc : node) (normalized : bool) (st : state) (k : kind) :
  registerOf k (Result.registers
                  (fst (transform localeCompare xmlDoc normalized st)))
  = deduplicateEntities localeCompare
      (register k (snd (walkDocument xmlDoc (resetState normalized)))).
Proof. rewrite transform_run. cbv zeta. now destruct k. Qed.

Lemma body_recorded (xmlDoc : node) (st : state) (c : ctx) (n : node)
    (cx : ctx) (x : node) (k : kind) :
  docFindByName "body" xmlDoc = Some (c, n) ->
  In (cx, x) (descendants c n) ->
  semanticKind cx x = Some k ->
  entityRecorded k x st (snd (walkDocument xmlDoc st)).
Proof.
  intros Hb Hx Hk. unfold walkDocument. rewrite !bind_run, Hb.
  rewrite !bind_run. cbn [ret snd fst].
  set (s1 := snd (extractSummary xmlDoc st)).
  assert (Hbody : entityRecorded k x s1 (snd (transformNode c n s1))).
  { assert (En : isElem n = true).
    { destruct n; try reflexivity; destruct Hx. }
    rewrite transformNode_element by exact En.
    eapply entityRecorded_after.
    - apply (Achieves_transformChildren (entityRecorded k x)
               (entityRecorded_before k x) (entityRecorded_after k x)
               cx x (visit_semantic cx x k Hk) n c Hx).
    - apply Grows_dispatch; auto with grows.
      intros t m. unfold childrenOfFound.
      destruct (findByName (ByTag t) t c n) as [y|];
        [intros [= <-]; apply Grows_transformChildren | discriminate]. }
  eapply entityRecorded_before; [apply Grows_extractSummary|].
  eapply entityRecorded_after; [exact Hbody|].
  destruct (docFindByName "back" xmlDoc) as [[cb nb]|].
  - rewrite bind_run. cbn [ret snd]. apply Grows_transformBackMatter.
  - apply grows_refl.
Qed.

(** X30: the registers list the document.  Every entry of a register
    of the result is the entry of a semantic element of that kind
    somewhere in the document (a [term] outside the header), and every
    semantic element below the [body] has an entry with its key in the
    register of its kind, also when it lies inside an element that is
    not displayed. *)
Theorem registers_list_the_document (localeCompare : string -> string -> Z)
    (xmlDoc : node) (normalized : bool) (st : state) (k : kind) :
  let r := fst (transform localeCompare xmlDoc normalized st) in
  (forall e,
     In e (registerOf k (Result.registers r)) ->
     exists cx x,
       In (cx, x) (docElements xmlDoc)
       /\ semanticKind cx x = Some k /\ e = entityOf x)
  /\ (forall c n cx x,
        docFindByName "body" xmlDoc = Some (c, n) ->
        In (cx, x) (descendants c n) ->
        semanticKind cx x = Some k ->
        exists e,
          In e (registerOf k (Result.registers r))
          /\ entityKey e = entityKey (entityOf x)).
Proof.
  cbv zeta. rewrite walkDocument_registers. split.
  - intros e He. apply deduplicateEntities_In in He.
    destruct (Sourced_walkDocument xmlDoc (resetState normalized) k)
      as (d & E & Hd).
    rewrite E in He. destruct k; cbn in He; apply Hd; exact He.
  - intros c n cx x Hb Hx Hk. apply deduplicateEntities_key.
    destruct (body_recorded xmlDoc (resetState normalized) c n cx x k Hb Hx Hk)
      as (d & E & Hin).
    rewrite E. apply in_or_app. now right.
Qed.
